(** * Danish rent-roll parser: a shallow embedding of [backend/parser.py]

    The development follows the layout of the Python module: text helpers,
    the keyword and synonym tables, the leaf functions
    ([convert_danish_number], [categorize_unit_type], [is_unit_vacant],
    [detect_file_type]), the header locator, the column mapper, the end-row
    test, the aggregator and the two pipelines.  Definitions come first, the
    properties of the specification afterwards.

    Modelling conventions.
    - Text is a [string] whose characters are the code points 0..255
      (Latin-1, which holds the Danish alphabet of the keyword tables): one
      [ascii] is one character of the Python [str], so [len], indexing and
      the substring test are those of the code.  On these characters the
      whitespace class ([str.strip], [str.isspace], the pattern class for
      white space), the digit class and [str.lower] are those of Python.
      Text with a code point above 255 (the euro sign, say) is outside the
      model.  A literal of this file is written in UTF-8 and read as the
      text it spells.
    - [convert_danish_number] and the aggregator compute with the exact
      rational a float denotes ([Q], kept in lowest terms), without the
      rounding of binary64.  [convert_danish_number_any] is the function on
      every Python argument, with the floats of the machine: rounding to the
      nearest binary64, infinities, NaN and [OverflowError].
    - A Python [dict] is a [gmap], a [set] a [gset]; the synonym table, whose
      iteration order matters, is an association list in declaration order.
    - [raise ParseError(kind)] is the [Err] case of [result]. *)

From Stdlib Require Import ZArith QArith Qpower Ascii String.
From stdpp Require Import gmap strings list pretty.

Open Scope string_scope.

(** ** Literals *)

Module Latin1.

(** The text a UTF-8 literal spells, when all its code points are below
    256: a byte below 128 is its own code point, the lead bytes 194 and 195
    carry the code points 128..255. *)
Fixpoint decode (bs : list Byte.byte) : option string :=
  match bs with
  | [] => Some EmptyString
  | b :: bs' =>
      let n := Byte.to_N b in
      if (n <? 128)%N then option_map (String (ascii_of_N n)) (decode bs')
      else
        match bs' with
        | c :: bs'' =>
            let m := Byte.to_N c in
            if ((n =? 194) || (n =? 195))%N && (128 <=? m)%N && (m <? 192)%N
            then option_map (String (ascii_of_N ((n - 194) * 64 + m))) (decode bs'')
            else None
        | [] => None
        end
  end.

Fixpoint encode (s : string) : list Byte.byte :=
  match s with
  | EmptyString => []
  | String a s' =>
      let n := N_of_ascii a in
      if (n <? 128)%N then byte_of_ascii a :: encode s'
      else
        match Byte.of_N (192 + n / 64), Byte.of_N (128 + n mod 64) with
        | Some lead, Some tail => lead :: tail :: encode s'
        | _, _ => encode s'
        end
  end.

End Latin1.

String Notation string Latin1.decode Latin1.encode : string_scope.

(** ** Errors *)

Inductive error_type :=
  | file_not_found
  | invalid_file_type
  | password_protected
  | no_header_found
  | no_data_found
  | ocr_failed
  | corrupted_file.

(** [ParseError(error_type, message)]; the message is [None] when the
    default text of the kind is used. *)
Record ParseError := mkParseError {
  pe_type : error_type;
  pe_message : option string
}.

Inductive result (A : Type) :=
  | Ok (a : A)
  | Err (e : ParseError).
Arguments Ok {A} a.
Arguments Err {A} e.

Definition raise {A : Type} (k : error_type) : result A := Err (mkParseError k None).
Definition raise_msg {A : Type} (k : error_type) (msg : string) : result A :=
  Err (mkParseError k (Some msg)).

Definition failed_with {A : Type} (r : result A) (k : error_type) : Prop :=
  match r with
  | Ok _ => False
  | Err e => pe_type e = k
  end.

(** ** Text helpers (Python [str] methods) *)

Module Text.

Definition code (a : ascii) : N := N_of_ascii a.

(** [str.isspace] on one character: TAB..CR, FS..US, the space, NEL
    (U+0085) and the no-break space (U+00A0). *)
Definition is_space (a : ascii) : bool :=
  let n := code a in
  ((9 <=? n) && (n <=? 13) || (28 <=? n) && (n <=? 32)
   || (n =? 133) || (n =? 160))%N.

Definition is_digit (a : ascii) : bool :=
  let n := code a in ((48 <=? n) && (n <=? 57))%N.

Definition is_empty (s : string) : bool :=
  match s with
  | EmptyString => true
  | String _ _ => false
  end.

Fixpoint lstrip (s : string) : string :=
  match s with
  | EmptyString => EmptyString
  | String a s' => if is_space a then lstrip s' else s
  end.

Fixpoint rstrip (s : string) : string :=
  match s with
  | EmptyString => EmptyString
  | String a s' =>
      match rstrip s' with
      | EmptyString => if is_space a then EmptyString else String a EmptyString
      | r => String a r
      end
  end.

(** [s.strip()] *)
Definition strip (s : string) : string := rstrip (lstrip s).

(** An upper-case letter of the Latin-1 supplement (U+00C0..U+00DE without
    the multiplication sign U+00D7) has its lower-case letter 32 places
    further on, as in ASCII. *)
Definition is_upper_ascii (a : ascii) : bool :=
  let n := code a in ((65 <=? n) && (n <=? 90))%N.

Definition is_upper_latin1 (a : ascii) : bool :=
  let n := code a in ((192 <=? n) && (n <=? 222) && negb (n =? 215))%N.

Definition shift32 (a : ascii) : ascii := ascii_of_N (code a + 32).

Definition lower_char (a : ascii) : ascii :=
  if is_upper_ascii a || is_upper_latin1 a then shift32 a else a.

(** [s.lower()] *)
Fixpoint lower (s : string) : string :=
  match s with
  | EmptyString => EmptyString
  | String a s' => String (lower_char a) (lower s')
  end.

(** [needle in hay] *)
Fixpoint contains (needle hay : string) : bool :=
  String.prefix needle hay ||
  match hay with
  | EmptyString => false
  | String _ hay' => contains needle hay'
  end.

(** [any(k in s for k in keywords)], the shape of every keyword loop. *)
Definition contains_any (keywords : list string) (s : string) : bool :=
  existsb (fun k => contains k s) keywords.

Fixpoint has_char (c : ascii) (s : string) : bool :=
  match s with
  | EmptyString => false
  | String a s' => Ascii.eqb a c || has_char c s'
  end.

(** [s.count(c)] *)
Fixpoint count_char (c : ascii) (s : string) : nat :=
  match s with
  | EmptyString => 0
  | String a s' => (if Ascii.eqb a c then 1 else 0) + count_char c s'
  end.

(** [s.replace(c, '')] *)
Fixpoint remove_char (c : ascii) (s : string) : string :=
  match s with
  | EmptyString => EmptyString
  | String a s' =>
      if Ascii.eqb a c then remove_char c s' else String a (remove_char c s')
  end.

(** [s.replace(c, d)] *)
Fixpoint replace_char (c d : ascii) (s : string) : string :=
  match s with
  | EmptyString => EmptyString
  | String a s' =>
      String (if Ascii.eqb a c then d else a) (replace_char c d s')
  end.

(** The two parts of [s.split(c)] when [c] occurs: text before the first
    [c] and text after it. *)
Fixpoint split_first (c : ascii) (s : string) : string * string :=
  match s with
  | EmptyString => (EmptyString, EmptyString)
  | String a s' =>
      if Ascii.eqb a c then (EmptyString, s')
      else let '(l, r) := split_first c s' in (String a l, r)
  end.

Fixpoint all_digits (s : string) : bool :=
  match s with
  | EmptyString => true
  | String a s' => is_digit a && all_digits s'
  end.

Fixpoint has_digit (s : string) : bool :=
  match s with
  | EmptyString => false
  | String a s' => is_digit a || has_digit s'
  end.

End Text.

(** ** Numbers: the value denoted by the argument of [float()] *)

Module Float.
Import Text.

Definition digit_value (a : ascii) : option Z :=
  if is_digit a then Some (Z.of_N (code a) - 48)%Z else None.

(** Rest of a [digitpart ::= digit (["_"] digit)*] once its first digit is
    read: the accumulated value, the number of digits and the text left. *)
Fixpoint digits_tail (acc : Z) (n : nat) (s : string) : Z * nat * string :=
  match s with
  | EmptyString => (acc, n, s)
  | String a s' =>
      match digit_value a with
      | Some d => digits_tail (10 * acc + d) (S n) s'
      | None =>
          if Ascii.eqb a "_" then
            match s' with
            | String b s'' =>
                match digit_value b with
                | Some d => digits_tail (10 * acc + d) (S n) s''
                | None => (acc, n, s)
                end
            | EmptyString => (acc, n, s)
            end
          else (acc, n, s)
      end
  end.

Definition digitpart (acc : Z) (s : string) : option (Z * nat * string) :=
  match s with
  | EmptyString => None
  | String a s' =>
      match digit_value a with
      | Some d => Some (digits_tail (10 * acc + d) 1 s')
      | None => None
      end
  end.

(** [number ::= [digitpart] "." digitpart | digitpart ["."]]: the digits
    read as one integer, and how many of them follow the point. *)
Definition number (s : string) : option (Z * nat * string) :=
  match digitpart 0 s with
  | Some (m, _, rest) =>
      match rest with
      | String "." rest' =>
          match digitpart m rest' with
          | Some r => Some r
          | None => Some (m, 0, rest')
          end
      | _ => Some (m, 0, rest)
      end
  | None =>
      match s with
      | String "." rest' => digitpart 0 rest'
      | _ => None
      end
  end.

Definition sign (s : string) : Z * string :=
  match s with
  | String "+" s' => (1%Z, s')
  | String "-" s' => ((-1)%Z, s')
  | _ => (1%Z, s)
  end.

(** [exponent ::= ("e" | "E") [sign] digitpart], absent means 0. *)
Definition exponent (s : string) : option (Z * string) :=
  match s with
  | String a s' =>
      if Ascii.eqb a "e" || Ascii.eqb a "E" then
        let '(sg, s'') := sign s' in
        match digitpart 0 s'' with
        | Some (v, _, rest) => Some ((sg * v)%Z, rest)
        | None => None
        end
      else Some (0%Z, s)
  | EmptyString => Some (0%Z, s)
  end.

(** The white space [float()] accepts around the number: that of
    [str.strip] without FS..US. *)
Definition is_float_space (a : ascii) : bool :=
  let n := code a in
  is_space a && negb ((28 <=? n) && (n <=? 31))%N.

Fixpoint ltrim (s : string) : string :=
  match s with
  | EmptyString => EmptyString
  | String a s' => if is_float_space a then ltrim s' else s
  end.

Fixpoint rtrim (s : string) : string :=
  match s with
  | EmptyString => EmptyString
  | String a s' =>
      match rtrim s' with
      | EmptyString => if is_float_space a then EmptyString else String a EmptyString
      | r => String a r
      end
  end.

Definition trim (s : string) : string := rtrim (ltrim s).

(** The number [float(s)] denotes, for a text with a digit in it (the
    spellings of infinity and NaN have none, and [convert_danish_number]
    rejects digit-free text before calling [float]); [None] is
    [ValueError]. *)
Definition float_of_text (s : string) : option Q :=
  let '(sg, s1) := sign (trim s) in
  match number s1 with
  | Some (m, k, s2) =>
      match exponent s2 with
      | Some (e, EmptyString) =>
          Some (Qred (inject_Z (sg * m) * Qpower 10 (e - Z.of_nat k)))
      | _ => None
      end
  | None => None
  end.

(** Sums and quotients stay in lowest terms. *)
Definition add (a b : Q) : Q := Qred (a + b).
Definition div (a b : Q) : Q := Qred (a / b).
Definition of_nat (n : nat) : Q := inject_Z (Z.of_nat n).

Definition is_positive (q : Q) : bool := (0 <? Qnum q)%Z.
Definition is_zero (q : Q) : bool := (Qnum q =? 0)%Z.

(** [round(q, 2)]: nearest multiple of 1/100, halves to the even one. *)
Definition round2 (q : Q) : Q :=
  let n := (Qnum q * 100)%Z in
  let d := Z.pos (Qden q) in
  let fl := (n / d)%Z in
  let r := (2 * (n mod d))%Z in
  let up := if (d <? r)%Z then true
            else if (r <? d)%Z then false
            else Z.odd fl in
  Qred (inject_Z (if up then fl + 1 else fl) / 100).

End Float.

(** ** Leaf functions *)

(** Arguments of [convert_danish_number] whose result is a number in the
    proper sense: [None], a finite number ([int] or [float]) given by its
    value, a string, or any other object with its [str()].  The special
    floats and the integers beyond the floats are among the arguments of
    [convert_danish_number_any] below. *)
Inductive pyvalue :=
  | VNone
  | VNum (q : Q)
  | VStr (s : string)
  | VOther (repr : string).

(** [re.sub(r'[kr\s...$]', '', value, flags=re.IGNORECASE)]: the letters k
    and r in either case, white space and the dollar sign; the euro sign of
    the class is no Latin-1 character. *)
Fixpoint strip_currency (s : string) : string :=
  match s with
  | EmptyString => EmptyString
  | String a s' =>
      if Ascii.eqb a "k" || Ascii.eqb a "K" || Ascii.eqb a "r" || Ascii.eqb a "R"
         || Text.is_space a || Ascii.eqb a "$"
      then strip_currency s'
      else String a (strip_currency s')
  end.

(** The comma / period branch of [convert_danish_number]: the text handed to
    [float]. *)
Definition danish_separators (value : string) : string :=
  if Text.has_char "," value then
    Text.replace_char "," "." (Text.remove_char "." value)
  else
    let period_count := Text.count_char "." value in
    if (period_count =? 1)%nat then
      let '(before, after) := Text.split_first "." value in
      if (String.length after =? 3)%nat && (String.length before <=? 3)%nat
      then Text.remove_char "." value
      else value
    else if (1 <? period_count)%nat then Text.remove_char "." value
    else value.

Definition convert_danish_text (value : string) : option Q :=
  let value := Text.strip value in
  if Text.is_empty value then None
  else
    let value := strip_currency value in
    if negb (Text.has_digit value) then None
    else Float.float_of_text (danish_separators value).

Definition convert_danish_number (value : pyvalue) : option Q :=
  match value with
  | VNone => None
  | VNum q => Some q
  | VStr s => convert_danish_text s
  | VOther repr => convert_danish_text repr
  end.

(** ** Configuration tables *)

Definition HEADER_KEYWORDS : list string :=
  [ "lejemål"; "lejnr"; "areal"; "m2"; "kvm"; "leje"; "årlig";
    "nr"; "bel"; "etage"; "bem"; "bemærkning"; "reg"; "regulering";
    "start"; "indflytning"; "type"; "anvendelse";
    "unit_id"; "size_sqm"; "sqm"; "area"; "rent"; "floor"; "address";
    "zipcode"; "postal"; "door"; "rooms"; "lease"; "tenant" ].

(** The synonym table, in the order of the dict literal. *)
Definition COLUMN_MAPPING : list (string * string) :=
  [ ("lejnr", "unit_id");
    ("lejemål", "unit_id");
    ("lejenr", "unit_id");
    ("lejemålsnr", "unit_id");
    ("nr", "unit_id");
    ("unit_id", "unit_id");
    ("areal", "sqm");
    ("m2", "sqm");
    ("kvm", "sqm");
    ("m²", "sqm");
    ("kvadratmeter", "sqm");
    ("size_sqm", "sqm");
    ("sqm", "sqm");
    ("area", "sqm");
    ("size", "sqm");
    ("leje", "annual_rent");
    ("årlig", "annual_rent");
    ("årligleje", "annual_rent");
    ("årlig leje", "annual_rent");
    ("husleje", "annual_rent");
    ("rent_current_gri", "annual_rent");
    ("rent_current", "annual_rent");
    ("annual_rent", "annual_rent");
    ("rent", "annual_rent");
    ("gri", "annual_rent");
    ("bel", "floor");
    ("etage", "floor");
    ("beliggenhed", "floor");
    ("unit_floor", "floor");
    ("floor", "floor");
    ("type", "unit_type");
    ("anvendelse", "unit_type");
    ("lejemålstype", "unit_type");
    ("unit_type", "unit_type");
    ("start", "lease_start");
    ("indflytning", "lease_start");
    ("startdato", "lease_start");
    ("indflytningsdato", "lease_start");
    ("lease_start", "lease_start");
    ("lease_end", "lease_end");
    ("slutdato", "lease_end");
    ("fraflytning", "lease_end");
    ("bem", "notes");
    ("bemærkning", "notes");
    ("bemærkninger", "notes");
    ("note", "notes");
    ("noter", "notes");
    ("notes", "notes");
    ("reg", "rent_adjustment");
    ("regulering", "rent_adjustment");
    ("lejeregulering", "rent_adjustment");
    ("unit_address", "address");
    ("address", "address");
    ("adresse", "address");
    ("unit_zipcode", "postal_code");
    ("zipcode", "postal_code");
    ("postal_code", "postal_code");
    ("postnr", "postal_code");
    ("postnummer", "postal_code");
    ("unit_door", "door");
    ("door", "door");
    ("dør", "door");
    ("rooms_amount", "rooms");
    ("rooms", "rooms");
    ("værelser", "rooms");
    ("tenant_name1", "tenant_name");
    ("tenant_name", "tenant_name");
    ("lejer", "tenant_name");
    ("lejernavn", "tenant_name");
    ("units_status", "unit_status");
    ("unit_status", "unit_status");
    ("status", "unit_status");
    ("lejestatus", "unit_status");
    ("udlejningsstatus", "unit_status") ].

Definition END_ROW_KEYWORDS : list string :=
  [ "total"; "sum"; "i alt"; "ialt"; "samlet"; "subtotal" ].

Definition UNIT_TYPE_BOLIG : list string :=
  [ "apartment"; "residential"; "bolig"; "lejlighed"; "værelse"; "room" ].
Definition UNIT_TYPE_ERHVERV : list string :=
  [ "commercial"; "retail"; "office"; "erhverv"; "kontor"; "butik"; "lager";
    "warehouse" ].
Definition UNIT_TYPE_PARKERING : list string :=
  [ "parking"; "parkering"; "p-plads"; "garage"; "carport" ].

Definition VACANCY_KEYWORDS : list string :=
  [ "vacant"; "ledig"; "tom"; "fraflyttet"; "empty"; "available"; "til leje" ].

(** ** Row categorizer *)

Inductive category := bolig | erhverv | parkering | andet.

Definition categorize_unit_type (unit_type_value : string) : category :=
  if Text.is_empty unit_type_value then andet
  else
    let val_lower := Text.strip (Text.lower unit_type_value) in
    if Text.contains_any UNIT_TYPE_BOLIG val_lower then bolig
    else if Text.contains_any UNIT_TYPE_ERHVERV val_lower then erhverv
    else if Text.contains_any UNIT_TYPE_PARKERING val_lower then parkering
    else andet.

Definition is_unit_vacant (status_value : string) : bool :=
  if Text.is_empty status_value then false
  else Text.contains_any VACANCY_KEYWORDS (Text.strip (Text.lower status_value)).

(** ** File type *)

Module PathLib.

(** [s.split(c)] *)
Fixpoint split_on (c : ascii) (s : string) : list string :=
  match s with
  | EmptyString => [EmptyString]
  | String a s' =>
      if Ascii.eqb a c then EmptyString :: split_on c s'
      else match split_on c s' with
           | [] => [String a EmptyString]
           | h :: t => String a h :: t
           end
  end.

(** Components of a POSIX path: empty and ["."] components vanish. *)
Definition parts (path : string) : list string :=
  List.filter (fun x => negb (Text.is_empty x) && negb (String.eqb x "."))
              (split_on "/" path).

(** [Path(path).name] *)
Definition name (path : string) : string := List.last (parts path) EmptyString.

(** The text from the last [c] on, [None] when [c] does not occur. *)
Fixpoint from_last (c : ascii) (s : string) : option string :=
  match s with
  | EmptyString => None
  | String a s' =>
      match from_last c s' with
      | Some t => Some t
      | None => if Ascii.eqb a c then Some s else None
      end
  end.

(** [Path(path).suffix]: [name[i:]] for [i = name.rfind('.')] when
    [0 < i < len(name) - 1], else the empty string. *)
Definition suffix (path : string) : string :=
  let nm := name path in
  match from_last "." nm with
  | Some t =>
      if (String.length t <? String.length nm)%nat && (1 <? String.length t)%nat
      then t else EmptyString
  | None => EmptyString
  end.

End PathLib.

Inductive file_type := excel | pdf.

Definition detect_file_type (file_path : string) : result file_type :=
  let ext := Text.lower (PathLib.suffix file_path) in
  if String.eqb ext ".xlsx" || String.eqb ext ".xls" then Ok excel
  else if String.eqb ext ".pdf" then Ok pdf
  else raise invalid_file_type.

(** ** Cells and rows *)

(** A cell as the readers deliver it: [None], a string, or another scalar
    (number, date, boolean) known by its [str()] and its truth value. *)
Inductive cell :=
  | CNone
  | CStr (s : string)
  | CScalar (repr : string) (truthy : bool).

Definition row := list cell.

Definition is_none (c : cell) : bool :=
  match c with
  | CNone => true
  | _ => false
  end.

(** [bool(c)] *)
Definition truthy (c : cell) : bool :=
  match c with
  | CNone => false
  | CStr s => negb (Text.is_empty s)
  | CScalar _ t => t
  end.

(** [str(c) if c is not None else ""] *)
Definition cell_text (c : cell) : string :=
  match c with
  | CNone => EmptyString
  | CStr s => s
  | CScalar repr _ => repr
  end.

(** [sum(1 for x in l if p(x))] *)
Fixpoint count_if {A : Type} (p : A -> bool) (l : list A) : nat :=
  match l with
  | [] => 0
  | x :: l' => (if p x then 1 else 0) + count_if p l'
  end.

Definition is_nil {A : Type} (l : list A) : bool :=
  match l with
  | [] => true
  | _ :: _ => false
  end.

Definition non_blank (s : string) : bool := negb (Text.is_empty (Text.strip s)).

(** ** Header locator *)

(** [str(cell).lower().strip() if cell is not None else ""] per cell. *)
Definition lowered_cells (r : row) : list string :=
  map (fun c => Text.strip (Text.lower (cell_text c))) r.

Definition row_score (r : row) : nat :=
  let cells := lowered_cells r in
  let score := count_if (Text.contains_any HEADER_KEYWORDS) cells in
  let non_empty := count_if (fun c => negb (Text.is_empty c)) cells in
  if (3 <=? non_empty)%nat then score + 1 else score.

(** Loop state of [find_header_row]; the initial pair [(-1, None)] of
    [best_row_idx] and [best_row] is [None]. *)
Record best := mkBest {
  best_score : nat;
  best_row : option (nat * row)
}.

Definition header_step (b : best) (idx : nat) (r : row) : best :=
  if is_nil r then b
  else
    let score := row_score r in
    if (best_score b <? score)%nat then mkBest score (Some (idx, r)) else b.

(** [for idx, row in enumerate(rows)], starting the count at [idx]. *)
Fixpoint header_scan (b : best) (idx : nat) (rows : list row) : best :=
  match rows with
  | [] => b
  | r :: rows' => header_scan (header_step b idx r) (S idx) rows'
  end.

Definition max_rows : nat := 15.

Definition find_header_row (rows : list row) : result (nat * row) :=
  let b := header_scan (mkBest 0 None) 0 (take max_rows rows) in
  if (best_score b <? 2)%nat then raise no_header_found
  else match best_row b with
       | Some hit => Ok hit
       | None => raise no_header_found
       end.

(** ** Column mapper *)

(** [COLUMN_MAPPING[header_lower]] when the key is present. *)
Fixpoint exact_lookup (table : list (string * string)) (key : string)
  : option string :=
  match table with
  | [] => None
  | (k, v) :: table' => if String.eqb k key then Some v else exact_lookup table' key
  end.

(** The partial-match loop over [COLUMN_MAPPING.items()]. *)
Fixpoint partial_lookup (table : list (string * string)) (header_lower : string)
  : option string :=
  match table with
  | [] => None
  | (danish, standard) :: table' =>
      if Text.contains danish header_lower || Text.contains header_lower danish
      then Some standard
      else partial_lookup table' header_lower
  end.

Definition map_header (header_lower : string) : option string :=
  match exact_lookup COLUMN_MAPPING header_lower with
  | Some standard => Some standard
  | None => partial_lookup COLUMN_MAPPING header_lower
  end.

Definition map_columns_step (mapping : gmap string string) (header : cell)
  : gmap string string :=
  if is_none header then mapping
  else
    let header_str := Text.strip (cell_text header) in
    let header_lower := Text.lower header_str in
    match map_header header_lower with
    | Some standard => <[header_str := standard]> mapping
    | None => mapping
    end.

Definition map_columns (headers : list cell) : gmap string string :=
  fold_left map_columns_step headers ∅.

(** ** End-row test *)

Definition is_end_row (r : row) : bool :=
  if is_nil r then true
  else if forallb (fun c => is_none c || negb (non_blank (cell_text c))) r then true
  else
    existsb
      (fun c => negb (is_none c) &&
                Text.contains_any END_ROW_KEYWORDS
                  (Text.strip (Text.lower (cell_text c))))
      (take 3 r).

Definition get_rent_type_from_sheet (sheet_name : string) : option category :=
  let name_lower := Text.lower sheet_name in
  if Text.contains "parkering" name_lower || Text.contains "p-plads" name_lower
  then Some parkering
  else if Text.contains "erhverv" name_lower || Text.contains "commercial" name_lower
  then Some erhverv
  else None.

(** ** Aggregator *)

(** One entry of [all_rows]. *)
Record parsed_row := mkRow {
  raw : list string;
  source : string;
  row_num : nat;
  rent_type : option category
}.

Record type_stats := mkTypeStats {
  ts_count : nat;
  ts_sqm : Q;
  ts_rent : Q;
  ts_vacant : nat
}.

(** The dict [unit_type_breakdown], one entry per category. *)
Record breakdown := mkBreakdown {
  bd_bolig : type_stats;
  bd_erhverv : type_stats;
  bd_parkering : type_stats;
  bd_andet : type_stats
}.

Definition bd_get (b : breakdown) (c : category) : type_stats :=
  match c with
  | bolig => bd_bolig b
  | erhverv => bd_erhverv b
  | parkering => bd_parkering b
  | andet => bd_andet b
  end.

Definition bd_alter (f : type_stats -> type_stats) (c : category) (b : breakdown)
  : breakdown :=
  match c with
  | bolig => mkBreakdown (f (bd_bolig b)) (bd_erhverv b) (bd_parkering b) (bd_andet b)
  | erhverv => mkBreakdown (bd_bolig b) (f (bd_erhverv b)) (bd_parkering b) (bd_andet b)
  | parkering => mkBreakdown (bd_bolig b) (bd_erhverv b) (f (bd_parkering b)) (bd_andet b)
  | andet => mkBreakdown (bd_bolig b) (bd_erhverv b) (bd_parkering b) (f (bd_andet b))
  end.

Record suspicious := mkSuspicious {
  sus_row_num : nat;
  sus_issue : string;
  sus_value : Q;
  sus_unit : string
}.

(** The counters of [calculate_summary_stats]. *)
Record stats := mkStats {
  total_sqm : Q;
  total_rent : Q;
  total_vacant : nat;
  units_with_sqm : nat;
  units_with_rent : nat;
  rent_per_sqm_sum : Q;
  rent_per_sqm_count : nat;
  unit_type_breakdown : breakdown;
  rows_missing_sqm : list nat;
  rows_missing_rent : list nat;
  rows_suspicious : list suspicious
}.

Definition zero_type_stats : type_stats := mkTypeStats 0 0 0 0.

Definition initial_stats : stats :=
  mkStats 0 0 0 0 0 0 0
    (mkBreakdown zero_type_stats zero_type_stats zero_type_stats zero_type_stats)
    [] [] [].

(** The reverse mapping, standard name to column index; a later column with
    the same standard name replaces an earlier one. *)
Fixpoint standard_to_idx_from (col_idx : nat) (columns : list string)
    (column_mapping : gmap string string) (acc : gmap string nat)
  : gmap string nat :=
  match columns with
  | [] => acc
  | col_name :: columns' =>
      standard_to_idx_from (S col_idx) columns' column_mapping
        match column_mapping !! col_name with
        | Some standard_name => <[standard_name := col_idx]> acc
        | None => acc
        end
  end.

Definition standard_to_idx (columns : list string)
    (column_mapping : gmap string string) : gmap string nat :=
  standard_to_idx_from 0 columns column_mapping ∅.

(** [raw[idx]] when [idx is not None and idx < len(raw)]. *)
Definition field (idx : option nat) (r : parsed_row) : option string :=
  match idx with
  | Some i => raw r !! i
  | None => None
  end.

(** [v is not None and v > 0] *)
Definition positive (v : option Q) : bool :=
  match v with
  | Some q => Float.is_positive q
  | None => false
  end.

Definition sqm_value_of (sqm_idx : option nat) (r : parsed_row) : option Q :=
  match field sqm_idx r with
  | Some text => convert_danish_number (VStr text)
  | None => None
  end.

Definition rent_value_of (rent_idx : option nat) (r : parsed_row) : option Q :=
  match field rent_idx r with
  | Some text => convert_danish_number (VStr text)
  | None => None
  end.

Definition category_of (unit_type_idx : option nat) (r : parsed_row) : category :=
  match field unit_type_idx r with
  | Some unit_type_value => categorize_unit_type unit_type_value
  | None => andet
  end.

Definition vacant_of (unit_status_idx : option nat) (r : parsed_row) : bool :=
  match field unit_status_idx r with
  | Some status_value => is_unit_vacant status_value
  | None => false
  end.

Section RowLoop.
Variables sqm_idx rent_idx unit_type_idx unit_status_idx : option nat.

(** The sqm block of the loop body. *)
Definition sqm_step (st : stats) (r : parsed_row) : stats :=
  match sqm_value_of sqm_idx r with
  | Some v =>
      if Float.is_positive v then
        mkStats (Float.add (total_sqm st) v) (total_rent st) (total_vacant st)
          (S (units_with_sqm st)) (units_with_rent st)
          (rent_per_sqm_sum st) (rent_per_sqm_count st) (unit_type_breakdown st)
          (rows_missing_sqm st) (rows_missing_rent st) (rows_suspicious st)
      else
        mkStats (total_sqm st) (total_rent st) (total_vacant st)
          (units_with_sqm st) (units_with_rent st)
          (rent_per_sqm_sum st) (rent_per_sqm_count st) (unit_type_breakdown st)
          (rows_missing_sqm st ++ [row_num r]) (rows_missing_rent st)
          (rows_suspicious st)
  | None =>
      mkStats (total_sqm st) (total_rent st) (total_vacant st)
        (units_with_sqm st) (units_with_rent st)
        (rent_per_sqm_sum st) (rent_per_sqm_count st) (unit_type_breakdown st)
        (rows_missing_sqm st ++ [row_num r]) (rows_missing_rent st)
        (rows_suspicious st)
  end.

(** The rent block. *)
Definition rent_step (st : stats) (r : parsed_row) : stats :=
  let missing sus :=
    mkStats (total_sqm st) (total_rent st) (total_vacant st)
      (units_with_sqm st) (units_with_rent st)
      (rent_per_sqm_sum st) (rent_per_sqm_count st) (unit_type_breakdown st)
      (rows_missing_sqm st) (rows_missing_rent st ++ [row_num r])
      (rows_suspicious st ++ sus) in
  match rent_value_of rent_idx r with
  | Some v =>
      if Float.is_positive v then
        mkStats (total_sqm st) (Float.add (total_rent st) v) (total_vacant st)
          (units_with_sqm st) (S (units_with_rent st))
          (rent_per_sqm_sum st) (rent_per_sqm_count st) (unit_type_breakdown st)
          (rows_missing_sqm st) (rows_missing_rent st) (rows_suspicious st)
      else if Float.is_zero v then
        missing (if positive (sqm_value_of sqm_idx r)
                 then [mkSuspicious (row_num r) "Zero rent" 0 "kr"]
                 else [])
      else missing []
  | None => missing []
  end.

(** The per-category block and the vacancy block. *)
Definition category_step (st : stats) (r : parsed_row) : stats :=
  let cat := category_of unit_type_idx r in
  let sqm_value := sqm_value_of sqm_idx r in
  let rent_value := rent_value_of rent_idx r in
  let vacant := vacant_of unit_status_idx r in
  let bump (t : type_stats) :=
    mkTypeStats (S (ts_count t))
      (match sqm_value with
       | Some v => if Float.is_positive v then Float.add (ts_sqm t) v else ts_sqm t
       | None => ts_sqm t
       end)
      (match rent_value with
       | Some v => if Float.is_positive v then Float.add (ts_rent t) v else ts_rent t
       | None => ts_rent t
       end)
      (if vacant then S (ts_vacant t) else ts_vacant t) in
  mkStats (total_sqm st) (total_rent st)
    (if vacant then S (total_vacant st) else total_vacant st)
    (units_with_sqm st) (units_with_rent st)
    (rent_per_sqm_sum st) (rent_per_sqm_count st)
    (bd_alter bump cat (unit_type_breakdown st))
    (rows_missing_sqm st) (rows_missing_rent st) (rows_suspicious st).

(** The rent-per-sqm block. *)
Definition ratio_step (st : stats) (r : parsed_row) : stats :=
  match sqm_value_of sqm_idx r, rent_value_of rent_idx r with
  | Some sqm_value, Some rent_value =>
      if Float.is_positive sqm_value && Float.is_positive rent_value then
        mkStats (total_sqm st) (total_rent st) (total_vacant st)
          (units_with_sqm st) (units_with_rent st)
          (Float.add (rent_per_sqm_sum st) (Float.div rent_value sqm_value))
          (S (rent_per_sqm_count st)) (unit_type_breakdown st)
          (rows_missing_sqm st) (rows_missing_rent st) (rows_suspicious st)
      else st
  | _, _ => st
  end.

(** One iteration of [for row in rows]. *)
Definition stats_step (st : stats) (r : parsed_row) : stats :=
  ratio_step (category_step (rent_step (sqm_step st r) r) r) r.

Definition accumulate (rows : list parsed_row) : stats :=
  fold_left stats_step rows initial_stats.

End RowLoop.

Record summary := mkSummary {
  sum_total_units : nat;
  sum_total_sqm : Q;
  sum_total_annual_rent : Q;
  sum_avg_rent_per_sqm : Q;
  sum_units_with_rent : nat;
  sum_units_with_sqm : nat;
  sum_total_vacant : nat;
  sum_unit_type_breakdown : breakdown
}.

Record data_quality := mkDataQuality {
  dq_rows_missing_sqm : list nat;
  dq_rows_missing_rent : list nat;
  dq_rows_suspicious : list suspicious;
  dq_unmapped_columns : list string
}.

Definition round_type_stats (t : type_stats) : type_stats :=
  mkTypeStats (ts_count t) (Float.round2 (ts_sqm t)) (Float.round2 (ts_rent t))
    (ts_vacant t).

Definition round_breakdown (b : breakdown) : breakdown :=
  mkBreakdown (round_type_stats (bd_bolig b)) (round_type_stats (bd_erhverv b))
    (round_type_stats (bd_parkering b)) (round_type_stats (bd_andet b)).

(** [rent_per_sqm_sum / rent_per_sqm_count] when the count is positive. *)
Definition average (st : stats) : Q :=
  if (0 <? rent_per_sqm_count st)%nat
  then Float.div (rent_per_sqm_sum st) (Float.of_nat (rent_per_sqm_count st))
  else 0%Q.

Definition unmapped_columns (columns : list string)
    (column_mapping : gmap string string) : list string :=
  List.filter
    (fun col => negb (Text.is_empty col) && non_blank col &&
                negb (bool_decide (is_Some (column_mapping !! col))))
    columns.

Definition calculate_summary_stats (rows : list parsed_row) (columns : list string)
    (column_mapping : gmap string string) : summary * data_quality :=
  let idx := standard_to_idx columns column_mapping in
  let st := accumulate (idx !! "sqm") (idx !! "annual_rent") (idx !! "unit_type")
              (idx !! "unit_status") rows in
  (mkSummary (length rows) (Float.round2 (total_sqm st))
     (Float.round2 (total_rent st)) (Float.round2 (average st))
     (units_with_rent st) (units_with_sqm st) (total_vacant st)
     (round_breakdown (unit_type_breakdown st)),
   mkDataQuality (rows_missing_sqm st) (rows_missing_rent st) (rows_suspicious st)
     (unmapped_columns columns column_mapping)).

(** ** Orchestrator: result record and collaborators *)

Inductive confidence_level := high | medium | low.

Inductive source_info :=
  | ExcelInfo (sheets_found sheets_used : list string)
  | PdfInfo (pages tables_found : nat) (ocr_used : bool).

(** The dict returned by [parse_excel] and [parse_pdf]. *)
Record parse_result := mkResult {
  filename : string;
  res_file_type : file_type;
  res_source_info : source_info;
  header_row : option nat;
  columns : list string;
  column_mapping : gmap string string;
  rows : list parsed_row;
  total_rows : nat;
  parse_warnings : list string;
  confidence : confidence_level;
  res_summary : summary;
  res_data_quality : data_quality
}.

(** What the spreadsheet reader yields for one sheet: its rows, or the
    exception it raised. *)
Inductive sheet_read :=
  | SheetRows (sheet_rows : list row)
  | SheetFailed (msg : string).

Record sheet := mkSheet {
  sheet_name : string;
  sheet_content : sheet_read
}.

Inductive workbook_read :=
  | Workbook (sheets : list sheet)
  | WorkbookFailed (msg : string).

(** [pdfplumber]: per page, the tables of [page.extract_tables()]. *)
Inductive pdf_read :=
  | Pdf (pdf_pages : list (list (list row)))
  | PdfFailed (msg : string).

(** One entry of [all_tables]. *)
Record table_info := mkTable {
  page : nat;
  table_rows : list row
}.

(** [extract_tables_with_ocr]: the pseudo-tables and the warnings it adds,
    or the failure of the image conversion. *)
Inductive ocr_read :=
  | OcrTables (tables : list table_info) (warnings : list string)
  | OcrFailed (msg : string).

(** The file system and the external readers. *)
Record world := mkWorld {
  path_exists : string -> bool;
  read_xlsx : string -> workbook_read;
  read_xls : string -> workbook_read;
  read_pdf : string -> pdf_read;
  read_ocr : string -> ocr_read
}.

(** Calls into the collaborators, in the order they are made. *)
Inductive event :=
  | EvExists (path : string)
  | EvOpenWorkbook (path : string)
  | EvOpenPdf (path : string)
  | EvOcr (path : string).

Definition is_read_event (e : event) : bool :=
  match e with
  | EvExists _ => false
  | _ => true
  end.

(** The handler shared by both openers. *)
Definition open_failure {A : Type} (what msg : string) : result A :=
  let error_msg := Text.lower msg in
  if Text.contains "password" error_msg || Text.contains "encrypted" error_msg
  then raise password_protected
  else raise_msg corrupted_file (what ++ msg).

(** ** Spreadsheet pipeline *)

(** [for row_offset, row in enumerate(data_rows)] of [parse_excel], counting
    from [row_offset]; [break] on the first end row. *)
Fixpoint excel_data_rows (sheet_name : string) (rent_type : option category)
    (header_idx row_offset : nat) (data_rows : list row) : list parsed_row :=
  match data_rows with
  | [] => []
  | r :: data_rows' =>
      if is_end_row r then []
      else
        let raw_data := map cell_text r in
        let non_empty := count_if non_blank raw_data in
        if (non_empty <? 2)%nat
        then excel_data_rows sheet_name rent_type header_idx (S row_offset) data_rows'
        else mkRow raw_data sheet_name (header_idx + row_offset + 2) rent_type
             :: excel_data_rows sheet_name rent_type header_idx (S row_offset) data_rows'
  end.

(** What the sheet loop of [parse_excel] carries from sheet to sheet. *)
Record excel_state := mkExcelState {
  xs_header_found : bool;
  xs_header_row : option nat;
  xs_columns : list string;
  xs_column_mapping : gmap string string;
  xs_all_rows : list parsed_row;
  xs_sheets_used : list string;
  xs_warnings : list string;
  xs_confidence : confidence_level
}.

Definition xs_warn (st : excel_state) (w : string) : excel_state :=
  mkExcelState (xs_header_found st) (xs_header_row st) (xs_columns st)
    (xs_column_mapping st) (xs_all_rows st) (xs_sheets_used st)
    (xs_warnings st ++ [w]) (xs_confidence st).

(** The data-row part of one sheet, once its header index is known. *)
Definition excel_extract (st : excel_state) (name : string) (header_idx : nat)
    (sheet_rows : list row) : excel_state :=
  let rent_type := get_rent_type_from_sheet name in
  let data_rows := drop (header_idx + 1) sheet_rows in
  let new_rows := excel_data_rows name rent_type header_idx 0 data_rows in
  let sheet_row_count := length new_rows in
  mkExcelState (xs_header_found st) (xs_header_row st) (xs_columns st)
    (xs_column_mapping st) (xs_all_rows st ++ new_rows)
    (if (0 <? sheet_row_count)%nat then xs_sheets_used st ++ [name]
     else xs_sheets_used st)
    (if (0 <? sheet_row_count)%nat then xs_warnings st
     else xs_warnings st ++ ["Sheet '" ++ name ++ "' skipped - no data rows"])
    (xs_confidence st).

Definition excel_sheet_step (st : excel_state) (sh : sheet) : excel_state :=
  let name := sheet_name sh in
  match sheet_content sh with
  | SheetFailed msg =>
      mkExcelState (xs_header_found st) (xs_header_row st) (xs_columns st)
        (xs_column_mapping st) (xs_all_rows st) (xs_sheets_used st)
        (xs_warnings st ++ ["Sheet '" ++ name ++ "' error: " ++ msg]) medium
  | SheetRows sheet_rows =>
      if (length sheet_rows <? 3)%nat
      then xs_warn st ("Sheet '" ++ name ++ "' skipped - insufficient rows")
      else
        match find_header_row sheet_rows with
        | Err _ => xs_warn st ("Sheet '" ++ name ++ "' skipped - no header found")
        | Ok (header_idx, header_cells) =>
            let st' :=
              if xs_header_found st then st
              else mkExcelState true (Some (header_idx + 1))
                     (map cell_text header_cells) (map_columns header_cells)
                     (xs_all_rows st) (xs_sheets_used st) (xs_warnings st)
                     (xs_confidence st) in
            excel_extract st' name header_idx sheet_rows
        end
  end.

Definition initial_excel_state : excel_state :=
  mkExcelState false None [] ∅ [] [] [] high.

(** [parse_excel] after the workbook is open. *)
Definition parse_excel_sheets (file_path : string) (sheets : list sheet)
  : result parse_result :=
  let st := fold_left excel_sheet_step sheets initial_excel_state in
  if negb (xs_header_found st) then raise no_header_found
  else if is_nil (xs_all_rows st) then raise no_data_found
  else
    let '(summary, quality) :=
      calculate_summary_stats (xs_all_rows st) (xs_columns st)
        (xs_column_mapping st) in
    Ok (mkResult (PathLib.name file_path) excel
          (ExcelInfo (map sheet_name sheets) (xs_sheets_used st))
          (xs_header_row st) (xs_columns st) (xs_column_mapping st)
          (xs_all_rows st) (length (xs_all_rows st)) (xs_warnings st)
          (xs_confidence st) summary quality).

Definition parse_excel (w : world) (file_path : string)
  : list event * result parse_result :=
  let ext := Text.lower (PathLib.suffix file_path) in
  let opened :=
    if String.eqb ext ".xlsx" then read_xlsx w file_path else read_xls w file_path in
  ([EvOpenWorkbook file_path],
   match opened with
   | WorkbookFailed msg => open_failure "Could not open file: " msg
   | Workbook sheets => parse_excel_sheets file_path sheets
   end).

(** ** PDF pipeline *)

(** [tuple(str(c).lower().strip() for c in header_row if c)] *)
Definition header_sig (header_cells : row) : list string :=
  map (fun c => Text.strip (Text.lower (cell_text c))) (List.filter truthy header_cells).

(** [tuple(c.lower().strip() for c in raw_data if c.strip())] *)
Definition row_sig (raw_data : list string) : list string :=
  map (fun c => Text.strip (Text.lower c)) (List.filter non_blank raw_data).

Definition page_label (page_num : nat) : string := "page_" ++ pretty page_num.

(** [for row_offset, row in enumerate(data_rows)] of [parse_pdf], counting
    from [row_offset]; every test ends in [continue]. *)
Fixpoint pdf_data_rows (seen_headers : gset (list string)) (page_num row_offset : nat)
    (data_rows : list row) : list parsed_row :=
  match data_rows with
  | [] => []
  | r :: data_rows' =>
      let rest := pdf_data_rows seen_headers page_num (S row_offset) data_rows' in
      if is_end_row r then rest
      else
        let raw_data := map cell_text r in
        let non_empty := count_if non_blank raw_data in
        if (non_empty <? 2)%nat then rest
        else if bool_decide (row_sig raw_data ∈ seen_headers) then rest
        else mkRow raw_data (page_label page_num) (row_offset + 1) None :: rest
  end.

(** What the table loop of [parse_pdf] carries from table to table;
    [data_rows] is a function-level variable and survives an iteration. *)
Record pdf_state := mkPdfState {
  ps_header_found : bool;
  ps_seen_headers : gset (list string);
  ps_data_rows : list row;
  ps_header_row : option nat;
  ps_columns : list string;
  ps_column_mapping : gmap string string;
  ps_all_rows : list parsed_row
}.

(** The rows one table contributes, given the state its header phase left. *)
Definition pdf_table_rows (st : pdf_state) (t : table_info) : list parsed_row :=
  pdf_data_rows (ps_seen_headers st) (page t) 0 (ps_data_rows st).

Definition pdf_extract (st : pdf_state) (t : table_info) : pdf_state :=
  mkPdfState (ps_header_found st) (ps_seen_headers st) (ps_data_rows st)
    (ps_header_row st) (ps_columns st) (ps_column_mapping st)
    (ps_all_rows st ++ pdf_table_rows st t).

(** The header phase of one table; [None] is the [continue] taken when no
    header is found yet. *)
Definition pdf_header_phase (st : pdf_state) (t : table_info) : option pdf_state :=
  let table := table_rows t in
  if negb (ps_header_found st) then
    match find_header_row table with
    | Ok (header_idx, header_cells) =>
        Some (mkPdfState true ({[ header_sig header_cells ]} ∪ ps_seen_headers st)
                (drop (header_idx + 1) table) (Some (header_idx + 1))
                (map cell_text header_cells) (map_columns header_cells)
                (ps_all_rows st))
    | Err _ => None
    end
  else
    match table with
    | first_row :: _ =>
        let first_row_sig := header_sig first_row in
        Some (mkPdfState (ps_header_found st) (ps_seen_headers st)
                (if bool_decide (first_row_sig ∈ ps_seen_headers st)
                 then drop 1 table else table)
                (ps_header_row st) (ps_columns st) (ps_column_mapping st)
                (ps_all_rows st))
    | [] => Some st
    end.

Definition pdf_table_step (st : pdf_state) (t : table_info) : pdf_state :=
  match pdf_header_phase st t with
  | Some st' => pdf_extract st' t
  | None => st
  end.

Definition initial_pdf_state : pdf_state :=
  mkPdfState false ∅ [] None [] ∅ [].

(** [all_tables] as collected from the pages, numbered from [page_num]. *)
Fixpoint collect_tables (page_num : nat) (pdf_pages : list (list (list row)))
  : list table_info :=
  match pdf_pages with
  | [] => []
  | tables :: pdf_pages' =>
      map (mkTable page_num)
          (List.filter (fun table => (1 <? length table)%nat) tables)
      ++ collect_tables (S page_num) pdf_pages'
  end.

(** The table loop and what follows it in [parse_pdf]. *)
Definition parse_pdf_tables (file_path : string) (n_pages n_tables : nat)
    (ocr_used : bool) (warnings : list string) (conf : confidence_level)
    (all_tables : list table_info) : result parse_result :=
  let st := fold_left pdf_table_step all_tables initial_pdf_state in
  if negb (ps_header_found st) then raise no_header_found
  else if is_nil (ps_all_rows st) then raise no_data_found
  else
    let '(summary, quality) :=
      calculate_summary_stats (ps_all_rows st) (ps_columns st)
        (ps_column_mapping st) in
    Ok (mkResult (PathLib.name file_path) pdf
          (PdfInfo n_pages n_tables ocr_used)
          (ps_header_row st) (ps_columns st) (ps_column_mapping st)
          (ps_all_rows st) (length (ps_all_rows st)) warnings conf
          summary quality).

Definition ocr_notice : string := "No tables found with pdfplumber, attempting OCR".

Definition parse_pdf (w : world) (file_path : string)
  : list event * result parse_result :=
  match read_pdf w file_path with
  | PdfFailed msg => ([EvOpenPdf file_path], open_failure "Could not open PDF: " msg)
  | Pdf pdf_pages =>
      let all_tables := collect_tables 1 pdf_pages in
      let n_pages := length pdf_pages in
      let n_tables := length all_tables in
      if is_nil all_tables then
        match read_ocr w file_path with
        | OcrFailed msg =>
            ([EvOpenPdf file_path; EvOcr file_path], raise_msg ocr_failed msg)
        | OcrTables ocr_tables ocr_warnings =>
            ([EvOpenPdf file_path; EvOcr file_path],
             if is_nil ocr_tables
             then raise_msg no_data_found "No tables found in PDF"
             else parse_pdf_tables file_path n_pages n_tables true
                    (ocr_notice :: ocr_warnings) low ocr_tables)
        end
      else
        ([EvOpenPdf file_path],
         parse_pdf_tables file_path n_pages n_tables false [] high all_tables)
  end.

(** ** Entry point *)

Definition parse_rent_roll (w : world) (file_path : string)
  : list event * result parse_result :=
  if negb (path_exists w file_path)
  then ([EvExists file_path],
        raise_msg file_not_found ("File not found: " ++ file_path))
  else
    match detect_file_type file_path with
    | Err e => ([EvExists file_path], Err e)
    | Ok excel =>
        let '(trace, r) := parse_excel w file_path in (EvExists file_path :: trace, r)
    | Ok pdf =>
        let '(trace, r) := parse_pdf w file_path in (EvExists file_path :: trace, r)
    end.

(** ** Definitions that follow the words of the specification

    They are compared below with the functions taken from the code. *)

(** "If exactly one period is present and exactly 3 digits follow it while
    at most 3 digits precede it, treat the period as a thousands separator
    and remove it"; the other cases as in the code. *)
Definition spec_separators (value : string) : string :=
  if Text.has_char "," value then
    Text.replace_char "," "." (Text.remove_char "." value)
  else
    let period_count := Text.count_char "." value in
    if (period_count =? 1)%nat then
      let '(before, after) := Text.split_first "." value in
      if Text.all_digits after && (String.length after =? 3)%nat &&
         Text.all_digits before && (String.length before <=? 3)%nat
      then Text.remove_char "." value
      else value
    else if (1 <? period_count)%nat then Text.remove_char "." value
    else value.

Definition spec_normalize (value : string) : option Q :=
  let value := Text.strip value in
  if Text.is_empty value then None
  else
    let value := strip_currency value in
    if negb (Text.has_digit value) then None
    else Float.float_of_text (spec_separators value).

(** "Try an exact lower-cased lookup first; on miss, scan the synonym table
    in its fixed declaration order and accept the first entry where the
    synonym is a substring of the header or vice versa." *)
Definition spec_map_header (header_lower : string) : option string :=
  match List.find (fun kv => String.eqb (fst kv) header_lower) COLUMN_MAPPING with
  | Some kv => Some (snd kv)
  | None =>
      match List.find (fun kv => Text.contains (fst kv) header_lower ||
                                 Text.contains header_lower (fst kv))
                      COLUMN_MAPPING with
      | Some kv => Some (snd kv)
      | None => None
      end
  end.

(** "The first row among the first 15 scoring at least 2", with its index
    counted from [idx]. *)
Fixpoint first_reaching (idx : nat) (rows : list row) : option (nat * row) :=
  match rows with
  | [] => None
  | r :: rows' =>
      if (2 <=? row_score r)%nat then Some (idx, r) else first_reaching (S idx) rows'
  end.

Definition spec_find_header_row (rows : list row) : result (nat * row) :=
  match first_reaching 0 (take max_rows rows) with
  | Some hit => Ok hit
  | None => raise no_header_found
  end.

(** "The mean of each qualifying row's own rent/sqm ratio (both strictly
    positive)." *)
Definition qualifies (sqm_idx rent_idx : option nat) (r : parsed_row) : bool :=
  positive (sqm_value_of sqm_idx r) && positive (rent_value_of rent_idx r).

Definition ratio_of (sqm_idx rent_idx : option nat) (r : parsed_row) : Q :=
  match sqm_value_of sqm_idx r, rent_value_of rent_idx r with
  | Some sqm_value, Some rent_value => Float.div rent_value sqm_value
  | _, _ => 0%Q
  end.

Definition mean_of_ratios (sqm_idx rent_idx : option nat) (rows : list parsed_row) : Q :=
  let ratios := map (ratio_of sqm_idx rent_idx)
                    (List.filter (qualifies sqm_idx rent_idx) rows) in
  if is_nil ratios then 0%Q
  else Float.div (fold_left Float.add ratios 0%Q) (Float.of_nat (length ratios)).

(** The row numbers of the rows carrying one source label, in output order. *)
Definition row_nums_of (label : string) (rs : list parsed_row) : list nat :=
  map row_num (List.filter (fun r => String.eqb (source r) label) rs).

Fixpoint increasing_from (n : nat) (l : list nat) : Prop :=
  match l with
  | [] => True
  | m :: l' => n < m /\ increasing_from m l'
  end.

(** Each number is strictly below the next one. *)
Definition strictly_increasing (l : list nat) : Prop :=
  match l with
  | [] => True
  | n :: l' => increasing_from n l'
  end.

(** A text with exactly one period: [before ++ "." ++ after]. *)
Definition one_period (before after : string) : string :=
  before ++ String "." after.

(** The key under which a header cell is stored. *)
Definition header_key (c : cell) : string := Text.strip (cell_text c).

(** Every entry of the mapping is the tag of its own key. *)
Definition tags_own_keys (m : gmap string string) : Prop :=
  forall k v, m !! k = Some v -> map_header (Text.lower k) = Some v.

(** Loop invariant of [header_scan] over the rows [seen] so far: no row seen
    scores above [best_score], which is the score of the recorded row, and
    every row before the recorded one scores strictly less. *)
Definition scan_inv (b : best) (seen : list row) : Prop :=
  (forall j r, seen !! j = Some r -> row_score r <= best_score b) /\
  match best_row b with
  | None => best_score b = 0
  | Some (i, r) =>
      seen !! i = Some r /\ row_score r = best_score b /\ 0 < best_score b /\
      forall j r', j < i -> seen !! j = Some r' -> row_score r' < row_score r
  end.

(** A cell that is [None] or blank once stripped. *)
Definition blank_cell (c : cell) : bool := is_none c || negb (non_blank (cell_text c)).

(** A non-[None] cell holding a terminal keyword. *)
Definition terminal_cell (c : cell) : bool :=
  negb (is_none c) &&
  Text.contains_any END_ROW_KEYWORDS (Text.strip (Text.lower (cell_text c))).

(** A run of output rows that carry one source label and strictly increasing
    row numbers. *)
Definition uniform_segment (label : string) (seg : list parsed_row) : Prop :=
  Forall (fun r => source r = label) seg /\ strictly_increasing (map row_num seg).

(** ** Collaborators used in the examples *)

(** The sheet of the documented scenario: header, then A1, A2, A3. *)
Definition scenario_sheet : list row :=
  [ [CStr "Lejemål"; CStr "Areal"; CStr "Leje"];
    [CStr "A1"; CStr "50"; CStr "10.000"];
    [CStr "A2"; CStr "0"; CStr "0"];
    [CStr "A3"; CStr ""; CStr "5.000"] ].

(** No file exists. *)
Definition empty_world : world :=
  mkWorld (fun _ => false) (fun _ => WorkbookFailed "no such file")
    (fun _ => WorkbookFailed "no such file") (fun _ => PdfFailed "no such file")
    (fun _ => OcrFailed "no such file").

(** Every path exists and opens as an empty workbook or an empty PDF. *)
Definition blank_world : world :=
  mkWorld (fun _ => true) (fun _ => Workbook []) (fun _ => Workbook [])
    (fun _ => Pdf []) (fun _ => OcrTables [] []).

(** A PDF whose single page holds two tables: the header with two units, and
    two more units without a header. *)
Definition two_tables_one_page : list (list (list row)) :=
  [ [ [ [CStr "Lejnr"; CStr "Areal"; CStr "Leje"];
        [CStr "A1"; CStr "50"; CStr "10.000"];
        [CStr "A2"; CStr "60"; CStr "12.000"] ];
      [ [CStr "B1"; CStr "70"; CStr "14.000"];
        [CStr "B2"; CStr "80"; CStr "16.000"] ] ] ].

Definition one_pdf_world (pdf_pages : list (list (list row))) : world :=
  mkWorld (fun _ => true) (fun _ => Workbook []) (fun _ => Workbook [])
    (fun _ => Pdf pdf_pages) (fun _ => OcrTables [] []).

(** Invariant of the table loop of [parse_pdf]: no row is collected before a
    header is accepted, and no collected row has a signature in
    [seen_headers]. *)
Definition pdf_inv (st : pdf_state) : Prop :=
  (ps_header_found st = false -> ps_all_rows st = []) /\
  forall r, In r (ps_all_rows st) -> row_sig (raw r) ∉ ps_seen_headers st.

(** ** Measures read off the aggregator's state *)

(** The four [count] entries of the breakdown, added up; likewise the
    [vacant], [sqm] and [rent] entries. *)
Definition bd_total_count (b : breakdown) : nat :=
  ts_count (bd_bolig b) + ts_count (bd_erhverv b) + ts_count (bd_parkering b)
  + ts_count (bd_andet b).

Definition bd_total_vacant (b : breakdown) : nat :=
  ts_vacant (bd_bolig b) + ts_vacant (bd_erhverv b) + ts_vacant (bd_parkering b)
  + ts_vacant (bd_andet b).

Definition bd_total_sqm (b : breakdown) : Q :=
  (ts_sqm (bd_bolig b) + ts_sqm (bd_erhverv b) + ts_sqm (bd_parkering b)
   + ts_sqm (bd_andet b))%Q.

Definition bd_total_rent (b : breakdown) : Q :=
  (ts_rent (bd_bolig b) + ts_rent (bd_erhverv b) + ts_rent (bd_parkering b)
   + ts_rent (bd_andet b))%Q.

(** A row whose rent parses to exactly zero while its area is positive. *)
Definition zero_rent_row (sqm_idx rent_idx : option nat) (r : parsed_row) : Prop :=
  positive (sqm_value_of sqm_idx r) = true /\
  exists v, rent_value_of rent_idx r = Some v /\ Float.is_zero v = true /\
            Float.is_positive v = false.

(** What the loop keeps true of [rows_suspicious] while it walks rows taken
    from [all]. *)
Definition suspicious_inv (sqm_idx rent_idx : option nat) (all : list parsed_row)
    (st : stats) : Prop :=
  forall s, In s (rows_suspicious st) ->
    In (sus_row_num s) (rows_missing_rent st) /\
    sus_issue s = "Zero rent" /\ sus_value s = 0%Q /\ sus_unit s = "kr" /\
    exists r, In r all /\ row_num r = sus_row_num s /\
              zero_rent_row sqm_idx rent_idx r.

(** What [standard_to_idx_from] keeps true of its accumulator once the
    columns [done] are behind it: an entry is the last column of [done]
    mapped to that standard name, and a missing entry means no column is. *)
Definition idx_inv (column_mapping : gmap string string) (done : list string)
    (acc : gmap string nat) : Prop :=
  forall tag,
    match acc !! tag with
    | Some i =>
        (exists col, done !! i = Some col /\ column_mapping !! col = Some tag) /\
        forall j col, done !! j = Some col -> column_mapping !! col = Some tag -> j <= i
    | None =>
        forall j col, done !! j = Some col -> column_mapping !! col <> Some tag
    end.

(** The amount a parsed value adds to a total: itself when positive, else
    nothing. *)
Definition positive_part (v : option Q) : Q :=
  match v with
  | Some q => if Float.is_positive q then q else 0%Q
  | None => 0%Q
  end.

(** The standard field names the synonym table maps to. *)
Definition CANONICAL_TAGS : list string :=
  [ "unit_id"; "sqm"; "annual_rent"; "floor"; "unit_type"; "lease_start";
    "lease_end"; "notes"; "rent_adjustment"; "address"; "postal_code"; "door";
    "rooms"; "tenant_name"; "unit_status" ].

(** Every synonym of the table is mapped to its own tag. *)
Definition synonym_hits_own_tag (kv : string * string) : bool :=
  match map_header (fst kv) with
  | Some v => String.eqb v (snd kv)
  | None => false
  end.

(** Every key of the mapping is the stripped text of a header cell that is
    not [None]. *)
Definition keys_from_headers (headers : list cell) (m : gmap string string) : Prop :=
  forall k v, m !! k = Some v ->
    exists c, In c headers /\ is_none c = false /\ header_key c = k.

(** ** Measures of text used in the statements *)

(** The characters [strip_currency] deletes one at a time: k, K, r, R,
    whitespace and the dollar sign. *)
Definition is_token_char (a : ascii) : bool :=
  Ascii.eqb a "k" || Ascii.eqb a "K" || Ascii.eqb a "r" || Ascii.eqb a "R"
  || Text.is_space a || Ascii.eqb a "$".

Fixpoint all_token_chars (s : string) : bool :=
  match s with
  | EmptyString => true
  | String a s' => is_token_char a && all_token_chars s'
  end.

(** The number a run of decimal digits denotes, continuing from [acc]. *)
Fixpoint digits_value_from (acc : Z) (s : string) : Z :=
  match s with
  | EmptyString => acc
  | String a s' => digits_value_from (10 * acc + (Z.of_N (Text.code a) - 48)) s'
  end.

Definition digits_value (s : string) : Z := digits_value_from 0 s.

(** ** The spreadsheet loop, sheet by sheet *)

(** The header a sheet offers: the sheet must be read without failure, hold
    at least three rows and have a header among its first 15. *)
Definition sheet_header (sh : sheet) : option (nat * row) :=
  match sheet_content sh with
  | SheetRows sheet_rows =>
      if (length sheet_rows <? 3)%nat then None
      else match find_header_row sheet_rows with
           | Ok hit => Some hit
           | Err _ => None
           end
  | SheetFailed _ => None
  end.

Definition sheet_failed (sh : sheet) : bool :=
  match sheet_content sh with
  | SheetFailed _ => true
  | SheetRows _ => false
  end.

(** The header of the first sheet that offers one. *)
Fixpoint first_header (sheets : list sheet) : option (nat * row) :=
  match sheets with
  | [] => None
  | sh :: sheets' =>
      match sheet_header sh with
      | Some hit => Some hit
      | None => first_header sheets'
      end
  end.

(** The rows one sheet contributes, from that sheet alone. *)
Definition sheet_rows_out (sh : sheet) : list parsed_row :=
  match sheet_content sh, sheet_header sh with
  | SheetRows sheet_rows, Some (header_idx, _) =>
      excel_data_rows (sheet_name sh) (get_rent_type_from_sheet (sheet_name sh))
        header_idx 0 (drop (header_idx + 1) sheet_rows)
  | _, _ => []
  end.

(** The entry of [sheets_used] and the warning one sheet leaves. *)
Definition sheet_used (sh : sheet) : list string :=
  if is_nil (sheet_rows_out sh) then [] else [sheet_name sh].

Definition sheet_warnings (sh : sheet) : list string :=
  let name := sheet_name sh in
  match sheet_content sh with
  | SheetFailed msg => ["Sheet '" ++ name ++ "' error: " ++ msg]
  | SheetRows sheet_rows =>
      if (length sheet_rows <? 3)%nat
      then ["Sheet '" ++ name ++ "' skipped - insufficient rows"]
      else match find_header_row sheet_rows with
           | Err _ => ["Sheet '" ++ name ++ "' skipped - no header found"]
           | Ok _ =>
               if is_nil (sheet_rows_out sh)
               then ["Sheet '" ++ name ++ "' skipped - no data rows"]
               else []
           end
  end.

(** The state the sheet loop reaches from [st] over [sheets], written sheet
    by sheet. *)
Definition excel_closed (st : excel_state) (sheets : list sheet) : excel_state :=
  let h := first_header sheets in
  mkExcelState
    (xs_header_found st || match h with Some _ => true | None => false end)
    (if xs_header_found st then xs_header_row st
     else match h with Some (i, _) => Some (i + 1) | None => xs_header_row st end)
    (if xs_header_found st then xs_columns st
     else match h with Some (_, hdr) => map cell_text hdr | None => xs_columns st end)
    (if xs_header_found st then xs_column_mapping st
     else match h with Some (_, hdr) => map_columns hdr | None => xs_column_mapping st end)
    (xs_all_rows st ++ concat (map sheet_rows_out sheets))%list
    (xs_sheets_used st ++ concat (map sheet_used sheets))%list
    (xs_warnings st ++ concat (map sheet_warnings sheets))%list
    (if existsb sheet_failed sheets then medium else xs_confidence st).

(** Two sheets in the Danish layout and one sheet without rows, used in the
    examples. *)
Definition bolig_sheet : sheet :=
  mkSheet "Bolig"
    (SheetRows [ [CStr "Lejeliste 2024"];
                 [CStr "Lejnr"; CStr "Areal"; CStr "Leje"];
                 [CStr "A1"; CStr "50"; CStr "10.000"];
                 [CStr "A2"; CStr "60"; CStr "12.000"];
                 [CStr "I alt"; CStr "110"; CStr "22.000"];
                 [CStr "A3"; CStr "70"; CStr "14.000"] ]).

Definition parkering_sheet : sheet :=
  mkSheet "P-pladser (parkering)"
    (SheetRows [ [CStr "Nr"; CStr "Leje"; CStr "Areal"];
                 [CStr "P1"; CStr "6.000"; CStr "12"];
                 [CStr "P2"; CStr "6.000"; CStr "12"] ]).

Definition broken_sheet : sheet := mkSheet "Noter" (SheetFailed "bad zip entry").

(** ** The table loop of the PDF pipeline, table by table *)

(** What a table contributes once a header has been accepted: its rows,
    without the first one when that repeats a stored header signature. *)
Definition later_table_rows (seen : gset (list string)) (t : table_info)
  : list parsed_row :=
  pdf_data_rows seen (page t) 0
    match table_rows t with
    | first_row :: rest =>
        if bool_decide (header_sig first_row ∈ seen) then rest else table_rows t
    | [] => []
    end.

(** What the table with the accepted header contributes: the rows below the
    header. *)
Definition header_table_rows (t : table_info) (header_idx : nat) (header_cells : row)
  : list parsed_row :=
  pdf_data_rows {[ header_sig header_cells ]} (page t) 0
    (drop (header_idx + 1) (table_rows t)).

(** Header index, header and output rows of a list of tables: the header is
    that of the first table that has one. *)
Fixpoint pdf_closed (tables : list table_info) : option (nat * row * list parsed_row) :=
  match tables with
  | [] => None
  | t :: tables' =>
      match find_header_row (table_rows t) with
      | Ok (header_idx, header_cells) =>
          Some (header_idx, header_cells,
                (header_table_rows t header_idx header_cells ++
                 concat (map (later_table_rows {[ header_sig header_cells ]}) tables'))%list)
      | Err _ => pdf_closed tables'
      end
  end.

Definition nonempty_table (t : table_info) : Prop := table_rows t <> [].

(** Cells that are falsy or non-blank: no whitespace-only text. *)
Definition clean_cell (c : cell) : Prop := truthy c = non_blank (cell_text c).

(** Invariant of the table loop over tables taken from [all]: before a
    header is accepted nothing is stored; afterwards the one stored signature
    is that of the header found in one of the tables, whose cells became the
    columns. *)
Definition seen_inv (all : list table_info) (st : pdf_state) : Prop :=
  if ps_header_found st
  then exists t i hdr,
         In t all /\ find_header_row (table_rows t) = Ok (i, hdr) /\
         ps_seen_headers st = {[ header_sig hdr ]} /\
         ps_columns st = map cell_text hdr /\ ps_header_row st = Some (i + 1)
  else ps_seen_headers st = ∅ /\ ps_all_rows st = [].

Definition has_header (t : table_info) : bool :=
  match find_header_row (table_rows t) with
  | Ok _ => true
  | Err _ => false
  end.

(** A PDF of two pages: the header with one unit, then a table with its own,
    different header. *)
Definition two_headers_pdf : list (list (list row)) :=
  [ [ [ [CStr "Lejnr"; CStr "Areal"; CStr "Leje"];
        [CStr "A1"; CStr "50"; CStr "10.000"] ] ];
    [ [ [CStr "Nr"; CStr "Leje"; CStr "Areal"];
        [CStr "P1"; CStr "6.000"; CStr "12"] ] ] ].

(** A scanned PDF: no table from the extractor, one pseudo-table from the
    text recognition. *)
Definition scanned_world : world :=
  mkWorld (fun _ => true) (fun _ => Workbook []) (fun _ => Workbook [])
    (fun _ => Pdf [[]; [[[CStr "x"]]]])
    (fun _ => OcrTables
                [mkTable 1 [ [CStr "Lejnr"; CStr "Areal"; CStr "Leje"];
                             [CStr "A1"; CStr "50"; CStr "10.000"] ]]
                []).

(** One table in which the header comes back in capitals, with an empty
    cell and padded cells. *)
Definition shouting_header_pdf : list (list (list row)) :=
  [ [ [ [CStr "Lejnr"; CStr "Areal"; CStr "Leje"];
        [CStr "A1"; CStr "50"; CStr "10.000"];
        [CStr "LEJNR"; CStr ""; CStr " areal"; CStr "Leje "];
        [CStr "A2"; CStr "60"; CStr "12.000"] ] ] ].

(** ** Text recognition of scanned pages *)

(** What [convert_from_path] and [pytesseract.image_to_string] deliver: for
    each page image its text, or the message of the exception raised for
    it; or the message of the failed conversion. *)
Inductive ocr_images :=
  | Images (page_texts : list (string + string))
  | ConversionFailed (msg : string).

Definition tab : ascii := "009"%char.
Definition newline : ascii := "010"%char.

Definition starts_with_space (s : string) : bool :=
  match s with
  | EmptyString => false
  | String a _ => Text.is_space a
  end.

(** [re.split(r'\s{2,}|\t', line)]: scanning from the left, a separator is
    a run of two or more whitespace characters, taken whole, or else a
    single tab.  [in_run] holds right after a separator character; the head
    of the result is the piece being read. *)
Fixpoint re_split_gaps (in_run : bool) (line : string) : list string :=
  match line with
  | EmptyString => [EmptyString]
  | String a rest =>
      if in_run && Text.is_space a then re_split_gaps true rest
      else if (Text.is_space a && starts_with_space rest) || Ascii.eqb a tab
      then EmptyString :: re_split_gaps true rest
      else match re_split_gaps false rest with
           | [] => [String a EmptyString]
           | piece :: pieces => String a piece :: pieces
           end
  end.

(** [[c.strip() for c in cells if c.strip()]] over the pieces of a line. *)
Definition ocr_cells (line : string) : list string :=
  map Text.strip (List.filter non_blank (re_split_gaps false line)).

(** The loop over the lines of one page. *)
Fixpoint ocr_rows (lines : list string) : list row :=
  match lines with
  | [] => []
  | line :: lines' =>
      if non_blank line then
        let cells := ocr_cells line in
        if is_nil cells then ocr_rows lines'
        else map CStr cells :: ocr_rows lines'
      else ocr_rows lines'
  end.

(** [text.strip().split('\n')] and the rows read from it. *)
Definition ocr_page_rows (text : string) : list row :=
  ocr_rows (PathLib.split_on newline (Text.strip text)).

(** [for page_num, image in enumerate(images, 1)], counting from
    [page_num]: the pseudo-tables and the warnings of the pages whose
    recognition raised. *)
Fixpoint ocr_pages (page_num : nat) (page_texts : list (string + string))
  : list table_info * list string :=
  match page_texts with
  | [] => ([], [])
  | inl text :: rest =>
      let rows := ocr_page_rows text in
      let '(tables, warnings) := ocr_pages (S page_num) rest in
      (if is_nil rows then tables else mkTable page_num rows :: tables, warnings)
  | inr msg :: rest =>
      let '(tables, warnings) := ocr_pages (S page_num) rest in
      (tables,
       ("OCR failed for page " ++ pretty page_num ++ ": " ++ msg) :: warnings)
  end.

Definition extract_tables_with_ocr (images : ocr_images) : ocr_read :=
  match images with
  | ConversionFailed msg => OcrFailed msg
  | Images page_texts =>
      let '(tables, warnings) := ocr_pages 1 page_texts in
      OcrTables tables warnings
  end.

(** No tab and no two whitespace characters in a row. *)
Fixpoint single_spaced (s : string) : bool :=
  match s with
  | EmptyString => true
  | String a rest =>
      negb (Ascii.eqb a tab) &&
      negb (Text.is_space a && starts_with_space rest) &&
      single_spaced rest
  end.

(** A recognised cell: a text that is not empty, has no whitespace at
    either end, and is single-spaced. *)
Definition recognised_cell (c : cell) : Prop :=
  exists s, c = CStr s /\ s <> EmptyString /\ Text.strip s = s /\
            single_spaced s = true.

Definition is_failed_page (p : string + string) : bool :=
  match p with
  | inl _ => false
  | inr _ => true
  end.

(** Two scanned pages: a header line and a unit line with a tab, wide gaps
    and a single space inside a cell; then a page whose recognition fails. *)
Definition scanned_pages : ocr_images :=
  Images [ inl (String newline
                 ("Lejnr   Areal    Leje" ++ String newline
                 ("A 1" ++ String tab ("50    10.000  " ++ String newline "   "))));
           inr "tesseract timed out" ].

(** ** Failures of the entry point *)

(** The reader [parse_excel] calls for the path: openpyxl for ".xlsx", xlrd
    otherwise. *)
Definition open_workbook (w : world) (file_path : string) : workbook_read :=
  if String.eqb (Text.lower (PathLib.suffix file_path)) ".xlsx"
  then read_xlsx w file_path else read_xls w file_path.

(** The message of the exception with which the reader chosen for the path
    fails to open it. *)
Definition reader_failure (w : world) (file_path : string) : option string :=
  match detect_file_type file_path with
  | Ok excel =>
      match open_workbook w file_path with
      | WorkbookFailed msg => Some msg
      | Workbook _ => None
      end
  | Ok pdf =>
      match read_pdf w file_path with
      | PdfFailed msg => Some msg
      | Pdf _ => None
      end
  | Err _ => None
  end.

(** ["password" in error_msg or "encrypted" in error_msg] *)
Definition mentions_protection (msg : string) : bool :=
  Text.contains "password" (Text.lower msg) ||
  Text.contains "encrypted" (Text.lower msg).

(** ** Binary floating point and the arguments of the normalizer *)

Module Double.

(** A Python [float]: a finite number, an infinity or NaN.  The sign of zero
    is not kept; no comparison in [parser.py] observes it. *)
Inductive double :=
  | Finite (q : Q)
  | Infinite (negative : bool)
  | NaN.

(** Nearest integer to [n / d] for [0 < d], halves to the even one. *)
Definition round_half_even (n d : Z) : Z :=
  let fl := (n / d)%Z in
  let r := (2 * (n mod d))%Z in
  if (d <? r)%Z then (fl + 1)%Z
  else if (r <? d)%Z then fl
  else if Z.odd fl then (fl + 1)%Z else fl.

(** [(n / d) / 2^e] as a fraction. *)
Definition scaled (n d e : Z) : Z * Z :=
  if (0 <=? e)%Z then (n, (d * 2 ^ e)%Z) else ((n * 2 ^ (- e))%Z, d).

(** For [0 < n / d]: the exponent of the last place of its 53-bit
    significand, not below that of the subnormal numbers. *)
Definition last_place (n d : Z) : Z :=
  let k := (Z.log2 n - Z.log2 d)%Z in
  let '(sn, sd) := scaled n d k in
  let floor_log2 := if (sd <=? sn)%Z then k else (k - 1)%Z in
  Z.max (floor_log2 - 52) (-1074).

(** The binary64 number nearest to [q], halves to the even significand; a
    magnitude that rounds to [2^1024] or more is an infinity. *)
Definition round (q : Q) : double :=
  let n := Z.abs (Qnum q) in
  let d := Z.pos (Qden q) in
  if (n =? 0)%Z then Finite 0
  else
    let e := last_place n d in
    let '(sn, sd) := scaled n d e in
    let m := round_half_even sn sd in
    let negative := (Qnum q <? 0)%Z in
    if (2 ^ 1024 <=? m * 2 ^ e)%Z then Infinite negative
    else Finite (Qred (inject_Z (if negative then - m else m) * Qpower 2 e)).

(** [x == y] on floats: NaN equals nothing, itself included. *)
Definition eqb (x y : double) : bool :=
  match x, y with
  | Finite p, Finite q => Qeq_bool p q
  | Infinite a, Infinite b => Bool.eqb a b
  | _, _ => false
  end.

End Double.

(** What Python can hand to [convert_danish_number]: [None], a [float], an
    [int] (a [bool] is one), a [str], or another object known by its
    [str()]. *)
Inductive pyobject :=
  | PNone
  | PFloat (x : Double.double)
  | PInt (z : Z)
  | PStr (s : string)
  | PObject (repr : string).

(** The call returns [None] or a float, or [float(value)] raises
    [OverflowError]. *)
Inductive outcome :=
  | Returns (r : option Double.double)
  | OverflowError.

(** [float(z)] for an [int]: the nearest float, [None] when that is out of
    range ("int too large to convert to float"). *)
Definition float_of_int (z : Z) : option Double.double :=
  match Double.round (inject_Z z) with
  | Double.Infinite _ => None
  | x => Some x
  end.

(** [convert_danish_number] on every argument, with the floats of the
    machine: [float(text)] is the float nearest to the number the text
    denotes. *)
Definition convert_danish_number_any (value : pyobject) : outcome :=
  match value with
  | PNone => Returns None
  | PFloat x => Returns (Some x)
  | PInt z =>
      match float_of_int z with
      | Some x => Returns (Some x)
      | None => OverflowError
      end
  | PStr s => Returns (option_map Double.round (convert_danish_text s))
  | PObject repr => Returns (option_map Double.round (convert_danish_text repr))
  end.

(** The result of a call handed back to the function. *)
Definition object_of_result (r : option Double.double) : pyobject :=
  match r with
  | None => PNone
  | Some x => PFloat x
  end.

(** [a == b] on results: [None] equals [None] only. *)
Definition result_eqb (a b : option Double.double) : bool :=
  match a, b with
  | None, None => true
  | Some x, Some y => Double.eqb x y
  | _, _ => false
  end.

(** "normalize(normalize(x)) == normalize(x)": both calls return and the
    results compare equal. *)
Definition idempotent_at (value : pyobject) : Prop :=
  exists r r',
    convert_danish_number_any value = Returns r /\
    convert_danish_number_any (object_of_result r) = Returns r' /\
    result_eqb r' r = true.

(** A sentinel row as the specification words it: entirely empty, or a
    terminal keyword in one of the first three cells. *)
Definition sentinel (s : row) : Prop :=
  (forall c, In c s -> blank_cell c = true) \/
  (exists c, In c (take 3 s) /\ terminal_cell c = true).

(** Cells as the table extractor and the text recognition deliver them:
    every cell of every table is falsy or holds text that is not blank. *)
Definition clean_tables (tables : list table_info) : Prop :=
  Forall (fun t => Forall (Forall clean_cell) (table_rows t)) tables.

(** Two pages: on the first the header comes back in capitals among the
    units, the table of the second starts with the header again. *)
Definition repeated_headers_pdf : list (list (list row)) :=
  [ [ [ [CStr "Lejnr"; CStr "Areal"; CStr "Leje"];
        [CStr "A1"; CStr "50"; CStr "10.000"];
        [CStr "LEJNR"; CStr ""; CStr " areal"; CStr "Leje "];
        [CStr "A2"; CStr "60"; CStr "12.000"] ] ];
    [ [ [CStr "Lejnr"; CStr "Areal"; CStr "Leje"];
        [CStr "B1"; CStr "70"; CStr "14.000"] ] ] ].

(** The no-break space, U+00A0. *)
Definition nbsp : string := String "160" EmptyString.

(** * Properties *)

(** ** Numeric normalizer *)

Section Separators.
Import Text.

Lemma has_char_app c a b : has_char c (a ++ b) = has_char c a || has_char c b.
Proof.
  induction a as [|x a IH]; simpl; [reflexivity|].
  rewrite IH. destruct (Ascii.eqb x c); reflexivity.
Qed.

Lemma count_char_app c a b : count_char c (a ++ b) = count_char c a + count_char c b.
Proof.
  induction a as [|x a IH]; simpl; [reflexivity|]. rewrite IH. lia.
Qed.

Lemma remove_char_app c a b : remove_char c (a ++ b) = remove_char c a ++ remove_char c b.
Proof.
  induction a as [|x a IH]; simpl; [reflexivity|].
  rewrite IH. destruct (Ascii.eqb x c); reflexivity.
Qed.

Lemma count_char_absent c a : has_char c a = false -> count_char c a = 0.
Proof.
  induction a as [|x a IH]; simpl; [reflexivity|].
  destruct (Ascii.eqb x c); simpl; [discriminate|auto].
Qed.

Lemma remove_char_absent c a : has_char c a = false -> remove_char c a = a.
Proof.
  induction a as [|x a IH]; simpl; [reflexivity|].
  destruct (Ascii.eqb x c); simpl; [discriminate|].
  intros H. rewrite IH; auto.
Qed.

Lemma split_first_app c a b :
  has_char c a = false -> split_first c (a ++ String c b) = (a, b).
Proof.
  induction a as [|x a IH]; simpl.
  - rewrite Ascii.eqb_refl. reflexivity.
  - destruct (Ascii.eqb x c); simpl; [discriminate|].
    intros H. rewrite IH; auto.
Qed.

Lemma one_period_facts before after :
  has_char "." before = false -> has_char "." after = false ->
  has_char "," before = false -> has_char "," after = false ->
  has_char "," (one_period before after) = false /\
  count_char "." (one_period before after) = 1 /\
  split_first "." (one_period before after) = (before, after) /\
  remove_char "." (one_period before after) = before ++ after.
Proof.
  intros Hb Ha Hcb Hca. unfold one_period. repeat split.
  - rewrite has_char_app. simpl. rewrite Hcb, Hca. reflexivity.
  - rewrite count_char_app. simpl.
    rewrite (count_char_absent _ _ Hb), (count_char_absent _ _ Ha). reflexivity.
  - apply split_first_app, Hb.
  - rewrite remove_char_app. simpl.
    rewrite (remove_char_absent _ _ Hb), (remove_char_absent _ _ Ha). reflexivity.
Qed.

End Separators.

(** Where [danish_separators] sits in the normalizer. *)
Lemma convert_danish_text_unfold (v : string) :
  convert_danish_number (VStr v) =
  if Text.is_empty (Text.strip v) then None
  else
    let cleaned := strip_currency (Text.strip v) in
    if Text.has_digit cleaned then Float.float_of_text (danish_separators cleaned)
    else None.
Proof.
  unfold convert_danish_number, convert_danish_text.
  destruct (Text.is_empty (Text.strip v)); [reflexivity|].
  cbv zeta. destruct (Text.has_digit _); reflexivity.
Qed.

Lemma separators_comma (v : string) :
  Text.has_char "," v = true ->
  danish_separators v = Text.replace_char "," "." (Text.remove_char "." v).
Proof. intros H. unfold danish_separators. rewrite H. reflexivity. Qed.

Lemma separators_thousands (before after : string) :
  Text.has_char "." before = false -> Text.has_char "." after = false ->
  Text.has_char "," before = false -> Text.has_char "," after = false ->
  String.length after = 3 -> String.length before <= 3 ->
  danish_separators (one_period before after) = before ++ after.
Proof.
  intros Hb Ha Hcb Hca Hlen3 Hle.
  destruct (one_period_facts before after Hb Ha Hcb Hca) as (Hc & Hn & Hs & Hr).
  unfold danish_separators. rewrite Hc, Hn, Hs, Hr. simpl.
  rewrite Hlen3. simpl.
  destruct (Nat.leb_spec (String.length before) 3); [reflexivity|lia].
Qed.

Lemma separators_decimal (before after : string) :
  Text.has_char "." before = false -> Text.has_char "." after = false ->
  Text.has_char "," before = false -> Text.has_char "," after = false ->
  ~ (String.length after = 3 /\ String.length before <= 3) ->
  danish_separators (one_period before after) = one_period before after.
Proof.
  intros Hb Ha Hcb Hca Hno.
  destruct (one_period_facts before after Hb Ha Hcb Hca) as (Hc & Hn & Hs & Hr).
  unfold danish_separators. rewrite Hc, Hn, Hs. simpl.
  destruct (Nat.eqb_spec (String.length after) 3) as [E|E]; simpl; [|reflexivity].
  destruct (Nat.leb_spec (String.length before) 3); [|reflexivity].
  exfalso. apply Hno. split; assumption.
Qed.

(** The five documented conversions. *)
Lemma convert_danish_number_examples :
  convert_danish_number (VStr "72.000") = Some 72000%Q /\
  convert_danish_number (VStr "1.234,56") = Some (Qred 1234.56%Q) /\
  convert_danish_number (VStr "kr 72.000") = Some 72000%Q /\
  convert_danish_number (VStr "") = None /\
  convert_danish_number (VStr "1.5") = Some (Qred 1.5%Q).
Proof. vm_compute. repeat split; reflexivity. Qed.

(** C3 at the failing input "1.2e3".  The text has a single period that is
    not followed by three digits, so by the rule of the claim (and by the
    comment in the code, "If 3 digits after period, likely thousand
    separator") the period stays and the value is 1200.  The code tests the
    lengths of the two parts only, removes the period and returns 12000. *)
Theorem period_rule_counts_characters :
  spec_normalize "1.2e3" = Some 1200%Q /\
  convert_danish_number (VStr "1.2e3") = Some 12000%Q /\
  convert_danish_number_any (PStr "1.2e3") = Returns (Some (Double.Finite 12000%Q)) /\
  convert_danish_number (VStr "1.2e3") <> spec_normalize "1.2e3".
Proof.
  split; [|split; [|split]]; [vm_compute; reflexivity..|].
  vm_compute. discriminate.
Qed.

Open Scope list_scope.

(** ** Aggregator *)

Section Counting.
Variables sqm_idx rent_idx unit_type_idx unit_status_idx : option nat.

(** The rent, category and ratio blocks leave the sqm counters alone, and
    the sqm block files the row under exactly one of them. *)
Lemma step_sqm_outcome (st : stats) (r : parsed_row) :
  units_with_sqm (stats_step sqm_idx rent_idx unit_type_idx unit_status_idx st r) + length (rows_missing_sqm (stats_step sqm_idx rent_idx unit_type_idx unit_status_idx st r)) =
  S (units_with_sqm st + length (rows_missing_sqm st)).
Proof.
  unfold stats_step, ratio_step, category_step, rent_step, sqm_step.
  destruct (sqm_value_of sqm_idx r) as [s|];
    destruct (rent_value_of rent_idx r) as [v|];
    repeat match goal with
           | |- context [if ?b then _ else _] => destruct b
           end;
    simpl; rewrite ?length_app; simpl; lia.
Qed.

Lemma step_rent_outcome (st : stats) (r : parsed_row) :
  units_with_rent (stats_step sqm_idx rent_idx unit_type_idx unit_status_idx st r) + length (rows_missing_rent (stats_step sqm_idx rent_idx unit_type_idx unit_status_idx st r)) =
  S (units_with_rent st + length (rows_missing_rent st)).
Proof.
  unfold stats_step, ratio_step, category_step, rent_step, sqm_step.
  destruct (sqm_value_of sqm_idx r) as [s|];
    destruct (rent_value_of rent_idx r) as [v|];
    repeat match goal with
           | |- context [if ?b then _ else _] => destruct b
           end;
    simpl; rewrite ?length_app; simpl; lia.
Qed.

Lemma fold_outcomes (rs : list parsed_row) (st : stats) :
  let st' := fold_left (stats_step sqm_idx rent_idx unit_type_idx unit_status_idx) rs st in
  units_with_sqm st' + length (rows_missing_sqm st') =
    units_with_sqm st + length (rows_missing_sqm st) + length rs /\
  units_with_rent st' + length (rows_missing_rent st') =
    units_with_rent st + length (rows_missing_rent st) + length rs.
Proof.
  revert st. induction rs as [|r rs IH]; intros st; simpl.
  - lia.
  - destruct (IH (stats_step sqm_idx rent_idx unit_type_idx unit_status_idx st r)) as [Hs Hr].
    pose proof (step_sqm_outcome st r). pose proof (step_rent_outcome st r).
    simpl in *. lia.
Qed.

End Counting.

(** C10: every row lands in exactly one outcome per measure, so the counted
    units and the rows reported missing add up to the number of rows. *)
Theorem every_row_classified_once (rs : list parsed_row) (cols : list string)
    (mapping : gmap string string) :
  let '(s, d) := calculate_summary_stats rs cols mapping in
  sum_units_with_sqm s + length (dq_rows_missing_sqm d) = length rs /\
  sum_units_with_rent s + length (dq_rows_missing_rent d) = length rs.
Proof.
  unfold calculate_summary_stats, accumulate. cbv zeta. simpl.
  apply (fold_outcomes _ _ _ _ rs initial_stats).
Qed.

Section Average.
Variables sqm_idx rent_idx unit_type_idx unit_status_idx : option nat.

(** Only the last block of the loop body touches the ratio counters, and
    only for a qualifying row. *)
Lemma step_ratio (st : stats) (r : parsed_row) :
  let st' := stats_step sqm_idx rent_idx unit_type_idx unit_status_idx st r in
  rent_per_sqm_sum st' =
    (if qualifies sqm_idx rent_idx r
     then Float.add (rent_per_sqm_sum st) (ratio_of sqm_idx rent_idx r)
     else rent_per_sqm_sum st) /\
  rent_per_sqm_count st' =
    (if qualifies sqm_idx rent_idx r
     then S (rent_per_sqm_count st) else rent_per_sqm_count st).
Proof.
  unfold stats_step, ratio_step, category_step, rent_step, sqm_step,
    qualifies, ratio_of, positive.
  destruct (sqm_value_of sqm_idx r) as [s|];
    destruct (rent_value_of rent_idx r) as [v|]; cbv zeta;
    repeat match goal with
           | |- context [Float.is_positive ?q] => destruct (Float.is_positive q)
           | |- context [Float.is_zero ?q] => destruct (Float.is_zero q)
           end;
    simpl; split; reflexivity.
Qed.

Lemma fold_ratio (rs : list parsed_row) (st : stats) :
  let st' := fold_left (stats_step sqm_idx rent_idx unit_type_idx unit_status_idx) rs st in
  let qs := List.filter (qualifies sqm_idx rent_idx) rs in
  rent_per_sqm_sum st' =
    fold_left Float.add (map (ratio_of sqm_idx rent_idx) qs) (rent_per_sqm_sum st) /\
  rent_per_sqm_count st' = rent_per_sqm_count st + length qs.
Proof.
  revert st. induction rs as [|r rs IH]; intros st; simpl.
  - split; [reflexivity|lia].
  - destruct (IH (stats_step sqm_idx rent_idx unit_type_idx unit_status_idx st r))
      as [Hs Hc].
    destruct (step_ratio st r) as [Es Ec].
    cbv zeta in *. rewrite Hs, Hc, Es, Ec.
    destruct (qualifies sqm_idx rent_idx r); simpl; split; try reflexivity; lia.
Qed.

(** The average the code computes is the mean of the qualifying rows' own
    ratios. *)
Lemma average_is_mean_of_ratios (rs : list parsed_row) :
  average (accumulate sqm_idx rent_idx unit_type_idx unit_status_idx rs) =
  mean_of_ratios sqm_idx rent_idx rs.
Proof.
  unfold average, accumulate, mean_of_ratios.
  destruct (fold_ratio rs initial_stats) as [Hs Hc]. cbv zeta in *.
  rewrite Hs, Hc. simpl.
  destruct (List.filter (qualifies sqm_idx rent_idx) rs) as [|q qs]; simpl.
  - reflexivity.
  - rewrite length_map. reflexivity.
Qed.

End Average.

(** C1: the documented scenario, for any row numbers [n1], [n2], [n3] of the
    rows A1, A2, A3.  The average is 200, the ratio of the single qualifying
    row A1, and not 15000 / 50 = 300, the ratio of the totals; in general
    the reported average is the rounded mean of the qualifying rows' own
    ratios.  Read from a sheet whose first row is the header, the three rows
    carry the row numbers 2, 3 and 4. *)
Theorem scenario_summary :
  (forall (n1 n2 n3 : nat) (src : string) (rt : option category),
     let header := [CStr "Lejemål"; CStr "Areal"; CStr "Leje"] in
     let rs := [ mkRow ["A1"; "50"; "10.000"] src n1 rt;
                 mkRow ["A2"; "0"; "0"] src n2 rt;
                 mkRow ["A3"; ""; "5.000"] src n3 rt ] in
     let '(s, d) := calculate_summary_stats rs (map cell_text header)
                      (map_columns header) in
     sum_total_sqm s = 50%Q /\
     sum_total_annual_rent s = 15000%Q /\
     dq_rows_missing_sqm d = [n2; n3] /\
     dq_rows_missing_rent d = [n2] /\
     sum_avg_rent_per_sqm s = 200%Q /\
     Float.div (sum_total_annual_rent s) (sum_total_sqm s) = 300%Q) /\
  match parse_excel_sheets "lejeliste.xlsx" [mkSheet "Ark1" (SheetRows scenario_sheet)] with
  | Ok res =>
      map row_num (rows res) = [2; 3; 4] /\
      sum_total_sqm (res_summary res) = 50%Q /\
      sum_total_annual_rent (res_summary res) = 15000%Q /\
      sum_avg_rent_per_sqm (res_summary res) = 200%Q /\
      dq_rows_missing_sqm (res_data_quality res) = [3; 4] /\
      dq_rows_missing_rent (res_data_quality res) = [3]
  | Err _ => False
  end /\
  (forall (rs : list parsed_row) (cols : list string) (mapping : gmap string string),
     let idx := standard_to_idx cols mapping in
     sum_avg_rent_per_sqm (fst (calculate_summary_stats rs cols mapping)) =
     Float.round2 (mean_of_ratios (idx !! "sqm") (idx !! "annual_rent") rs)).
Proof.
  split; [|split].
  - intros n1 n2 n3 src rt. vm_compute. repeat split; reflexivity.
  - vm_compute. repeat split; reflexivity.
  - intros rs cols mapping. unfold calculate_summary_stats. cbv zeta. simpl.
    rewrite average_is_mean_of_ratios. reflexivity.
Qed.

(** ** Column mapper *)

Lemma exact_lookup_find (table : list (string * string)) (key : string) :
  exact_lookup table key =
  match List.find (fun kv => String.eqb (fst kv) key) table with
  | Some kv => Some (snd kv)
  | None => None
  end.
Proof.
  induction table as [|[k v] table IH]; simpl; [reflexivity|].
  destruct (String.eqb k key); [reflexivity|exact IH].
Qed.

Lemma partial_lookup_find (table : list (string * string)) (h : string) :
  partial_lookup table h =
  match List.find (fun kv => Text.contains (fst kv) h || Text.contains h (fst kv))
                  table with
  | Some kv => Some (snd kv)
  | None => None
  end.
Proof.
  induction table as [|[k v] table IH]; simpl; [reflexivity|].
  destruct (Text.contains k h || Text.contains h k); [reflexivity|exact IH].
Qed.

Lemma map_header_spec (h : string) : map_header h = spec_map_header h.
Proof.
  unfold map_header, spec_map_header.
  rewrite exact_lookup_find, partial_lookup_find.
  destruct (List.find _ COLUMN_MAPPING); reflexivity.
Qed.

Lemma step_tags_own_keys (m : gmap string string) (c : cell) :
  tags_own_keys m -> tags_own_keys (map_columns_step m c).
Proof.
  intros Hm k v. unfold map_columns_step.
  destruct (is_none c); [apply Hm|].
  destruct (map_header (Text.lower (Text.strip (cell_text c)))) as [t|] eqn:E;
    [|apply Hm].
  destruct (decide (Text.strip (cell_text c) = k)) as [Heq|Hne].
  - subst k. rewrite lookup_insert_eq. intros [= <-]. exact E.
  - rewrite lookup_insert_ne by exact Hne. apply Hm.
Qed.

Lemma step_keeps_entry (m : gmap string string) (c : cell) (k v : string) :
  map_header (Text.lower k) = Some v -> m !! k = Some v ->
  map_columns_step m c !! k = Some v.
Proof.
  intros Hk Hm. unfold map_columns_step.
  destruct (is_none c); [exact Hm|].
  destruct (map_header (Text.lower (Text.strip (cell_text c)))) as [t|] eqn:E;
    [|exact Hm].
  destruct (decide (Text.strip (cell_text c) = k)) as [Heq|Hne].
  - subst k. rewrite lookup_insert_eq. congruence.
  - rewrite lookup_insert_ne by exact Hne. exact Hm.
Qed.

Lemma fold_tags_own_keys (headers : list cell) (m : gmap string string) :
  tags_own_keys m -> tags_own_keys (fold_left map_columns_step headers m).
Proof.
  revert m. induction headers as [|c headers IH]; intros m Hm; simpl; [exact Hm|].
  apply IH, step_tags_own_keys, Hm.
Qed.

Lemma fold_keeps_entry (headers : list cell) (m : gmap string string) (k v : string) :
  map_header (Text.lower k) = Some v -> m !! k = Some v ->
  fold_left map_columns_step headers m !! k = Some v.
Proof.
  revert m. induction headers as [|c headers IH]; intros m Hk Hm; simpl; [exact Hm|].
  apply IH; [exact Hk|]. apply step_keeps_entry; assumption.
Qed.

Lemma fold_maps_header (headers : list cell) (m : gmap string string) (c : cell) (v : string) :
  In c headers -> is_none c = false ->
  map_header (Text.lower (header_key c)) = Some v ->
  fold_left map_columns_step headers m !! header_key c = Some v.
Proof.
  revert m. induction headers as [|c' headers IH]; intros m Hin Hc Hv; simpl.
  - destruct Hin.
  - destruct Hin as [->|Hin].
    + apply fold_keeps_entry; [exact Hv|].
      unfold map_columns_step. rewrite Hc.
      unfold header_key in Hv. rewrite Hv. apply lookup_insert_eq.
    + apply IH; assumption.
Qed.

Lemma map_columns_lookup (headers : list cell) (c : cell) :
  In c headers -> is_none c = false ->
  map_columns headers !! header_key c = map_header (Text.lower (header_key c)).
Proof.
  intros Hin Hc. unfold map_columns.
  destruct (map_header (Text.lower (header_key c))) as [v|] eqn:E.
  - apply fold_maps_header; assumption.
  - destruct (fold_left map_columns_step headers ∅ !! header_key c) as [v'|] eqn:L;
      [|reflexivity].
    assert (H : tags_own_keys (fold_left map_columns_step headers ∅)).
    { apply fold_tags_own_keys. intros k v0. rewrite lookup_empty. discriminate. }
    apply H in L. congruence.
Qed.

(** C4: the five documented headers get the tags unit_id, sqm, annual_rent,
    floor and notes ("Lejnr." and "Bem." miss the exact lookup and are found
    by the substring scan); for every header the tag is the exact lower-cased
    lookup when it hits and otherwise the first entry, in declaration order,
    whose synonym is contained in the header or contains it. *)
Theorem map_columns_assigns_tags :
  (let m := map_columns [CStr "Lejnr."; CStr "Areal"; CStr "Leje"; CStr "Etage";
                         CStr "Bem."] in
   m !! "Lejnr." = Some "unit_id" /\
   m !! "Areal" = Some "sqm" /\
   m !! "Leje" = Some "annual_rent" /\
   m !! "Etage" = Some "floor" /\
   m !! "Bem." = Some "notes" /\
   exact_lookup COLUMN_MAPPING "lejnr." = None /\
   exact_lookup COLUMN_MAPPING "bem." = None) /\
  (forall h, map_header h = spec_map_header h) /\
  (forall headers c, In c headers -> is_none c = false ->
     map_columns headers !! header_key c =
     spec_map_header (Text.lower (header_key c))).
Proof.
  split; [|split].
  - vm_compute. repeat split; reflexivity.
  - exact map_header_spec.
  - intros headers c Hin Hc. rewrite <- map_header_spec.
    apply map_columns_lookup; assumption.
Qed.

(** ** Header locator *)

Lemma row_score_nil : row_score [] = 0.
Proof. reflexivity. Qed.

Lemma header_step_inv (b : best) (seen : list row) (r : row) :
  scan_inv b seen -> scan_inv (header_step b (length seen) r) (seen ++ [r]).
Proof.
  intros [Hmax Hbest].
  assert (Hold : forall j r', j < length seen ->
                   (seen ++ [r]) !! j = Some r' -> seen !! j = Some r').
  { intros j r' Hj. rewrite lookup_app_l by exact Hj. auto. }
  assert (Hcase : forall j r', (seen ++ [r]) !! j = Some r' ->
                    seen !! j = Some r' \/ (j = length seen /\ r' = r)).
  { intros j r' Hl. destruct (decide (j < length seen)) as [Hj|Hj].
    - left. apply Hold; assumption.
    - right. rewrite lookup_app_r in Hl by lia.
      destruct (j - length seen) as [|n] eqn:En; simpl in Hl.
      + split; [lia|congruence].
      + rewrite lookup_nil in Hl. discriminate. }
  assert (Hkeep : row_score r <= best_score b -> scan_inv b (seen ++ [r])).
  { intros Hle. split.
    - intros j r' Hl. destruct (Hcase j r' Hl) as [Hs|[_ ->]]; [eauto|exact Hle].
    - destruct (best_row b) as [[i r0]|]; [|exact Hbest].
      destruct Hbest as (Hi & Hsc & Hpos & Hbefore).
      assert (i < length seen) by (eapply lookup_lt_Some; eauto).
      repeat split; try assumption.
      + rewrite lookup_app_l by assumption. exact Hi.
      + intros j r' Hj Hl. apply (Hbefore j r' Hj). apply Hold; [lia|exact Hl]. }
  unfold header_step. destruct r as [|c r]; simpl is_nil; cbv iota.
  - apply Hkeep. rewrite row_score_nil. lia.
  - destruct (Nat.ltb_spec (best_score b) (row_score (c :: r))) as [Hlt|Hge].
    + split; simpl.
      * intros j r' Hl. destruct (Hcase j r' Hl) as [Hs|[_ ->]]; [|lia].
        apply Hmax in Hs. lia.
      * repeat split.
        -- rewrite lookup_app_r by lia. rewrite Nat.sub_diag. reflexivity.
        -- lia.
        -- intros j r' Hj Hl. apply Hold in Hl; [|exact Hj]. apply Hmax in Hl. lia.
    + apply Hkeep. exact Hge.
Qed.

Lemma header_scan_inv (rest seen : list row) (b : best) :
  scan_inv b seen -> scan_inv (header_scan b (length seen) rest) (seen ++ rest).
Proof.
  revert seen b. induction rest as [|r rest IH]; intros seen b Hinv; simpl.
  - rewrite app_nil_r. exact Hinv.
  - replace (seen ++ r :: rest) with ((seen ++ [r]) ++ rest)
      by (rewrite <- app_assoc; reflexivity).
    replace (S (length seen)) with (length (seen ++ [r]))
      by (rewrite length_app; simpl; lia).
    apply IH, header_step_inv, Hinv.
Qed.

Lemma scan_inv_initial : scan_inv (mkBest 0 None) [].
Proof.
  split; simpl; [|reflexivity].
  intros j r Hl. rewrite lookup_nil in Hl. discriminate.
Qed.

(** C2, as the code has it: the locator returns the earliest row with the
    highest score among the first 15, provided that score is at least 2, and
    fails with NoHeaderFound exactly when no row among the first 15 scores at
    least 2. *)
Theorem find_header_row_picks_best (rows : list row) :
  let window := take max_rows rows in
  match find_header_row rows with
  | Ok (i, r) =>
      window !! i = Some r /\ 2 <= row_score r /\
      (forall j r', window !! j = Some r' -> row_score r' <= row_score r) /\
      (forall j r', j < i -> window !! j = Some r' -> row_score r' < row_score r)
  | Err e =>
      pe_type e = no_header_found /\
      forall j r', window !! j = Some r' -> row_score r' < 2
  end /\
  ((forall j r', window !! j = Some r' -> row_score r' < 2) ->
   failed_with (find_header_row rows) no_header_found).
Proof.
  cbv zeta.
  assert (Hmain :
    match find_header_row rows with
    | Ok (i, r) =>
        take max_rows rows !! i = Some r /\ 2 <= row_score r /\
        (forall j r', take max_rows rows !! j = Some r' -> row_score r' <= row_score r) /\
        (forall j r', j < i -> take max_rows rows !! j = Some r' ->
           row_score r' < row_score r)
    | Err e =>
        pe_type e = no_header_found /\
        forall j r', take max_rows rows !! j = Some r' -> row_score r' < 2
    end).
  { unfold find_header_row.
    pose proof (header_scan_inv (take max_rows rows) [] _ scan_inv_initial)
      as [Hmax Hbest].
    simpl in Hmax, Hbest.
    destruct (Nat.ltb_spec
                (best_score (header_scan (mkBest 0 None) 0 (take max_rows rows))) 2)
      as [Hlt|Hge].
    - simpl. split; [reflexivity|]. intros j r' Hl. apply Hmax in Hl. lia.
    - destruct (best_row _) as [[i r]|].
      + destruct Hbest as (Hi & Hsc & Hpos & Hbefore).
        repeat split; try assumption; [lia|].
        intros j r' Hl. apply Hmax in Hl. lia.
      + lia. }
  split; [exact Hmain|].
  intros Hlow. destruct (find_header_row rows) as [[i r]|e]; simpl.
  - destruct Hmain as (Hi & H2 & _). apply Hlow in Hi. lia.
  - apply Hmain.
Qed.

(** C2, as the claim words it (the first row reaching 2): in this table the
    first row scores 2 and the second scores 4; the code returns the second. *)
Lemma first_reaching_row_not_chosen :
  let table := [ [CStr "Areal"; CStr "Leje"];
                 [CStr "Lejnr"; CStr "Areal"; CStr "Leje"];
                 [CStr "A1"; CStr "50"; CStr "1000"] ] in
  spec_find_header_row table = Ok (0, [CStr "Areal"; CStr "Leje"]) /\
  find_header_row table = Ok (1, [CStr "Lejnr"; CStr "Areal"; CStr "Leje"]) /\
  find_header_row table <> spec_find_header_row table.
Proof.
  split; [|split]; [vm_compute; reflexivity..|].
  vm_compute. discriminate.
Qed.

(** ** Table segmenter *)

(** A row is a sentinel when it is entirely empty or one of its first three
    cells holds a terminal keyword. *)
Lemma is_end_row_spec (r : row) :
  is_end_row r = true <->
  (forall c, In c r -> blank_cell c = true) \/
  (exists c, In c (take 3 r) /\ terminal_cell c = true).
Proof.
  unfold is_end_row. destruct r as [|c0 r]; simpl is_nil; cbv iota.
  - split; [|reflexivity]. intros _. left. intros c [].
  - fold (forallb blank_cell (c0 :: r)).
    change (fun c : cell => is_none c || negb (non_blank (cell_text c))) with blank_cell.
    change (fun c : cell => negb (is_none c) &&
              Text.contains_any END_ROW_KEYWORDS (Text.strip (Text.lower (cell_text c))))
      with terminal_cell.
    destruct (forallb blank_cell (c0 :: r)) eqn:E.
    + split; [|reflexivity]. intros _. left.
      apply forallb_forall. exact E.
    + rewrite existsb_exists. split.
      * intros H. right. exact H.
      * intros [H|H]; [|exact H].
        apply forallb_forall in H. congruence.
Qed.

Lemma excel_stops_at_sentinel (name : string) (rt : option category)
    (header_idx : nat) (pre : list row) (s : row) (post : list row) (row_offset : nat) :
  is_end_row s = true ->
  excel_data_rows name rt header_idx row_offset (pre ++ s :: post) =
  excel_data_rows name rt header_idx row_offset pre.
Proof.
  intros Hs. revert row_offset.
  induction pre as [|r pre IH]; intros row_offset; simpl.
  - rewrite Hs. reflexivity.
  - destruct (is_end_row r); [reflexivity|].
    destruct (count_if non_blank (map cell_text r) <? 2)%nat; rewrite IH; reflexivity.
Qed.

Lemma pdf_skips_sentinel (seen : gset (list string)) (page_num : nat)
    (pre : list row) (s : row) (post : list row) (row_offset : nat) :
  is_end_row s = true ->
  pdf_data_rows seen page_num row_offset (pre ++ s :: post) =
  pdf_data_rows seen page_num row_offset pre ++
  pdf_data_rows seen page_num (row_offset + length pre + 1) post.
Proof.
  intros Hs. revert row_offset.
  induction pre as [|r pre IH]; intros row_offset; simpl.
  - rewrite Hs. f_equal. lia.
  - rewrite IH. replace (S row_offset + length pre + 1)
      with (row_offset + S (length pre) + 1) by lia.
    destruct (is_end_row r); [reflexivity|].
    destruct (count_if non_blank (map cell_text r) <? 2)%nat; [reflexivity|].
    destruct (bool_decide _); reflexivity.
Qed.

(** C6.  A sentinel row is one that is entirely empty or has a terminal
    keyword in one of its first three cells; these are exactly the rows the
    end-row test accepts.  In a sheet nothing from the first sentinel on is
    extracted; in the merged PDF tables the sentinel alone is left out and
    the rows behind it are still examined. *)
Theorem sentinel_breaks_sheet_skips_pdf (name : string) (rt : option category)
    (header_idx row_offset page_num : nat) (seen : gset (list string))
    (pre : list row) (s : row) (post : list row) :
  (is_end_row s = true <-> sentinel s) /\
  (sentinel s ->
   excel_data_rows name rt header_idx row_offset (pre ++ s :: post) =
     excel_data_rows name rt header_idx row_offset pre /\
   pdf_data_rows seen page_num row_offset (pre ++ s :: post) =
     pdf_data_rows seen page_num row_offset pre ++
     pdf_data_rows seen page_num (row_offset + length pre + 1) post).
Proof.
  split; [apply is_end_row_spec|].
  intros Hs. apply is_end_row_spec in Hs. split.
  - apply excel_stops_at_sentinel, Hs.
  - apply pdf_skips_sentinel, Hs.
Qed.

(** A total line between two units: the sheet loop stops at it, the PDF loop
    steps over it; a row of empty and blank cells, the no-break space among
    them, is a sentinel too. *)
Lemma sentinel_breaks_sheet_skips_pdf_witness :
  let a1 := [CStr "A1"; CStr "50"; CStr "1000"] in
  let total := [CStr "Total"; CStr ""; CStr ""] in
  let a2 := [CStr "A2"; CStr "60"; CStr "2000"] in
  let blank := [CNone; CStr ""; CStr (" " ++ nbsp)] in
  sentinel total /\ is_end_row blank = true /\
  excel_data_rows "Ark1" None 0 0 [a1; total; a2] =
    [mkRow ["A1"; "50"; "1000"] "Ark1" 2 None] /\
  pdf_data_rows ∅ 1 0 [a1; total; a2] =
    [mkRow ["A1"; "50"; "1000"] "page_1" 1 None;
     mkRow ["A2"; "60"; "2000"] "page_1" 3 None] /\
  pdf_data_rows ∅ 1 0 [a1; blank; a2] =
    [mkRow ["A1"; "50"; "1000"] "page_1" 1 None;
     mkRow ["A2"; "60"; "2000"] "page_1" 3 None].
Proof.
  cbv zeta.
  assert (Htotal : sentinel [CStr "Total"; CStr ""; CStr ""]).
  { right. exists (CStr "Total"). split; [left; reflexivity|reflexivity]. }
  assert (Hblank : sentinel [CNone; CStr ""; CStr (" " ++ nbsp)]).
  { left. intros c [<-|[<-|[<-|[]]]]; reflexivity. }
  split; [exact Htotal|].
  split.
  { apply (proj1 (sentinel_breaks_sheet_skips_pdf "Ark1" None 0 0 1 ∅ [] _ [])), Hblank. }
  destruct (proj2 (sentinel_breaks_sheet_skips_pdf "Ark1" None 0 0 1 ∅
              [[CStr "A1"; CStr "50"; CStr "1000"]]
              [CStr "Total"; CStr ""; CStr ""]
              [[CStr "A2"; CStr "60"; CStr "2000"]]) Htotal) as (Hx & Hp).
  destruct (proj2 (sentinel_breaks_sheet_skips_pdf "Ark1" None 0 0 1 ∅
              [[CStr "A1"; CStr "50"; CStr "1000"]]
              [CNone; CStr ""; CStr (" " ++ nbsp)]
              [[CStr "A2"; CStr "60"; CStr "2000"]]) Hblank) as (_ & Hb).
  split; [|split].
  - etransitivity; [exact Hx|]. vm_compute. reflexivity.
  - etransitivity; [exact Hp|]. vm_compute. reflexivity.
  - etransitivity; [exact Hb|]. vm_compute. reflexivity.
Defined.

(** ** Entry point *)

Lemma detect_unsupported (file_path : string) :
  Text.lower (PathLib.suffix file_path) <> ".xlsx"%string ->
  Text.lower (PathLib.suffix file_path) <> ".xls"%string ->
  Text.lower (PathLib.suffix file_path) <> ".pdf"%string ->
  detect_file_type file_path = raise invalid_file_type.
Proof.
  intros H1 H2 H3. unfold detect_file_type.
  apply String.eqb_neq in H1, H2, H3. rewrite H1, H2, H3. reflexivity.
Qed.

(** C8, as the code has it: a path whose extension is none of .xlsx, .xls,
    .pdf is rejected after the existence test alone, with InvalidFileType
    when the path exists and with FileNotFound when it does not; no reader is
    called in either case. *)
Theorem unsupported_extension_rejected (w : world) (file_path : string) :
  Text.lower (PathLib.suffix file_path) <> ".xlsx"%string ->
  Text.lower (PathLib.suffix file_path) <> ".xls"%string ->
  Text.lower (PathLib.suffix file_path) <> ".pdf"%string ->
  parse_rent_roll w file_path =
    ([EvExists file_path],
     if path_exists w file_path then raise invalid_file_type
     else raise_msg file_not_found ("File not found: " ++ file_path)%string) /\
  existsb is_read_event (fst (parse_rent_roll w file_path)) = false /\
  (path_exists w file_path = true ->
   failed_with (snd (parse_rent_roll w file_path)) invalid_file_type).
Proof.
  intros H1 H2 H3. unfold parse_rent_roll.
  rewrite (detect_unsupported file_path H1 H2 H3).
  destruct (path_exists w file_path); simpl; repeat split; try reflexivity.
  discriminate.
Qed.

(** An existing ".docx" path. *)
Lemma unsupported_extension_rejected_witness :
  parse_rent_roll blank_world "lejeliste.docx" =
    ([EvExists "lejeliste.docx"], raise invalid_file_type) /\
  failed_with (snd (parse_rent_roll blank_world "lejeliste.docx")) invalid_file_type.
Proof.
  destruct (unsupported_extension_rejected blank_world "lejeliste.docx")
    as (Heq & _ & Hfail); [vm_compute; discriminate..|].
  split; [exact Heq|]. apply Hfail. reflexivity.
Defined.

(** C8, as the claim words it (InvalidFileType for every such path): a
    ".docx" path that does not exist fails with FileNotFound. *)
Lemma missing_docx_is_file_not_found :
  failed_with (snd (parse_rent_roll empty_world "missing.docx")) file_not_found /\
  ~ failed_with (snd (parse_rent_roll empty_world "missing.docx")) invalid_file_type.
Proof.
  split; [reflexivity|]. vm_compute. discriminate.
Qed.

(** ** Row numbers *)

Lemma increasing_from_strict (n : nat) (l : list nat) :
  increasing_from n l -> strictly_increasing l.
Proof. destruct l; simpl; tauto. Qed.

Lemma excel_rows_increasing (name : string) (rt : option category)
    (header_idx : nat) (data_rows : list row) :
  forall row_offset n, n < header_idx + row_offset + 2 ->
    increasing_from n
      (map row_num (excel_data_rows name rt header_idx row_offset data_rows)).
Proof.
  induction data_rows as [|r data_rows IH]; intros row_offset n Hn; simpl; [exact I|].
  destruct (is_end_row r); [exact I|].
  destruct (count_if non_blank (map cell_text r) <? 2)%nat; simpl.
  - apply IH. lia.
  - split; [exact Hn|]. apply IH. lia.
Qed.

Lemma excel_rows_source (name : string) (rt : option category)
    (header_idx : nat) (data_rows : list row) :
  forall row_offset,
    Forall (fun r => source r = name)
      (excel_data_rows name rt header_idx row_offset data_rows).
Proof.
  induction data_rows as [|r data_rows IH]; intros row_offset; simpl; [constructor|].
  destruct (is_end_row r); [constructor|].
  destruct (count_if non_blank (map cell_text r) <? 2)%nat; [apply IH|].
  constructor; [reflexivity|apply IH].
Qed.

Lemma pdf_rows_increasing (seen : gset (list string)) (page_num : nat)
    (data_rows : list row) :
  forall row_offset n, n < row_offset + 1 ->
    increasing_from n (map row_num (pdf_data_rows seen page_num row_offset data_rows)).
Proof.
  induction data_rows as [|r data_rows IH]; intros row_offset n Hn; simpl; [exact I|].
  assert (Hrest : increasing_from n
            (map row_num (pdf_data_rows seen page_num (S row_offset) data_rows)))
    by (apply IH; lia).
  destruct (is_end_row r); [exact Hrest|].
  destruct (count_if non_blank (map cell_text r) <? 2)%nat; [exact Hrest|].
  destruct (bool_decide _); [exact Hrest|].
  simpl. split; [exact Hn|]. apply IH. lia.
Qed.

Lemma pdf_rows_source (seen : gset (list string)) (page_num : nat)
    (data_rows : list row) :
  forall row_offset,
    Forall (fun r => source r = page_label page_num)
      (pdf_data_rows seen page_num row_offset data_rows).
Proof.
  induction data_rows as [|r data_rows IH]; intros row_offset; simpl; [constructor|].
  destruct (is_end_row r); [apply IH|].
  destruct (count_if non_blank (map cell_text r) <? 2)%nat; [apply IH|].
  destruct (bool_decide _); [apply IH|].
  constructor; [reflexivity|apply IH].
Qed.

Lemma uniform_segment_nil (label : string) : uniform_segment label [].
Proof. split; [constructor|exact I]. Qed.

Lemma row_nums_of_app (label : string) (a b : list parsed_row) :
  row_nums_of label (a ++ b) = row_nums_of label a ++ row_nums_of label b.
Proof. unfold row_nums_of. rewrite List.filter_app, map_app. reflexivity. Qed.

Lemma row_nums_of_same (label : string) (seg : list parsed_row) :
  Forall (fun r => source r = label) seg -> row_nums_of label seg = map row_num seg.
Proof.
  unfold row_nums_of. induction 1 as [|r seg Hr _ IH]; simpl; [reflexivity|].
  rewrite Hr, String.eqb_refl. simpl. rewrite IH. reflexivity.
Qed.

Lemma row_nums_of_other (l label : string) (seg : list parsed_row) :
  l <> label -> Forall (fun r => source r = l) seg -> row_nums_of label seg = [].
Proof.
  intros Hne. unfold row_nums_of.
  induction 1 as [|r seg Hr _ IH]; simpl; [reflexivity|].
  rewrite Hr. apply String.eqb_neq in Hne. rewrite Hne. exact IH.
Qed.

Lemma row_nums_of_absent (labels : list string) (segs : list (list parsed_row))
    (label : string) :
  Forall2 uniform_segment labels segs -> ~ In label labels ->
  row_nums_of label (concat segs) = [].
Proof.
  induction 1 as [|l seg labels segs [Hsrc _] _ IH]; intros Hnot; simpl; [reflexivity|].
  rewrite row_nums_of_app, IH by (intros Hin; apply Hnot; right; exact Hin).
  rewrite (row_nums_of_other l) by (auto; intros ->; apply Hnot; left; reflexivity).
  reflexivity.
Qed.

(** Segments with pairwise distinct labels: the rows of one label are those
    of one segment. *)
Lemma segments_increasing (labels : list string) (segs : list (list parsed_row)) :
  Forall2 uniform_segment labels segs -> NoDup labels ->
  forall label, strictly_increasing (row_nums_of label (concat segs)).
Proof.
  induction 1 as [|l seg labels segs [Hsrc Hinc] Hrest IH]; intros Hnd label; simpl.
  - exact I.
  - inversion Hnd as [|? ? Hnotin Hnd']; subst.
    rewrite list_elem_of_In in Hnotin.
    rewrite row_nums_of_app.
    destruct (decide (l = label)) as [->|Hne].
    + rewrite (row_nums_of_same _ _ Hsrc), (row_nums_of_absent _ _ _ Hrest Hnotin).
      rewrite app_nil_r. exact Hinc.
    + rewrite (row_nums_of_other l label seg Hne Hsrc). simpl. apply IH, Hnd'.
Qed.

Lemma excel_step_segment (st : excel_state) (sh : sheet) :
  exists seg, xs_all_rows (excel_sheet_step st sh) = xs_all_rows st ++ seg /\
              uniform_segment (sheet_name sh) seg.
Proof.
  assert (Hnone : forall st', xs_all_rows st' = xs_all_rows st ->
            exists seg, xs_all_rows st' = xs_all_rows st ++ seg /\
                        uniform_segment (sheet_name sh) seg).
  { intros st' E. exists []. rewrite app_nil_r. split; [exact E|apply uniform_segment_nil]. }
  unfold excel_sheet_step. destruct (sheet_content sh) as [sheet_rows|msg].
  - destruct (length sheet_rows <? 3)%nat; [apply Hnone; reflexivity|].
    destruct (find_header_row sheet_rows) as [[header_idx header_cells]|e];
      [|apply Hnone; reflexivity].
    eexists. split.
    + unfold excel_extract. simpl. destruct (xs_header_found st); reflexivity.
    + split; [apply excel_rows_source|].
      eapply increasing_from_strict, (excel_rows_increasing _ _ _ _ 0 0). lia.
  - apply Hnone. reflexivity.
Qed.

Lemma excel_fold_segments (sheets : list sheet) (st : excel_state) :
  exists segs,
    xs_all_rows (fold_left excel_sheet_step sheets st) = xs_all_rows st ++ concat segs /\
    Forall2 uniform_segment (map sheet_name sheets) segs.
Proof.
  revert st. induction sheets as [|sh sheets IH]; intros st; simpl.
  - exists []. simpl. rewrite app_nil_r. split; [reflexivity|constructor].
  - destruct (excel_step_segment st sh) as (seg & Hseg & Hu).
    destruct (IH (excel_sheet_step st sh)) as (segs & Hsegs & Hus).
    exists (seg :: segs). simpl. split.
    + rewrite Hsegs, Hseg, <- app_assoc. reflexivity.
    + constructor; assumption.
Qed.

Lemma pdf_step_segment (st : pdf_state) (t : table_info) :
  exists seg, ps_all_rows (pdf_table_step st t) = ps_all_rows st ++ seg /\
              uniform_segment (page_label (page t)) seg.
Proof.
  unfold pdf_table_step.
  destruct (pdf_header_phase st t) as [st'|] eqn:E.
  - exists (pdf_table_rows st' t). split.
    + simpl. f_equal. unfold pdf_header_phase in E.
      destruct (negb (ps_header_found st)).
      * destruct (find_header_row (table_rows t)) as [[i r]|]; [|discriminate].
        injection E as <-. reflexivity.
      * destruct (table_rows t); injection E as <-; reflexivity.
    + split; [apply pdf_rows_source|].
      eapply increasing_from_strict, (pdf_rows_increasing _ _ _ 0 0). lia.
  - exists []. rewrite app_nil_r. split; [reflexivity|apply uniform_segment_nil].
Qed.

Lemma pdf_fold_segments (tables : list table_info) (st : pdf_state) :
  exists segs,
    ps_all_rows (fold_left pdf_table_step tables st) = ps_all_rows st ++ concat segs /\
    Forall2 uniform_segment (map (fun t => page_label (page t)) tables) segs.
Proof.
  revert st. induction tables as [|t tables IH]; intros st; simpl.
  - exists []. simpl. rewrite app_nil_r. split; [reflexivity|constructor].
  - destruct (pdf_step_segment st t) as (seg & Hseg & Hu).
    destruct (IH (pdf_table_step st t)) as (segs & Hsegs & Hus).
    exists (seg :: segs). simpl. split.
    + rewrite Hsegs, Hseg, <- app_assoc. reflexivity.
    + constructor; assumption.
Qed.

Lemma page_label_inj (a b : nat) : page_label a = page_label b -> a = b.
Proof.
  unfold page_label. simpl. intros H. injection H as H.
  apply (inj pretty). exact H.
Qed.

Lemma page_labels_distinct (tables : list table_info) :
  NoDup (map page tables) -> NoDup (map (fun t => page_label (page t)) tables).
Proof.
  induction tables as [|t tables IH]; simpl; intros Hnd; [constructor|].
  inversion Hnd as [|? ? Hnotin Hnd']; subst.
  rewrite list_elem_of_In in Hnotin.
  constructor; [rewrite list_elem_of_In|apply IH, Hnd'].
  intros Hin. apply Hnotin.
  apply in_map_iff in Hin as (t' & Heq & Hin).
  apply page_label_inj in Heq. rewrite <- Heq.
  apply in_map_iff. exists t'. split; [reflexivity|exact Hin].
Qed.

Lemma parse_excel_sheets_rows (file_path : string) (sheets : list sheet)
    (res : parse_result) :
  parse_excel_sheets file_path sheets = Ok res ->
  rows res = xs_all_rows (fold_left excel_sheet_step sheets initial_excel_state).
Proof.
  unfold parse_excel_sheets. cbv zeta.
  destruct (negb (xs_header_found _)); [discriminate|].
  destruct (is_nil _); [discriminate|].
  destruct (calculate_summary_stats _ _ _) as [sm q].
  intros [= <-]. reflexivity.
Qed.

Lemma parse_pdf_tables_rows (file_path : string) (n_pages n_tables : nat)
    (ocr_used : bool) (ws : list string) (conf : confidence_level)
    (tables : list table_info) (res : parse_result) :
  parse_pdf_tables file_path n_pages n_tables ocr_used ws conf tables = Ok res ->
  rows res = ps_all_rows (fold_left pdf_table_step tables initial_pdf_state).
Proof.
  unfold parse_pdf_tables. cbv zeta.
  destruct (negb (ps_header_found _)); [discriminate|].
  destruct (is_nil _); [discriminate|].
  destruct (calculate_summary_stats _ _ _) as [sm q].
  intros [= <-]. reflexivity.
Qed.

(** C7, as the code has it.  In a parsed workbook (its sheet names are
    distinct) the rows of one sheet name have strictly increasing row
    numbers.  In a parsed PDF the output is one run of rows per table, in
    table order, each run carrying its page label and strictly increasing row
    numbers; the rows of one page label are strictly increasing when no page
    contributes two tables. *)
Theorem row_num_increasing_per_segment :
  (forall file_path sheets res,
     NoDup (map sheet_name sheets) ->
     parse_excel_sheets file_path sheets = Ok res ->
     forall label, strictly_increasing (row_nums_of label (rows res))) /\
  (forall file_path n_pages n_tables ocr_used ws conf tables res,
     parse_pdf_tables file_path n_pages n_tables ocr_used ws conf tables = Ok res ->
     (exists segs,
        rows res = concat segs /\
        Forall2 uniform_segment (map (fun t => page_label (page t)) tables) segs) /\
     (NoDup (map page tables) ->
      forall label, strictly_increasing (row_nums_of label (rows res)))).
Proof.
  split.
  - intros file_path sheets res Hnd Hres label.
    rewrite (parse_excel_sheets_rows _ _ _ Hres).
    destruct (excel_fold_segments sheets initial_excel_state) as (segs & -> & Hsegs).
    simpl. apply (segments_increasing _ _ Hsegs Hnd).
  - intros file_path n_pages n_tables ocr_used ws conf tables res Hres.
    rewrite (parse_pdf_tables_rows _ _ _ _ _ _ _ _ Hres).
    destruct (pdf_fold_segments tables initial_pdf_state) as (segs & -> & Hsegs).
    simpl. split.
    + exists segs. split; [reflexivity|exact Hsegs].
    + intros Hnd. apply (segments_increasing _ _ Hsegs), page_labels_distinct, Hnd.
Qed.

(** C7, as the claim words it (strictly increasing within one page
    identifier): a page holding two tables yields the row numbers 1, 2, 1, 2
    under the label "page_1". *)
Lemma page_label_repeats_row_num :
  match snd (parse_rent_roll (one_pdf_world two_tables_one_page) "lejeliste.pdf") with
  | Ok res =>
      row_nums_of "page_1" (rows res) = [1; 2; 1; 2] /\
      ~ strictly_increasing (row_nums_of "page_1" (rows res))
  | Err _ => False
  end.
Proof.
  vm_compute. split; [reflexivity|]. intros (_ & H & _). lia.
Qed.

(** ** Repeated headers in the PDF pipeline *)

Lemma pdf_rows_unseen (seen : gset (list string)) (page_num : nat)
    (data_rows : list row) :
  forall row_offset r,
    In r (pdf_data_rows seen page_num row_offset data_rows) ->
    row_sig (raw r) ∉ seen.
Proof.
  induction data_rows as [|c data_rows IH]; intros row_offset r; simpl; [tauto|].
  destruct (is_end_row c); [apply IH|].
  destruct (count_if non_blank (map cell_text c) <? 2)%nat; [apply IH|].
  destruct (bool_decide_reflect (row_sig (map cell_text c) ∈ seen)) as [Hin|Hnot];
    [apply IH|].
  simpl. intros [<-|Hr]; [exact Hnot|]. eapply IH, Hr.
Qed.

Lemma pdf_step_inv (st : pdf_state) (t : table_info) :
  pdf_inv st -> pdf_inv (pdf_table_step st t).
Proof.
  intros [Hempty Hunseen]. unfold pdf_table_step, pdf_header_phase.
  destruct (ps_header_found st) eqn:Hf; simpl.
  - assert (Hgo : forall data_rows,
              pdf_inv (pdf_extract
                (mkPdfState true (ps_seen_headers st) data_rows (ps_header_row st)
                   (ps_columns st) (ps_column_mapping st) (ps_all_rows st)) t)).
    { intros data_rows. split; simpl; [discriminate|].
      intros r Hin. apply in_app_or in Hin as [Hin|Hin]; [apply Hunseen, Hin|].
      eapply pdf_rows_unseen, Hin. }
    destruct (table_rows t) as [|first_row rest].
    + split; simpl; [intros; congruence|].
      intros r Hin. apply in_app_or in Hin as [Hin|Hin]; [apply Hunseen, Hin|].
      eapply pdf_rows_unseen, Hin.
    + apply Hgo.
  - destruct (find_header_row (table_rows t)) as [[i hdr]|e].
    + split; simpl; [discriminate|].
      rewrite (Hempty eq_refl). simpl.
      intros r Hin. eapply pdf_rows_unseen, Hin.
    + split; [intros _; apply Hempty; reflexivity|exact Hunseen].
Qed.

Lemma pdf_fold_inv (tables : list table_info) (st : pdf_state) :
  pdf_inv st -> pdf_inv (fold_left pdf_table_step tables st).
Proof.
  revert st. induction tables as [|t tables IH]; intros st Hst; simpl; [exact Hst|].
  apply IH, pdf_step_inv, Hst.
Qed.

(** What the loop does guarantee: no output row has a [row_sig] stored in
    [seen_headers]. *)
Lemma pdf_rows_never_seen (tables : list table_info) (r : parsed_row) :
  let st := fold_left pdf_table_step tables initial_pdf_state in
  In r (ps_all_rows st) -> row_sig (raw r) ∉ ps_seen_headers st.
Proof.
  cbv zeta. apply pdf_fold_inv. split; simpl; [reflexivity|tauto].
Qed.

(** When every cell of the header is either falsy or non-blank, the stored
    signature is the one a repetition of the header has as a data row, and
    the repetition is dropped. *)
Lemma header_sig_row_sig (header_cells : row) :
  Forall (fun c => truthy c = non_blank (cell_text c)) header_cells ->
  header_sig header_cells = row_sig (map cell_text header_cells).
Proof.
  unfold header_sig, row_sig.
  induction 1 as [|c header_cells Hc _ IH]; simpl; [reflexivity|].
  rewrite Hc. destruct (non_blank (cell_text c)); simpl; rewrite IH; reflexivity.
Qed.

(** ** Instances at concrete inputs *)

(** The locator on a table whose second row is the best one. *)
Lemma find_header_row_picks_best_witness :
  let table := [ [CStr "Areal"; CStr "Leje"];
                 [CStr "Lejnr"; CStr "Areal"; CStr "Leje"];
                 [CStr "A1"; CStr "50"; CStr "1000"] ] in
  find_header_row table = Ok (1, [CStr "Lejnr"; CStr "Areal"; CStr "Leje"]) /\
  (forall j r', j < 1 -> take max_rows table !! j = Some r' ->
     row_score r' < row_score [CStr "Lejnr"; CStr "Areal"; CStr "Leje"]).
Proof.
  cbv zeta. split; [reflexivity|].
  exact (proj2 (proj2 (proj2 (proj1
    (find_header_row_picks_best
       [ [CStr "Areal"; CStr "Leje"];
         [CStr "Lejnr"; CStr "Areal"; CStr "Leje"];
         [CStr "A1"; CStr "50"; CStr "1000"] ]))))).
Defined.

(** The general lookup rule at the header "Bem." of the documented list. *)
Lemma map_columns_assigns_tags_witness :
  let headers := [CStr "Lejnr."; CStr "Areal"; CStr "Leje"; CStr "Etage"; CStr "Bem."] in
  In (CStr "Bem.") headers /\
  is_none (CStr "Bem.") = false /\
  map_columns headers !! "Bem."%string = Some "notes"%string.
Proof.
  cbv zeta.
  assert (Hin : In (CStr "Bem.")
            [CStr "Lejnr."; CStr "Areal"; CStr "Leje"; CStr "Etage"; CStr "Bem."])
    by (simpl; tauto).
  split; [exact Hin|]. split; [reflexivity|].
  etransitivity;
    [exact (proj2 (proj2 map_columns_assigns_tags) _ (CStr "Bem.") Hin eq_refl)|].
  vm_compute. reflexivity.
Defined.

(** A workbook with two sheets of two units each. *)
Lemma row_num_increasing_per_segment_witness :
  let sheets :=
    [ mkSheet "Bolig" (SheetRows [ [CStr "Lejnr"; CStr "Areal"; CStr "Leje"];
                                   [CStr "A1"; CStr "50"; CStr "10.000"];
                                   [CStr "A2"; CStr "60"; CStr "12.000"] ]);
      mkSheet "Erhverv" (SheetRows [ [CStr "Lejnr"; CStr "Areal"; CStr "Leje"];
                                     [CStr "E1"; CStr "150"; CStr "90.000"];
                                     [CStr "E2"; CStr "160"; CStr "95.000"] ]) ] in
  NoDup (map sheet_name sheets) /\
  match parse_excel_sheets "lejeliste.xlsx" sheets with
  | Ok res =>
      row_nums_of "Bolig" (rows res) = [2; 3] /\
      strictly_increasing (row_nums_of "Bolig" (rows res))
  | Err _ => False
  end.
Proof.
  cbv zeta.
  assert (Hnd : NoDup ["Bolig"; "Erhverv"]%string).
  { repeat constructor; rewrite list_elem_of_In; simpl; intuition discriminate. }
  split; [exact Hnd|].
  destruct (parse_excel_sheets _ _) as [res|e] eqn:E.
  - split.
    + revert E. vm_compute. intros [= <-]. reflexivity.
    + eapply (proj1 row_num_increasing_per_segment); [|exact E]. exact Hnd.
  - revert E. vm_compute. discriminate.
Defined.

(** * Further properties of the code *)

(** ** Aggregator: breakdown, diagnostics and the reverse mapping *)

Section Breakdown.
Variables sqm_idx rent_idx unit_type_idx unit_status_idx : option nat.

Lemma bd_alter_count (f : type_stats -> type_stats) (c : category) (b : breakdown) :
  (forall t, ts_count (f t) = S (ts_count t)) ->
  bd_total_count (bd_alter f c b) = S (bd_total_count b).
Proof.
  intros Hf. unfold bd_total_count. destruct c; simpl; rewrite Hf; lia.
Qed.

Lemma bd_alter_vacant (f : type_stats -> type_stats) (c : category) (b : breakdown)
    (n : nat) :
  (forall t, ts_vacant (f t) = ts_vacant t + n) ->
  bd_total_vacant (bd_alter f c b) = bd_total_vacant b + n.
Proof.
  intros Hf. unfold bd_total_vacant. destruct c; simpl; rewrite Hf; lia.
Qed.

(** The sqm, rent and ratio blocks leave the breakdown and [total_vacant]
    alone. *)
Lemma side_blocks_keep_breakdown (st0 : stats) (r : parsed_row) :
  (unit_type_breakdown (rent_step sqm_idx rent_idx (sqm_step sqm_idx st0 r) r) =
     unit_type_breakdown st0 /\
   total_vacant (rent_step sqm_idx rent_idx (sqm_step sqm_idx st0 r) r) =
     total_vacant st0) /\
  (unit_type_breakdown (ratio_step sqm_idx rent_idx st0 r) = unit_type_breakdown st0 /\
   total_vacant (ratio_step sqm_idx rent_idx st0 r) = total_vacant st0).
Proof.
  split.
  - unfold rent_step, sqm_step.
    destruct (sqm_value_of sqm_idx r) as [s|];
      destruct (rent_value_of rent_idx r) as [v|]; cbv zeta;
      repeat match goal with
             | |- context [Float.is_positive ?q] => destruct (Float.is_positive q)
             | |- context [Float.is_zero ?q] => destruct (Float.is_zero q)
             end; simpl; split; reflexivity.
  - unfold ratio_step.
    destruct (sqm_value_of sqm_idx r) as [s|];
      destruct (rent_value_of rent_idx r) as [v|]; try (split; reflexivity).
    destruct (Float.is_positive s && Float.is_positive v); split; reflexivity.
Qed.

(** One row adds one to exactly one category count, and its vacancy to the
    same category and to [total_vacant]. *)
Lemma step_breakdown (st : stats) (r : parsed_row) :
  let st' := stats_step sqm_idx rent_idx unit_type_idx unit_status_idx st r in
  let n := if vacant_of unit_status_idx r then 1 else 0 in
  bd_total_count (unit_type_breakdown st') = S (bd_total_count (unit_type_breakdown st)) /\
  bd_total_vacant (unit_type_breakdown st') =
    bd_total_vacant (unit_type_breakdown st) + n /\
  total_vacant st' = total_vacant st + n.
Proof.
  cbv zeta.
  destruct (side_blocks_keep_breakdown st r) as [[Hb Hv] _].
  unfold stats_step.
  destruct (side_blocks_keep_breakdown
    (category_step sqm_idx rent_idx unit_type_idx unit_status_idx
       (rent_step sqm_idx rent_idx (sqm_step sqm_idx st r) r) r) r) as [_ [-> ->]].
  unfold category_step. simpl. rewrite Hb, Hv.
  split; [|split].
  - apply bd_alter_count. intros t. reflexivity.
  - apply bd_alter_vacant. intros t. simpl.
    destruct (vacant_of unit_status_idx r); lia.
  - destruct (vacant_of unit_status_idx r); lia.
Qed.

Lemma fold_breakdown (rs : list parsed_row) (st : stats) :
  let st' := fold_left (stats_step sqm_idx rent_idx unit_type_idx unit_status_idx) rs st in
  bd_total_count (unit_type_breakdown st') =
    bd_total_count (unit_type_breakdown st) + length rs /\
  bd_total_vacant (unit_type_breakdown st') + total_vacant st =
    bd_total_vacant (unit_type_breakdown st) + total_vacant st' /\
  total_vacant st' <= total_vacant st + length rs.
Proof.
  revert st. induction rs as [|r rs IH]; intros st; simpl.
  - lia.
  - pose proof (IH (stats_step sqm_idx rent_idx unit_type_idx unit_status_idx st r)) as H.
    pose proof (step_breakdown st r) as H'. cbv zeta in *.
    destruct (vacant_of unit_status_idx r); lia.
Qed.

End Breakdown.

(** The category breakdown counts every row, whatever its values: the four
    counts add up to [total_units], the number of rows; the four vacancy
    counts add up to [total_vacant], which is at most the number of rows. *)
Theorem breakdown_counts_every_row (rs : list parsed_row) (cols : list string)
    (mapping : gmap string string) :
  let s := fst (calculate_summary_stats rs cols mapping) in
  sum_total_units s = length rs /\
  bd_total_count (sum_unit_type_breakdown s) = length rs /\
  bd_total_vacant (sum_unit_type_breakdown s) = sum_total_vacant s /\
  sum_total_vacant s <= length rs.
Proof.
  cbv zeta. unfold calculate_summary_stats, accumulate. simpl.
  pose proof (fold_breakdown
                (standard_to_idx cols mapping !! "sqm"%string)
                (standard_to_idx cols mapping !! "annual_rent"%string)
                (standard_to_idx cols mapping !! "unit_type"%string)
                (standard_to_idx cols mapping !! "unit_status"%string)
                rs initial_stats) as H.
  cbv zeta in H. simpl in H.
  change (bd_total_count (round_breakdown ?b)) with (bd_total_count b).
  change (bd_total_vacant (round_breakdown ?b)) with (bd_total_vacant b).
  lia.
Qed.

Section Diagnostics.
Variables sqm_idx rent_idx unit_type_idx unit_status_idx : option nat.

(** Only the rent block writes [rows_missing_rent] and [rows_suspicious]. *)
Lemma sqm_step_rent_side (st : stats) (r : parsed_row) :
  rows_missing_rent (sqm_step sqm_idx st r) = rows_missing_rent st /\
  rows_suspicious (sqm_step sqm_idx st r) = rows_suspicious st.
Proof.
  unfold sqm_step. destruct (sqm_value_of sqm_idx r) as [v|]; [|split; reflexivity].
  destruct (Float.is_positive v); split; reflexivity.
Qed.

Lemma ratio_step_rent_side (st : stats) (r : parsed_row) :
  rows_missing_rent (ratio_step sqm_idx rent_idx st r) = rows_missing_rent st /\
  rows_suspicious (ratio_step sqm_idx rent_idx st r) = rows_suspicious st.
Proof.
  unfold ratio_step.
  destruct (sqm_value_of sqm_idx r) as [s|];
    destruct (rent_value_of rent_idx r) as [v|]; try (split; reflexivity).
  destruct (Float.is_positive s && Float.is_positive v); split; reflexivity.
Qed.

(** The rent block: the row is reported missing unless its rent is positive,
    and flagged when the rent is exactly zero and the area is positive. *)
Lemma rent_step_rent_side (st : stats) (r : parsed_row) :
  (rows_missing_rent (rent_step sqm_idx rent_idx st r) = rows_missing_rent st /\
   rows_suspicious (rent_step sqm_idx rent_idx st r) = rows_suspicious st) \/
  (rows_missing_rent (rent_step sqm_idx rent_idx st r) =
     rows_missing_rent st ++ [row_num r] /\
   (rows_suspicious (rent_step sqm_idx rent_idx st r) = rows_suspicious st \/
    (rows_suspicious (rent_step sqm_idx rent_idx st r) =
       rows_suspicious st ++ [mkSuspicious (row_num r) "Zero rent" 0 "kr"] /\
     zero_rent_row sqm_idx rent_idx r))).
Proof.
  unfold rent_step, zero_rent_row.
  destruct (rent_value_of rent_idx r) as [v|]; cbv zeta.
  - destruct (Float.is_positive v) eqn:Hp; [left; split; reflexivity|].
    destruct (Float.is_zero v) eqn:Hz.
    + right. simpl. split; [reflexivity|].
      destruct (positive (sqm_value_of sqm_idx r)) eqn:Hs.
      * right. split; [reflexivity|]. split; [reflexivity|].
        exists v. repeat split; assumption.
      * left. rewrite app_nil_r. reflexivity.
    + right. simpl. split; [reflexivity|]. left. rewrite app_nil_r. reflexivity.
  - right. simpl. split; [reflexivity|]. left. rewrite app_nil_r. reflexivity.
Qed.

Lemma step_suspicious (all : list parsed_row) (st : stats) (r : parsed_row) :
  In r all -> suspicious_inv sqm_idx rent_idx all st ->
  suspicious_inv sqm_idx rent_idx all
    (stats_step sqm_idx rent_idx unit_type_idx unit_status_idx st r).
Proof.
  intros Hr Hinv. unfold stats_step.
  intros s.
  destruct (ratio_step_rent_side
    (category_step sqm_idx rent_idx unit_type_idx unit_status_idx
       (rent_step sqm_idx rent_idx (sqm_step sqm_idx st r) r) r) r) as [-> ->].
  simpl.
  destruct (sqm_step_rent_side st r) as [Hm Hs].
  destruct (rent_step_rent_side (sqm_step sqm_idx st r) r)
    as [[-> ->]|[-> [->|[-> Hzero]]]]; rewrite ?Hm, ?Hs.
  - apply Hinv.
  - intros Hin. destruct (Hinv s Hin) as (H1 & H2).
    split; [apply in_or_app; left; exact H1|exact H2].
  - intros Hin. apply in_app_or in Hin as [Hin|[<-|[]]].
    + destruct (Hinv s Hin) as (H1 & H2).
      split; [apply in_or_app; left; exact H1|exact H2].
    + simpl. split; [apply in_or_app; right; left; reflexivity|].
      repeat split. exists r. repeat split; try assumption; apply Hzero.
Qed.

Lemma fold_suspicious (all rs : list parsed_row) (st : stats) :
  (forall r, In r rs -> In r all) -> suspicious_inv sqm_idx rent_idx all st ->
  suspicious_inv sqm_idx rent_idx all
    (fold_left (stats_step sqm_idx rent_idx unit_type_idx unit_status_idx) rs st).
Proof.
  revert st. induction rs as [|r rs IH]; intros st Hall Hinv; simpl; [exact Hinv|].
  apply IH; [intros r' Hr'; apply Hall; right; exact Hr'|].
  apply step_suspicious; [apply Hall; left; reflexivity|exact Hinv].
Qed.

End Diagnostics.

(** Every entry of [rows_suspicious] is a "Zero rent" entry with value 0,
    its row number is also reported in [rows_missing_rent], and it stems from
    a row whose rent parses to exactly 0 while its area is positive. *)
Theorem suspicious_rows_are_zero_rent (rs : list parsed_row) (cols : list string)
    (mapping : gmap string string) (s : suspicious) :
  let d := snd (calculate_summary_stats rs cols mapping) in
  let idx := standard_to_idx cols mapping in
  In s (dq_rows_suspicious d) ->
  In (sus_row_num s) (dq_rows_missing_rent d) /\
  sus_issue s = "Zero rent"%string /\ sus_value s = 0%Q /\ sus_unit s = "kr"%string /\
  exists r, In r rs /\ row_num r = sus_row_num s /\
            zero_rent_row (idx !! "sqm"%string) (idx !! "annual_rent"%string) r.
Proof.
  cbv zeta. unfold calculate_summary_stats, accumulate. simpl.
  apply (fold_suspicious _ _ _ _ rs rs initial_stats); [auto|].
  intros s' [].
Qed.

(** A row with area 50 and rent "0" is flagged and reported missing. *)
Lemma suspicious_rows_are_zero_rent_witness :
  let header := [CStr "Lejnr"; CStr "Areal"; CStr "Leje"] in
  let rs := [mkRow ["A1"; "50"; "0"]%string "Ark1"%string 2 None] in
  let d := snd (calculate_summary_stats rs (map cell_text header) (map_columns header)) in
  In (mkSuspicious 2 "Zero rent" 0 "kr") (dq_rows_suspicious d) /\
  In 2 (dq_rows_missing_rent d).
Proof.
  cbv zeta.
  assert (Hin : In (mkSuspicious 2 "Zero rent" 0 "kr")
    (dq_rows_suspicious (snd (calculate_summary_stats
       [mkRow ["A1"; "50"; "0"]%string "Ark1"%string 2 None]
       (map cell_text [CStr "Lejnr"; CStr "Areal"; CStr "Leje"])
       (map_columns [CStr "Lejnr"; CStr "Areal"; CStr "Leje"])))))
    by (vm_compute; left; reflexivity).
  split; [exact Hin|].
  exact (proj1 (suspicious_rows_are_zero_rent _ _ _ _ Hin)).
Defined.

(** ** The reverse mapping *)

Lemma idx_step (column_mapping : gmap string string) (done : list string)
    (acc : gmap string nat) (col_name : string) :
  idx_inv column_mapping done acc ->
  idx_inv column_mapping (done ++ [col_name])
    match column_mapping !! col_name with
    | Some standard_name => <[standard_name := length done]> acc
    | None => acc
    end.
Proof.
  intros Hinv tag.
  assert (Hcase : forall j col, (done ++ [col_name]) !! j = Some col ->
            done !! j = Some col \/ (j = length done /\ col = col_name)).
  { intros j col Hl. destruct (decide (j < length done)) as [Hj|Hj].
    - left. rewrite lookup_app_l in Hl by exact Hj. exact Hl.
    - right. rewrite lookup_app_r in Hl by lia.
      destruct (j - length done) as [|n] eqn:En; simpl in Hl.
      + split; [lia|congruence].
      + rewrite lookup_nil in Hl. discriminate. }
  assert (Hold : forall acc' : gmap string nat, acc' !! tag = acc !! tag ->
            column_mapping !! col_name <> Some tag ->
            match acc' !! tag with
            | Some i =>
                (exists col, (done ++ [col_name]) !! i = Some col /\
                             column_mapping !! col = Some tag) /\
                forall j col, (done ++ [col_name]) !! j = Some col ->
                              column_mapping !! col = Some tag -> j <= i
            | None =>
                forall j col, (done ++ [col_name]) !! j = Some col ->
                              column_mapping !! col <> Some tag
            end).
  { intros acc' -> Hne. specialize (Hinv tag).
    destruct (acc !! tag) as [i|].
    - destruct Hinv as [(col & Hi & Hm) Hmax]. split.
      + exists col. split; [|exact Hm].
        rewrite lookup_app_l; [exact Hi|]. eapply lookup_lt_Some, Hi.
      + intros j col' Hl Hm'. destruct (Hcase j col' Hl) as [Hd|[_ ->]];
          [eapply Hmax; eassumption|congruence].
    - intros j col' Hl. destruct (Hcase j col' Hl) as [Hd|[_ ->]];
        [eapply Hinv; eassumption|exact Hne]. }
  destruct (column_mapping !! col_name) as [standard_name|] eqn:Hm.
  - destruct (decide (standard_name = tag)) as [->|Hne].
    + rewrite lookup_insert_eq. split.
      * exists col_name. split; [|exact Hm].
        rewrite lookup_app_r by lia. rewrite Nat.sub_diag. reflexivity.
      * intros j col Hl _. apply lookup_lt_Some in Hl.
        rewrite length_app in Hl. simpl in Hl. lia.
    + apply Hold; [apply lookup_insert_ne; exact Hne|congruence].
  - apply Hold; [reflexivity|congruence].
Qed.

Lemma idx_from (column_mapping : gmap string string) (todo done : list string)
    (acc : gmap string nat) :
  idx_inv column_mapping done acc ->
  idx_inv column_mapping (done ++ todo)
    (standard_to_idx_from (length done) todo column_mapping acc).
Proof.
  revert done acc. induction todo as [|col todo IH]; intros done acc Hinv; simpl.
  - rewrite app_nil_r. exact Hinv.
  - replace (done ++ col :: todo) with ((done ++ [col]) ++ todo)
      by (rewrite <- app_assoc; reflexivity).
    replace (S (length done)) with (length (done ++ [col]))
      by (rewrite length_app; simpl; lia).
    apply IH, idx_step, Hinv.
Qed.

Lemma idx_of_columns (cols : list string) (mapping : gmap string string) :
  idx_inv mapping cols (standard_to_idx cols mapping).
Proof.
  apply (idx_from mapping cols [] ∅).
  intros t. rewrite lookup_empty. intros j col Hl. rewrite lookup_nil in Hl. discriminate.
Qed.

(** The reverse mapping sends a standard name to the _last_ column whose
    header is mapped to it, and has no entry exactly when no column is. *)
Theorem standard_to_idx_is_last_column (cols : list string)
    (mapping : gmap string string) (tag : string) :
  match standard_to_idx cols mapping !! tag with
  | Some i =>
      (exists col, cols !! i = Some col /\ mapping !! col = Some tag) /\
      forall j col, cols !! j = Some col -> mapping !! col = Some tag -> j <= i
  | None =>
      forall j col, cols !! j = Some col -> mapping !! col <> Some tag
  end.
Proof. apply idx_of_columns. Qed.

(** ** A measure without a column *)

Section Unmapped.
Variables rent_idx unit_type_idx unit_status_idx : option nat.

Lemma sqm_value_unmapped (r : parsed_row) : sqm_value_of None r = None.
Proof. reflexivity. Qed.

(** With no area column, a row only lengthens [rows_missing_sqm]. *)
Lemma step_without_sqm (st : stats) (r : parsed_row) :
  let st' := stats_step None rent_idx unit_type_idx unit_status_idx st r in
  rows_missing_sqm st' = rows_missing_sqm st ++ [row_num r] /\
  units_with_sqm st' = units_with_sqm st /\
  total_sqm st' = total_sqm st /\
  rent_per_sqm_sum st' = rent_per_sqm_sum st /\
  rent_per_sqm_count st' = rent_per_sqm_count st.
Proof.
  cbv zeta. unfold stats_step, ratio_step, category_step, sqm_step.
  rewrite !sqm_value_unmapped. simpl.
  unfold rent_step. rewrite !sqm_value_unmapped.
  destruct (rent_value_of rent_idx r) as [v|]; cbv zeta; simpl;
    [|repeat split; reflexivity].
  destruct (Float.is_positive v); [repeat split; reflexivity|].
  destruct (Float.is_zero v); repeat split; reflexivity.
Qed.

Lemma fold_without_sqm (rs : list parsed_row) (st : stats) :
  let st' := fold_left (stats_step None rent_idx unit_type_idx unit_status_idx) rs st in
  rows_missing_sqm st' = rows_missing_sqm st ++ map row_num rs /\
  units_with_sqm st' = units_with_sqm st /\
  total_sqm st' = total_sqm st /\
  rent_per_sqm_sum st' = rent_per_sqm_sum st /\
  rent_per_sqm_count st' = rent_per_sqm_count st.
Proof.
  revert st. induction rs as [|r rs IH]; intros st; simpl.
  - rewrite app_nil_r. repeat split; reflexivity.
  - destruct (IH (stats_step None rent_idx unit_type_idx unit_status_idx st r))
      as (H1 & H2 & H3 & H4 & H5).
    destruct (step_without_sqm st r) as (E1 & E2 & E3 & E4 & E5).
    cbv zeta in *. rewrite H1, H2, H3, H4, H5, E1, E2, E3, E4, E5.
    rewrite <- app_assoc. repeat split; reflexivity.
Qed.

End Unmapped.

Section UnmappedRent.
Variables sqm_idx unit_type_idx unit_status_idx : option nat.

Lemma rent_value_unmapped (r : parsed_row) : rent_value_of None r = None.
Proof. reflexivity. Qed.

(** With no rent column, a row only lengthens [rows_missing_rent]. *)
Lemma step_without_rent (st : stats) (r : parsed_row) :
  let st' := stats_step sqm_idx None unit_type_idx unit_status_idx st r in
  rows_missing_rent st' = rows_missing_rent st ++ [row_num r] /\
  units_with_rent st' = units_with_rent st /\
  total_rent st' = total_rent st /\
  rows_suspicious st' = rows_suspicious st /\
  rent_per_sqm_sum st' = rent_per_sqm_sum st /\
  rent_per_sqm_count st' = rent_per_sqm_count st.
Proof.
  cbv zeta. unfold stats_step, ratio_step, category_step, rent_step.
  rewrite !rent_value_unmapped. cbv zeta. simpl.
  unfold sqm_step.
  destruct (sqm_value_of sqm_idx r) as [v|]; simpl;
    [|rewrite app_nil_r; repeat split; reflexivity].
  destruct (Float.is_positive v); simpl; rewrite app_nil_r; repeat split; reflexivity.
Qed.

Lemma fold_without_rent (rs : list parsed_row) (st : stats) :
  let st' := fold_left (stats_step sqm_idx None unit_type_idx unit_status_idx) rs st in
  rows_missing_rent st' = rows_missing_rent st ++ map row_num rs /\
  units_with_rent st' = units_with_rent st /\
  total_rent st' = total_rent st /\
  rows_suspicious st' = rows_suspicious st /\
  rent_per_sqm_sum st' = rent_per_sqm_sum st /\
  rent_per_sqm_count st' = rent_per_sqm_count st.
Proof.
  revert st. induction rs as [|r rs IH]; intros st; simpl.
  - rewrite app_nil_r. repeat split; reflexivity.
  - destruct (IH (stats_step sqm_idx None unit_type_idx unit_status_idx st r))
      as (H1 & H2 & H3 & H4 & H5 & H6).
    destruct (step_without_rent st r) as (E1 & E2 & E3 & E4 & E5 & E6).
    cbv zeta in *. rewrite H1, H2, H3, H4, H5, H6, E1, E2, E3, E4, E5, E6.
    rewrite <- app_assoc. repeat split; reflexivity.
Qed.

End UnmappedRent.

Lemma no_column_no_index (cols : list string) (mapping : gmap string string)
    (tag : string) :
  (forall col, In col cols -> mapping !! col <> Some tag) ->
  standard_to_idx cols mapping !! tag = None.
Proof.
  intros Hno. pose proof (idx_of_columns cols mapping tag) as H. unfold idx_inv in H.
  destruct (standard_to_idx cols mapping !! tag) as [i|]; [|reflexivity].
  destruct H as [(col & Hi & Hm) _]. exfalso.
  apply (Hno col); [|exact Hm].
  apply list_elem_of_In. eapply list_elem_of_lookup_2, Hi.
Qed.

(** A measure no column is mapped to is missing for every row: each row
    number is reported, nothing is counted or added, the average is 0, and
    without a rent column no row is flagged. *)
Theorem measure_without_column (rs : list parsed_row) (cols : list string)
    (mapping : gmap string string) :
  let s := fst (calculate_summary_stats rs cols mapping) in
  let d := snd (calculate_summary_stats rs cols mapping) in
  ((forall col, In col cols -> mapping !! col <> Some "sqm"%string) ->
   dq_rows_missing_sqm d = map row_num rs /\ sum_units_with_sqm s = 0 /\
   sum_total_sqm s = 0%Q /\ sum_avg_rent_per_sqm s = 0%Q) /\
  ((forall col, In col cols -> mapping !! col <> Some "annual_rent"%string) ->
   dq_rows_missing_rent d = map row_num rs /\ sum_units_with_rent s = 0 /\
   sum_total_annual_rent s = 0%Q /\ sum_avg_rent_per_sqm s = 0%Q /\
   dq_rows_suspicious d = []).
Proof.
  cbv zeta. unfold calculate_summary_stats, accumulate, average. simpl. split.
  - intros Hno. rewrite (no_column_no_index cols mapping "sqm" Hno).
    destruct (fold_without_sqm
                (standard_to_idx cols mapping !! "annual_rent"%string)
                (standard_to_idx cols mapping !! "unit_type"%string)
                (standard_to_idx cols mapping !! "unit_status"%string)
                rs initial_stats) as (H1 & H2 & H3 & H4 & H5).
    cbv zeta in *. rewrite H1, H2, H3, H5. simpl. repeat split; reflexivity.
  - intros Hno. rewrite (no_column_no_index cols mapping "annual_rent" Hno).
    destruct (fold_without_rent
                (standard_to_idx cols mapping !! "sqm"%string)
                (standard_to_idx cols mapping !! "unit_type"%string)
                (standard_to_idx cols mapping !! "unit_status"%string)
                rs initial_stats) as (H1 & H2 & H3 & H4 & H5 & H6).
    cbv zeta in *. rewrite H1, H2, H3, H4, H6. simpl. repeat split; reflexivity.
Qed.

(** A header without a rent column: both rows are reported missing. *)
Lemma measure_without_column_witness :
  let header := [CStr "Lejnr"; CStr "Areal"] in
  let rs := [ mkRow ["A1"; "50"]%string "Ark1"%string 2 None;
              mkRow ["A2"; "60"]%string "Ark1"%string 3 None ] in
  (forall col, In col (map cell_text header) ->
     map_columns header !! col <> Some "annual_rent"%string) /\
  dq_rows_missing_rent
    (snd (calculate_summary_stats rs (map cell_text header) (map_columns header)))
  = [2; 3].
Proof.
  cbv zeta.
  assert (Hno : forall col, In col (map cell_text [CStr "Lejnr"; CStr "Areal"]) ->
            map_columns [CStr "Lejnr"; CStr "Areal"] !! col <> Some "annual_rent"%string).
  { intros col [<-|[<-|[]]]; vm_compute; discriminate. }
  split; [exact Hno|].
  exact (proj1 (proj2 (measure_without_column _ _ _) Hno)).
Defined.

(** ** Column mapper: what ends up in the mapping *)

Lemma exact_lookup_in (table : list (string * string)) (key v : string) :
  exact_lookup table key = Some v -> In v (map snd table).
Proof.
  induction table as [|[k w] table IH]; simpl; [discriminate|].
  destruct (String.eqb k key); [intros [= ->]; left; reflexivity|].
  intros H. right. apply IH, H.
Qed.

Lemma partial_lookup_in (table : list (string * string)) (h v : string) :
  partial_lookup table h = Some v -> In v (map snd table).
Proof.
  induction table as [|[k w] table IH]; simpl; [discriminate|].
  destruct (Text.contains k h || Text.contains h k);
    [intros [= ->]; left; reflexivity|].
  intros H. right. apply IH, H.
Qed.

Lemma table_values_canonical :
  forall v, In v (map snd COLUMN_MAPPING) -> In v CANONICAL_TAGS.
Proof.
  assert (H : forallb (fun v => existsb (String.eqb v) CANONICAL_TAGS)
                      (map snd COLUMN_MAPPING) = true) by (vm_compute; reflexivity).
  intros v Hv. rewrite forallb_forall in H. specialize (H v Hv).
  apply existsb_exists in H as (t & Ht & Heq).
  apply String.eqb_eq in Heq. subst t. exact Ht.
Qed.

Lemma map_header_canonical (h v : string) :
  map_header h = Some v -> In v CANONICAL_TAGS.
Proof.
  unfold map_header. intros H. apply table_values_canonical.
  destruct (exact_lookup COLUMN_MAPPING h) as [w|] eqn:E.
  - injection H as <-. eapply exact_lookup_in, E.
  - eapply partial_lookup_in, H.
Qed.

Lemma map_columns_tags_own_keys (headers : list cell) :
  tags_own_keys (map_columns headers).
Proof.
  apply fold_tags_own_keys. intros k v. rewrite lookup_empty. discriminate.
Qed.

(** Whatever the headers are, every value of the mapping is one of the
    fifteen standard field names. *)
Theorem mapping_values_are_canonical (headers : list cell) (k v : string) :
  map_columns headers !! k = Some v -> In v CANONICAL_TAGS.
Proof.
  intros H. apply map_columns_tags_own_keys in H.
  eapply map_header_canonical, H.
Qed.

Lemma mapping_values_are_canonical_witness :
  map_columns [CStr "Husleje pr. år"; CStr "Kommentar"] !! "Husleje pr. år"%string
    = Some "annual_rent"%string /\
  In "annual_rent"%string CANONICAL_TAGS.
Proof.
  assert (H : map_columns [CStr "Husleje pr. år"; CStr "Kommentar"]
                !! "Husleje pr. år"%string = Some "annual_rent"%string)
    by (vm_compute; reflexivity).
  split; [exact H|]. exact (mapping_values_are_canonical _ _ _ H).
Defined.

Lemma synonyms_hit_own_tag (k v : string) :
  In (k, v) COLUMN_MAPPING -> map_header k = Some v.
Proof.
  assert (H : forallb synonym_hits_own_tag COLUMN_MAPPING = true)
    by (vm_compute; reflexivity).
  intros Hin. rewrite forallb_forall in H. specialize (H _ Hin).
  unfold synonym_hits_own_tag in H. simpl in H.
  destruct (map_header k) as [w|]; [|discriminate].
  apply String.eqb_eq in H. congruence.
Qed.

(** A header that equals a synonym of the table once stripped and
    lower-cased gets that synonym's tag: the exact lookup shields it from
    earlier entries that merely contain it ("leje" is contained in the earlier
    "lejemål"). *)
Theorem exact_synonym_wins (headers : list cell) (c : cell) (k v : string) :
  In c headers -> is_none c = false ->
  In (k, v) COLUMN_MAPPING -> Text.lower (header_key c) = k ->
  map_columns headers !! header_key c = Some v.
Proof.
  intros Hin Hc Hkv Hk.
  rewrite (map_columns_lookup headers c Hin Hc), Hk.
  apply synonyms_hit_own_tag, Hkv.
Qed.

Lemma exact_synonym_wins_witness :
  let c := CStr "  LEJE " in
  In c [CStr "Lejemål"; c] /\
  In ("leje", "annual_rent")%string COLUMN_MAPPING /\
  Text.contains "leje" "lejemål" = true /\
  map_columns [CStr "Lejemål"; c] !! "LEJE"%string = Some "annual_rent"%string.
Proof.
  cbv zeta.
  assert (Hin : In (CStr "  LEJE ") [CStr "Lejemål"; CStr "  LEJE "])
    by (right; left; reflexivity).
  assert (Hkv : In ("leje", "annual_rent")%string COLUMN_MAPPING).
  { apply list_elem_of_In. vm_compute. repeat (first [left|right]). }
  split; [exact Hin|]. split; [exact Hkv|]. split; [reflexivity|].
  exact (exact_synonym_wins _ (CStr "  LEJE ") _ _ Hin eq_refl Hkv eq_refl).
Defined.

Lemma first_synonym_contains (h : string) :
  Text.contains h "lejnr" = true -> exact_lookup COLUMN_MAPPING h = None ->
  map_header h = Some "unit_id"%string.
Proof.
  intros Hc He. unfold map_header. rewrite He.
  change (partial_lookup COLUMN_MAPPING h)
    with (if Text.contains "lejnr" h || Text.contains h "lejnr"
          then Some "unit_id"%string else partial_lookup (tl COLUMN_MAPPING) h).
  rewrite Hc, orb_true_r. reflexivity.
Qed.

(** A header whose lower-cased text is not a synonym but is contained in
    "lejnr", the first synonym of the table, is tagged unit_id.  This holds
    in particular for every header cell that is blank: the empty string is
    contained in every synonym. *)
Theorem header_inside_first_synonym (headers : list cell) (c : cell) :
  In c headers -> is_none c = false ->
  (header_key c = ""%string \/
   (Text.contains (Text.lower (header_key c)) "lejnr" = true /\
    exact_lookup COLUMN_MAPPING (Text.lower (header_key c)) = None)) ->
  map_columns headers !! header_key c = Some "unit_id"%string.
Proof.
  intros Hin Hc Hcase.
  rewrite (map_columns_lookup headers c Hin Hc).
  destruct Hcase as [->|[Hsub Hex]]; [reflexivity|].
  apply first_synonym_contains; assumption.
Qed.

Lemma header_inside_first_synonym_witness :
  let headers := [CStr "Areal"; CStr "  "; CStr "E"] in
  map_columns headers !! ""%string = Some "unit_id"%string /\
  map_columns headers !! "E"%string = Some "unit_id"%string.
Proof.
  cbv zeta. split.
  - apply (header_inside_first_synonym _ (CStr "  "));
      [right; left; reflexivity|reflexivity|left; reflexivity].
  - apply (header_inside_first_synonym _ (CStr "E"));
      [right; right; left; reflexivity|reflexivity|right; split; reflexivity].
Defined.

Lemma step_keys_from_headers (done : list cell) (m : gmap string string) (c : cell) :
  keys_from_headers done m -> keys_from_headers (done ++ [c]) (map_columns_step m c).
Proof.
  intros Hm k v. unfold map_columns_step.
  assert (Hold : m !! k = Some v ->
            exists c0, In c0 (done ++ [c]) /\ is_none c0 = false /\ header_key c0 = k).
  { intros H. destruct (Hm k v H) as (c0 & Hin & Hn & Hk).
    exists c0. split; [apply in_or_app; left; exact Hin|]. split; assumption. }
  destruct (is_none c) eqn:Hc; [exact Hold|].
  destruct (map_header (Text.lower (Text.strip (cell_text c)))) as [t|]; [|exact Hold].
  destruct (decide (Text.strip (cell_text c) = k)) as [Heq|Hne].
  - intros _. exists c. split; [apply in_or_app; right; left; reflexivity|].
    split; [exact Hc|exact Heq].
  - rewrite lookup_insert_ne by exact Hne. exact Hold.
Qed.

Lemma fold_keys_from_headers (todo done : list cell) (m : gmap string string) :
  keys_from_headers done m ->
  keys_from_headers (done ++ todo) (fold_left map_columns_step todo m).
Proof.
  revert done m. induction todo as [|c todo IH]; intros done m Hm; simpl.
  - rewrite app_nil_r. exact Hm.
  - replace (done ++ c :: todo) with ((done ++ [c]) ++ todo)
      by (rewrite <- app_assoc; reflexivity).
    apply IH, step_keys_from_headers, Hm.
Qed.

Lemma map_columns_keys (headers : list cell) :
  keys_from_headers headers (map_columns headers).
Proof.
  apply (fold_keys_from_headers headers [] ∅).
  intros k v. rewrite lookup_empty. discriminate.
Qed.

Section Strip.
Import Text.

Lemma lstrip_head (s : string) :
  match lstrip s with
  | EmptyString => True
  | String a _ => is_space a = false
  end.
Proof.
  induction s as [|a s IH]; simpl; [exact I|].
  destruct (is_space a) eqn:E; [exact IH|exact E].
Qed.

Lemma rstrip_keeps_head (a : ascii) (s : string) :
  is_space a = false -> exists r, rstrip (String a s) = String a r.
Proof.
  intros Ha. simpl. destruct (rstrip s) as [|b r].
  - rewrite Ha. eexists. reflexivity.
  - eexists. reflexivity.
Qed.

Lemma rstrip_idempotent (s : string) : rstrip (rstrip s) = rstrip s.
Proof.
  induction s as [|a s IH]; simpl; [reflexivity|].
  destruct (rstrip s) as [|b r] eqn:E.
  - destruct (is_space a) eqn:Ha; simpl; [reflexivity|]. rewrite Ha. reflexivity.
  - simpl in IH. simpl. destruct (rstrip r) as [|b' r'] eqn:E'.
    + destruct (is_space b); [discriminate|]. rewrite IH. reflexivity.
    + rewrite IH. reflexivity.
Qed.

(** [strip] is idempotent. *)
Lemma strip_idempotent (s : string) : strip (strip s) = strip s.
Proof.
  unfold strip. pose proof (lstrip_head s) as Hh.
  destruct (lstrip s) as [|a t] eqn:E; [reflexivity|].
  destruct (rstrip_keeps_head a t Hh) as (r & Hr). rewrite Hr.
  simpl lstrip. rewrite Hh. rewrite <- Hr. apply rstrip_idempotent.
Qed.

End Strip.

Lemma mapping_key_facts (headers : list cell) (k v : string) :
  map_columns headers !! k = Some v ->
  (exists c, In c headers /\ is_none c = false /\ Text.strip (cell_text c) = k) /\
  Text.strip k = k.
Proof.
  intros H. destruct (map_columns_keys headers k v H) as (c & Hin & Hc & Hk).
  split; [exists c; repeat split; assumption|].
  rewrite <- Hk. unfold header_key. apply strip_idempotent.
Qed.

(** The mapping holds nothing but header cells: every key is the stripped
    text of a header cell that is not [None], and is itself free of
    surrounding whitespace. *)
Theorem mapping_keys_are_stripped_headers (headers : list cell) (k v : string) :
  map_columns headers !! k = Some v ->
  (exists c, In c headers /\ is_none c = false /\ Text.strip (cell_text c) = k) /\
  Text.strip k = k.
Proof. apply mapping_key_facts. Qed.

Lemma mapping_keys_are_stripped_headers_witness :
  map_columns [CStr " Areal "; CNone] !! "Areal"%string = Some "sqm"%string /\
  Text.strip "Areal" = "Areal"%string.
Proof.
  assert (H : map_columns [CStr " Areal "; CNone] !! "Areal"%string = Some "sqm"%string)
    by (vm_compute; reflexivity).
  split; [exact H|]. exact (proj2 (mapping_keys_are_stripped_headers _ _ _ H)).
Defined.

(** The aggregator looks the columns up by their unstripped text, so it
    resolves a standard name only to a column whose header text has no
    surrounding whitespace: a mapped header such as " Areal " is stored
    under "Areal" and never found again. *)
Theorem resolved_columns_have_stripped_headers (headers : list cell) (tag : string)
    (i : nat) :
  standard_to_idx (map cell_text headers) (map_columns headers) !! tag = Some i ->
  exists col, map cell_text headers !! i = Some col /\ Text.strip col = col /\
              map_columns headers !! col = Some tag.
Proof.
  intros H. pose proof (idx_of_columns (map cell_text headers) (map_columns headers) tag)
    as Hinv. unfold idx_inv in Hinv. rewrite H in Hinv.
  destruct Hinv as [(col & Hi & Hm) _].
  exists col. split; [exact Hi|]. split; [|exact Hm].
  apply (mapping_key_facts headers col tag Hm).
Qed.

Lemma resolved_columns_have_stripped_headers_witness :
  let headers := [CStr "Lejnr"; CStr " Areal "; CStr "Leje"] in
  standard_to_idx (map cell_text headers) (map_columns headers) !! "annual_rent"%string
    = Some 2 /\
  standard_to_idx (map cell_text headers) (map_columns headers) !! "sqm"%string = None /\
  map_columns headers !! "Areal"%string = Some "sqm"%string /\
  exists col, map cell_text headers !! 2 = Some col /\ Text.strip col = col.
Proof.
  cbv zeta.
  assert (H : standard_to_idx (map cell_text [CStr "Lejnr"; CStr " Areal "; CStr "Leje"])
                (map_columns [CStr "Lejnr"; CStr " Areal "; CStr "Leje"])
                !! "annual_rent"%string = Some 2) by (vm_compute; reflexivity).
  split; [exact H|]. split; [vm_compute; reflexivity|].
  split; [vm_compute; reflexivity|].
  destruct (resolved_columns_have_stripped_headers _ _ _ H) as (col & H1 & H2 & _).
  exists col. split; assumption.
Defined.

(** ** Header locator: the shape of an accepted header *)

Lemma count_if_le {A : Type} (p q : A -> bool) (l : list A) :
  (forall x, p x = true -> q x = true) -> count_if p l <= count_if q l.
Proof.
  intros Hpq. induction l as [|x l IH]; simpl; [lia|].
  destruct (p x) eqn:E; [rewrite (Hpq x E); lia|].
  destruct (q x); lia.
Qed.

Lemma keyword_cell_not_empty (c : string) :
  Text.contains_any HEADER_KEYWORDS c = true -> negb (Text.is_empty c) = true.
Proof. destruct c; [vm_compute; discriminate|reflexivity]. Qed.

(** A score of at least 2 needs a keyword cell and two non-empty cells. *)
Lemma row_score_two (r : row) :
  2 <= row_score r ->
  1 <= count_if (Text.contains_any HEADER_KEYWORDS) (lowered_cells r) /\
  2 <= count_if (fun c => negb (Text.is_empty c)) (lowered_cells r).
Proof.
  unfold row_score.
  pose proof (count_if_le (Text.contains_any HEADER_KEYWORDS)
                (fun c => negb (Text.is_empty c)) (lowered_cells r)
                keyword_cell_not_empty) as Hle.
  destruct (Nat.leb_spec 3
              (count_if (fun c => negb (Text.is_empty c)) (lowered_cells r)));
    lia.
Qed.

Lemma find_header_row_ok (rows : list row) (i : nat) (r : row) :
  find_header_row rows = Ok (i, r) ->
  take max_rows rows !! i = Some r /\ 2 <= row_score r.
Proof.
  unfold find_header_row.
  pose proof (header_scan_inv (take max_rows rows) [] _ scan_inv_initial) as [_ Hbest].
  simpl in Hbest.
  destruct (Nat.ltb_spec (best_score (header_scan (mkBest 0 None) 0 (take max_rows rows))) 2)
    as [Hlt|Hge]; [discriminate|].
  destruct (best_row _) as [[i0 r0]|]; [|discriminate].
  intros [= -> ->]. destruct Hbest as (Hi & Hsc & _). split; [exact Hi|lia].
Qed.

(** An accepted header is one of the first 15 rows of the table, holds at
    least one cell with a header keyword and at least two non-empty cells. *)
Theorem accepted_header_shape (rows : list row) (i : nat) (r : row) :
  find_header_row rows = Ok (i, r) ->
  i < 15 /\ rows !! i = Some r /\
  1 <= count_if (Text.contains_any HEADER_KEYWORDS) (lowered_cells r) /\
  2 <= count_if (fun c => negb (Text.is_empty c)) (lowered_cells r).
Proof.
  intros H. apply find_header_row_ok in H as [Hi Hsc].
  apply lookup_take_Some in Hi as [Hi Hlt].
  split; [exact Hlt|]. split; [exact Hi|]. apply row_score_two, Hsc.
Qed.

Lemma accepted_header_shape_witness :
  let table := [ [CStr "Ejendom: Nygade 4"]; [CStr "Lejnr"; CStr "Areal"; CStr "Leje"];
                 [CStr "A1"; CStr "50"; CStr "1000"] ] in
  find_header_row table = Ok (1, [CStr "Lejnr"; CStr "Areal"; CStr "Leje"]) /\
  table !! 1 = Some [CStr "Lejnr"; CStr "Areal"; CStr "Leje"].
Proof.
  cbv zeta.
  assert (H : find_header_row
            [ [CStr "Ejendom: Nygade 4"]; [CStr "Lejnr"; CStr "Areal"; CStr "Leje"];
              [CStr "A1"; CStr "50"; CStr "1000"] ]
          = Ok (1, [CStr "Lejnr"; CStr "Areal"; CStr "Leje"])) by reflexivity.
  split; [exact H|].
  exact (proj1 (proj2 (accepted_header_shape _ _ _ H))).
Defined.

(** The locator never looks past the fifteenth row. *)
Lemma find_header_row_window (rows more : list row) :
  15 <= length rows -> find_header_row (rows ++ more) = find_header_row rows.
Proof.
  intros Hlen. unfold find_header_row, max_rows.
  rewrite take_app_le by exact Hlen. reflexivity.
Qed.

(** ** Numeric normalizer: tokens, digits and plain numbers *)

Section Tokens.
Import Text.

Lemma strip_currency_token (a : ascii) (s : string) :
  is_token_char a = true -> strip_currency (String a s) = strip_currency s.
Proof.
  unfold is_token_char. intros Ha.
  change (strip_currency (String a s)) with
    (if Ascii.eqb a "k" || Ascii.eqb a "K" || Ascii.eqb a "r" || Ascii.eqb a "R"
        || is_space a || Ascii.eqb a "$"
     then strip_currency s
     else String a (strip_currency s)).
  rewrite Ha. reflexivity.
Qed.

Lemma strip_currency_other (a : ascii) (s : string) :
  is_token_char a = false ->
  strip_currency (String a s) = String a (strip_currency s).
Proof.
  unfold is_token_char. intros Ha.
  change (strip_currency (String a s)) with
    (if Ascii.eqb a "k" || Ascii.eqb a "K" || Ascii.eqb a "r" || Ascii.eqb a "R"
        || is_space a || Ascii.eqb a "$"
     then strip_currency s
     else String a (strip_currency s)).
  rewrite Ha. reflexivity.
Qed.

Lemma space_is_token (a : ascii) : is_space a = true -> is_token_char a = true.
Proof.
  unfold is_token_char. intros ->. rewrite orb_true_r. reflexivity.
Qed.

Lemma strip_currency_tokens (w : string) :
  all_token_chars w = true -> strip_currency w = EmptyString.
Proof.
  induction w as [|a w IH]; [reflexivity|]. simpl all_token_chars.
  intros H. apply andb_true_iff in H as [Ha Hw].
  rewrite strip_currency_token by exact Ha. apply IH, Hw.
Qed.

Lemma strip_currency_prefix (p s : string) :
  all_token_chars p = true -> strip_currency (p ++ s) = strip_currency s.
Proof.
  induction p as [|a p IH]; [reflexivity|]. simpl all_token_chars.
  intros H. apply andb_true_iff in H as [Ha Hp].
  change (String a p ++ s)%string with (String a (p ++ s)).
  rewrite strip_currency_token by exact Ha. apply IH, Hp.
Qed.

Lemma strip_currency_suffix (y w : string) :
  all_token_chars w = true -> strip_currency (y ++ w) = strip_currency y.
Proof.
  intros Hw. induction y as [|a y IH].
  - apply strip_currency_tokens, Hw.
  - change (String a y ++ w)%string with (String a (y ++ w)).
    destruct (is_token_char a) eqn:Ha.
    + rewrite !strip_currency_token by exact Ha. exact IH.
    + rewrite !strip_currency_other by exact Ha. rewrite IH. reflexivity.
Qed.

Lemma strip_currency_lstrip (s : string) :
  strip_currency (lstrip s) = strip_currency s.
Proof.
  induction s as [|a s IH]; [reflexivity|]. simpl lstrip.
  destruct (is_space a) eqn:Ha; [|reflexivity].
  rewrite (strip_currency_token a s (space_is_token a Ha)). exact IH.
Qed.

Lemma rstrip_split (s : string) :
  exists w, s = (rstrip s ++ w)%string /\ all_token_chars w = true.
Proof.
  induction s as [|a s (w & Hs & Hw)]; [exists EmptyString; split; reflexivity|].
  simpl rstrip. destruct (rstrip s) as [|b r] eqn:E.
  - destruct (is_space a) eqn:Ha.
    + exists (String a w). split.
      * change (String a s = String a w). f_equal. exact Hs.
      * simpl. rewrite (space_is_token a Ha). exact Hw.
    + exists w. split; [|exact Hw].
      change (String a s = String a (EmptyString ++ w)%string). f_equal. exact Hs.
  - exists w. split; [|exact Hw].
    change (String a (String b r) ++ w)%string with (String a (String b r ++ w)).
    f_equal. exact Hs.
Qed.

Lemma strip_currency_strip (s : string) :
  strip_currency (strip s) = strip_currency s.
Proof.
  unfold strip. destruct (rstrip_split (lstrip s)) as (w & Hs & Hw).
  rewrite <- (strip_currency_lstrip s).
  rewrite Hs at 2. rewrite strip_currency_suffix by exact Hw. reflexivity.
Qed.

(** The normalizer sees its text only through [strip_currency]. *)
Lemma convert_danish_text_normal_form (v : string) :
  convert_danish_text v =
  if has_digit (strip_currency v)
  then Float.float_of_text (danish_separators (strip_currency v))
  else None.
Proof.
  unfold convert_danish_text. rewrite strip_currency_strip.
  destruct (is_empty (strip v)) eqn:E.
  - destruct (strip v) eqn:Es; [|discriminate].
    rewrite <- (strip_currency_strip v), Es. reflexivity.
  - destruct (has_digit (strip_currency v)); reflexivity.
Qed.

Lemma has_digit_strip_currency (s : string) :
  has_digit (strip_currency s) = true -> has_digit s = true.
Proof.
  induction s as [|a s IH]; [intros H; exact H|].
  destruct (is_token_char a) eqn:Ha.
  - rewrite strip_currency_token by exact Ha. intros H.
    simpl. rewrite (IH H). apply orb_true_r.
  - rewrite strip_currency_other by exact Ha. simpl. intros H.
    apply orb_true_iff in H as [H|H].
    + rewrite H. reflexivity.
    + rewrite (IH H). apply orb_true_r.
Qed.

End Tokens.

(** Whitespace, the letters k and r (in either case) and the dollar sign may
    stand before and after a number without changing the result. *)
Theorem currency_tokens_are_ignored (p s w : string) :
  all_token_chars p = true -> all_token_chars w = true ->
  convert_danish_number (VStr (p ++ s ++ w)) = convert_danish_number (VStr s).
Proof.
  intros Hp Hw. unfold convert_danish_number.
  rewrite !convert_danish_text_normal_form.
  rewrite strip_currency_prefix by exact Hp.
  rewrite strip_currency_suffix by exact Hw. reflexivity.
Qed.

Lemma currency_tokens_are_ignored_witness :
  all_token_chars "Kr. " = false /\
  all_token_chars "kr " = true /\ all_token_chars " $" = true /\
  convert_danish_number (VStr "kr 72.000 $") = convert_danish_number (VStr "72.000").
Proof.
  split; [reflexivity|]. split; [reflexivity|]. split; [reflexivity|].
  exact (currency_tokens_are_ignored "kr " "72.000" " $" eq_refl eq_refl).
Defined.

(** Text without a digit 0..9 is never a number: the result is null. *)
Theorem text_without_digit_is_null (s : string) :
  Text.has_digit s = false ->
  convert_danish_number (VStr s) = None /\
  convert_danish_number_any (PStr s) = Returns None.
Proof.
  intros H.
  assert (E : convert_danish_text s = None).
  { rewrite convert_danish_text_normal_form.
    destruct (Text.has_digit (strip_currency s)) eqn:E; [|reflexivity].
    apply has_digit_strip_currency in E. congruence. }
  split; [exact E|]. simpl. rewrite E. reflexivity.
Qed.

Lemma text_without_digit_is_null_witness :
  Text.has_digit "ledig" = false /\
  convert_danish_number (VStr "ledig") = None /\
  convert_danish_number_any (PStr "ledig") = Returns None.
Proof.
  split; [reflexivity|]. exact (text_without_digit_is_null "ledig" eq_refl).
Defined.

Section Digits.
Import Text.

(** A digit is no token character, no whitespace, no sign, no period and no
    comma. *)
Lemma digit_char_facts (a : ascii) :
  is_digit a = true ->
  is_token_char a = false /\ is_space a = false /\
  Float.is_float_space a = false /\
  Ascii.eqb a "." = false /\ Ascii.eqb a "," = false /\
  Float.sign (String a EmptyString) = (1%Z, String a EmptyString).
Proof.
  destruct a as [b0 b1 b2 b3 b4 b5 b6 b7].
  destruct b0, b1, b2, b3, b4, b5, b6, b7; vm_compute; intros H;
    first [discriminate H | repeat split; reflexivity].
Qed.

Lemma sign_of_digit (a : ascii) (s : string) :
  is_digit a = true -> Float.sign (String a s) = (1%Z, String a s).
Proof.
  destruct a as [b0 b1 b2 b3 b4 b5 b6 b7].
  destruct b0, b1, b2, b3, b4, b5, b6, b7; vm_compute; intros H;
    first [discriminate H | reflexivity].
Qed.

Lemma strip_currency_digits (s : string) :
  all_digits s = true -> strip_currency s = s.
Proof.
  induction s as [|a s IH]; [reflexivity|]. simpl all_digits.
  intros H. apply andb_true_iff in H as [Ha Hs].
  destruct (digit_char_facts a Ha) as (Ht & _).
  rewrite strip_currency_other by exact Ht. rewrite IH by exact Hs. reflexivity.
Qed.

Lemma digits_have_no_char (c : ascii) (s : string) :
  is_digit c = false -> all_digits s = true -> has_char c s = false.
Proof.
  intros Hc. induction s as [|a s IH]; [reflexivity|]. simpl.
  intros H. apply andb_true_iff in H as [Ha Hs].
  rewrite (IH Hs), orb_false_r.
  destruct (Ascii.eqb_spec a c) as [->|]; [congruence|reflexivity].
Qed.

Lemma digits_have_digit (s : string) :
  all_digits s = true -> s <> EmptyString -> has_digit s = true.
Proof.
  destruct s as [|a s]; [congruence|]. simpl.
  intros H _. apply andb_true_iff in H as [-> _]. reflexivity.
Qed.

Lemma rstrip_digits (s : string) : all_digits s = true -> rstrip s = s.
Proof.
  induction s as [|a s IH]; [reflexivity|]. simpl.
  intros H. apply andb_true_iff in H as [Ha Hs]. rewrite (IH Hs).
  destruct (digit_char_facts a Ha) as (_ & -> & _). destruct s; reflexivity.
Qed.

Lemma strip_digits (s : string) : all_digits s = true -> strip s = s.
Proof.
  intros H. unfold strip.
  assert (Hl : lstrip s = s).
  { destruct s as [|a s]; [reflexivity|]. simpl in *.
    apply andb_true_iff in H as [Ha _].
    destruct (digit_char_facts a Ha) as (_ & -> & _). reflexivity. }
  rewrite Hl. apply rstrip_digits, H.
Qed.

Lemma rtrim_digits (s : string) : all_digits s = true -> Float.rtrim s = s.
Proof.
  induction s as [|a s IH]; [reflexivity|]. simpl.
  intros H. apply andb_true_iff in H as [Ha Hs]. rewrite (IH Hs).
  destruct (digit_char_facts a Ha) as (_ & _ & -> & _). destruct s; reflexivity.
Qed.

Lemma trim_digits (s : string) : all_digits s = true -> Float.trim s = s.
Proof.
  intros H. unfold Float.trim.
  assert (Hl : Float.ltrim s = s).
  { destruct s as [|a s]; [reflexivity|]. simpl in *.
    apply andb_true_iff in H as [Ha _].
    destruct (digit_char_facts a Ha) as (_ & _ & -> & _). reflexivity. }
  rewrite Hl. apply rtrim_digits, H.
Qed.

Lemma digits_tail_all (s : string) :
  all_digits s = true ->
  forall acc n,
    Float.digits_tail acc n s = (digits_value_from acc s, n + String.length s, EmptyString).
Proof.
  induction s as [|a s IH]; intros H acc n.
  - simpl. rewrite Nat.add_0_r. reflexivity.
  - simpl in H. apply andb_true_iff in H as [Ha Hs].
    simpl. unfold Float.digit_value. rewrite Ha.
    rewrite (IH Hs). f_equal. f_equal. lia.
Qed.

Lemma all_digits_app (a b : string) :
  all_digits (a ++ b) = all_digits a && all_digits b.
Proof.
  induction a as [|x a IH]; [reflexivity|].
  change (String x a ++ b)%string with (String x (a ++ b)).
  simpl. rewrite IH, andb_assoc. reflexivity.
Qed.

Lemma Qred_inject_Z (v : Z) : Qred (inject_Z v) = inject_Z v.
Proof.
  unfold Qred, inject_Z.
  pose proof (Z.ggcd_gcd v 1) as Hg.
  pose proof (Z.ggcd_correct_divisors v 1) as Hd.
  destruct (Z.ggcd v 1) as [g [a b]]. simpl in Hg, Hd.
  rewrite Z.gcd_1_r in Hg. subst g. destruct Hd as [Hv Hb].
  rewrite Z.mul_1_l in Hv, Hb. subst a b. reflexivity.
Qed.

(** [float()] on a run of digits yields the integer it denotes. *)
Lemma float_of_digits (s : string) :
  all_digits s = true -> s <> EmptyString ->
  Float.float_of_text s = Some (inject_Z (digits_value s)).
Proof.
  intros H Hne. unfold Float.float_of_text. rewrite (trim_digits s H).
  destruct s as [|a s]; [congruence|].
  pose proof H as H'. simpl in H'. apply andb_true_iff in H' as [Ha Hs].
  rewrite (sign_of_digit a s Ha).
  unfold Float.number, Float.digitpart, Float.digit_value. rewrite Ha.
  rewrite (digits_tail_all s Hs). cbv beta iota.
  change (Float.exponent "") with (Some (0%Z, EmptyString)). cbv beta iota.
  f_equal. rewrite Z.mul_1_l.
  change (Qpower 10 (0 - Z.of_nat 0)) with 1%Q.
  unfold digits_value. simpl digits_value_from.
  set (v := digits_value_from _ s).
  transitivity (Qred (inject_Z v)).
  - apply Qred_complete. ring.
  - apply Qred_inject_Z.
Qed.

End Digits.

(** The number a run of digits denotes, before rounding. *)
Lemma digit_runs_exact :
  (forall s, Text.all_digits s = true -> s <> EmptyString ->
     convert_danish_number (VStr s) = Some (inject_Z (digits_value s))) /\
  (forall before after,
     Text.all_digits before = true -> Text.all_digits after = true ->
     String.length before <= 3 -> String.length after = 3 ->
     convert_danish_number (VStr (one_period before after)) =
     Some (inject_Z (digits_value (before ++ after)%string))).
Proof.
  split.
  - intros s H Hne. unfold convert_danish_number.
    rewrite convert_danish_text_normal_form, (strip_currency_digits s H).
    rewrite (digits_have_digit s H Hne).
    assert (Hsep : danish_separators s = s).
    { unfold danish_separators.
      rewrite (digits_have_no_char "," s eq_refl H).
      assert (Hc : Text.count_char "." s = 0)
        by (apply count_char_absent, digits_have_no_char; [reflexivity|exact H]).
      rewrite Hc. reflexivity. }
    rewrite Hsep. apply float_of_digits; assumption.
  - intros before after Hb Ha Hlb Hla. unfold convert_danish_number.
    rewrite convert_danish_text_normal_form.
    assert (Hplain : strip_currency (one_period before after) = one_period before after).
    { unfold one_period.
      induction before as [|x before IH].
      - change (EmptyString ++ String "." after)%string with (String "." after).
        rewrite strip_currency_other by reflexivity.
        rewrite (strip_currency_digits after Ha). reflexivity.
      - simpl in Hb. apply andb_true_iff in Hb as [Hx Hb].
        change (String x before ++ String "." after)%string
          with (String x (before ++ String "." after)).
        destruct (digit_char_facts x Hx) as (Ht & _).
        rewrite strip_currency_other by exact Ht.
        rewrite IH; [reflexivity|exact Hb|simpl in Hlb; lia]. }
    rewrite Hplain.
    assert (Hd : Text.has_digit (one_period before after) = true).
    { unfold one_period. clear -Ha Hla.
      induction before as [|x before IH].
      - change (EmptyString ++ String "." after)%string with (String "." after).
        simpl. apply digits_have_digit; [exact Ha|]. destruct after; [discriminate|congruence].
      - change (String x before ++ String "." after)%string
          with (String x (before ++ String "." after)).
        simpl. rewrite IH. apply orb_true_r. }
    rewrite Hd.
    rewrite (separators_thousands before after);
      try (apply digits_have_no_char; [reflexivity|assumption]); try assumption.
    apply float_of_digits.
    + rewrite all_digits_app, Hb, Ha. reflexivity.
    + destruct after; [discriminate|]. destruct before; discriminate.
Qed.

(** ** Rounding leaves small integers alone *)

Lemma round_half_even_whole (m : Z) : Double.round_half_even m 1 = m.
Proof.
  unfold Double.round_half_even. cbv zeta.
  rewrite Z.mod_1_r, Z.div_1_r. reflexivity.
Qed.

Lemma scaled_whole (v e : Z) :
  (e <= 0)%Z -> Double.scaled v 1 e = ((v * 2 ^ (- e))%Z, 1%Z).
Proof.
  intros He. unfold Double.scaled.
  destruct (Z.leb_spec 0%Z e) as [H|H]; [|reflexivity].
  assert (e = 0%Z) by lia. subst e. change (- 0)%Z with 0%Z.
  rewrite Z.pow_0_r, !Z.mul_1_r. reflexivity.
Qed.

Lemma last_place_small (v : Z) :
  (0 < v < 2 ^ 53)%Z -> Double.last_place v 1 = (Z.log2 v - 52)%Z.
Proof.
  intros [Hpos Hlt]. unfold Double.last_place. cbv zeta.
  change (Z.log2 1) with 0%Z. rewrite Z.sub_0_r.
  pose proof (Z.log2_nonneg v) as Hk.
  pose proof (Z.log2_spec v Hpos) as [Hlo _].
  assert (Hk53 : (Z.log2 v < 53)%Z) by (apply Z.log2_lt_pow2; lia).
  unfold Double.scaled. destruct (Z.leb_spec 0%Z (Z.log2 v)) as [_|]; [|lia].
  rewrite Z.mul_1_l.
  destruct (Z.leb_spec (2 ^ Z.log2 v) v) as [_|]; [|lia].
  lia.
Qed.

Lemma round_small_integer (v : Z) :
  (0 <= v < 2 ^ 53)%Z -> Double.round (inject_Z v) = Double.Finite (inject_Z v).
Proof.
  intros [H0 Hlt]. unfold Double.round. cbv zeta.
  change (Qnum (inject_Z v)) with v. change (Z.pos (Qden (inject_Z v))) with 1%Z.
  rewrite Z.abs_eq by exact H0.
  destruct (Z.eqb_spec v 0%Z) as [->|Hne]; [reflexivity|].
  assert (Hpos : (0 < v)%Z) by lia.
  rewrite (last_place_small v (conj Hpos Hlt)).
  pose proof (Z.log2_nonneg v) as Hk.
  assert (Hk53 : (Z.log2 v < 53)%Z) by (apply Z.log2_lt_pow2; lia).
  set (e := (Z.log2 v - 52)%Z).
  assert (He : (e <= 0)%Z) by (unfold e; lia).
  rewrite (scaled_whole v e He), round_half_even_whole.
  destruct (Z.ltb_spec v 0%Z) as [|_]; [lia|].
  assert (Hover : (2 ^ 1024 <=? v * 2 ^ (- e) * 2 ^ e)%Z = false).
  { apply Z.leb_gt. destruct (Z.eq_dec e 0%Z) as [E0|E0].
    - rewrite E0. simpl (2 ^ (- 0))%Z. simpl (2 ^ 0)%Z. rewrite !Z.mul_1_r.
      eapply Z.lt_trans; [exact Hlt|]. apply Z.pow_lt_mono_r; lia.
    - rewrite (Z.pow_neg_r 2 e) by lia. rewrite Z.mul_0_r. apply Z.pow_pos_nonneg; lia. }
  rewrite Hover. f_equal.
  transitivity (Qred (inject_Z v)); [|apply Qred_inject_Z].
  apply Qred_complete.
  rewrite inject_Z_mult, (Zpower_Qpower 2 (- e)) by lia.
  assert (Hinv : (Qpower 2 e == / Qpower (inject_Z 2) (- e))%Q).
  { rewrite <- Qpower_opp, Z.opp_involutive. reflexivity. }
  rewrite Hinv, <- Qmult_assoc, Qmult_inv_r, Qmult_1_r; [reflexivity|].
  apply Qpower_not_0. discriminate.
Qed.

Lemma digits_value_from_bound (s : string) :
  Text.all_digits s = true ->
  forall acc, (0 <= acc)%Z ->
    (0 <= digits_value_from acc s < (acc + 1) * 10 ^ Z.of_nat (String.length s))%Z.
Proof.
  induction s as [|a s IH]; intros H acc Hacc.
  - simpl. lia.
  - simpl in H. apply andb_true_iff in H as [Ha Hs].
    assert (Hd : (0 <= Z.of_N (Text.code a) - 48 <= 9)%Z).
    { unfold Text.is_digit in Ha. cbv zeta in Ha.
      apply andb_true_iff in Ha as [H1 H2].
      apply N.leb_le in H1, H2. lia. }
    simpl digits_value_from.
    specialize (IH Hs (10 * acc + (Z.of_N (Text.code a) - 48))%Z ltac:(lia)).
    change (String.length (String a s)) with (S (String.length s)).
    rewrite Nat2Z.inj_succ, Z.pow_succ_r by lia.
    split; [lia|]. nia.
Qed.

Lemma digits_value_small (s : string) :
  Text.all_digits s = true -> String.length s <= 15 ->
  (0 <= digits_value s < 2 ^ 53)%Z.
Proof.
  intros H Hlen. unfold digits_value.
  pose proof (digits_value_from_bound s H 0%Z ltac:(lia)) as [H0 H1].
  split; [exact H0|].
  eapply Z.lt_le_trans; [exact H1|].
  transitivity (10 ^ 15)%Z; [|vm_compute; discriminate].
  rewrite Z.mul_1_l. apply Z.pow_le_mono_r; lia.
Qed.

Lemma string_length_app (a b : string) :
  String.length (a ++ b) = String.length a + String.length b.
Proof.
  induction a as [|x a IH]; [reflexivity|].
  change (String x a ++ b)%string with (String x (a ++ b)). simpl. rewrite IH. reflexivity.
Qed.

(** A run of at most fifteen digits is the integer it denotes, as a float,
    and so is a run of at most three digits, a period and exactly three
    digits: the period is a thousands separator ("72.000" is 72000, "1.500"
    is 1500).  Fifteen digits stay below 2^53, so no rounding occurs. *)
Theorem digit_runs_are_integers :
  (forall s, Text.all_digits s = true -> s <> EmptyString ->
     String.length s <= 15 ->
     convert_danish_number_any (PStr s) =
     Returns (Some (Double.Finite (inject_Z (digits_value s))))) /\
  (forall before after,
     Text.all_digits before = true -> Text.all_digits after = true ->
     String.length before <= 3 -> String.length after = 3 ->
     convert_danish_number_any (PStr (one_period before after)) =
     Returns (Some (Double.Finite (inject_Z (digits_value (before ++ after)%string))))).
Proof.
  destruct digit_runs_exact as [Hplain Hgroup]. split.
  - intros s H Hne Hlen. simpl.
    change (convert_danish_text s) with (convert_danish_number (VStr s)).
    rewrite (Hplain s H Hne). simpl.
    rewrite (round_small_integer _ (digits_value_small s H Hlen)). reflexivity.
  - intros before after Hb Ha Hlb Hla. simpl.
    change (convert_danish_text (one_period before after))
      with (convert_danish_number (VStr (one_period before after))).
    rewrite (Hgroup before after Hb Ha Hlb Hla). simpl.
    rewrite round_small_integer; [reflexivity|].
    apply digits_value_small.
    + rewrite all_digits_app, Hb, Ha. reflexivity.
    + rewrite string_length_app. lia.
Qed.

Lemma digit_runs_are_integers_witness :
  convert_danish_number_any (PStr "1500") = Returns (Some (Double.Finite (inject_Z 1500))) /\
  convert_danish_number_any (PStr (one_period "1" "500")) =
    Returns (Some (Double.Finite (inject_Z 1500))).
Proof.
  destruct digit_runs_are_integers as [Hplain Hgroup]. split.
  - apply (Hplain "1500"%string); [reflexivity|discriminate|simpl; lia].
  - apply (Hgroup "1" "500")%string; try reflexivity; simpl; lia.
Defined.

(** ** Row categorizer *)

Lemma categorize_normal_form (s : string) :
  categorize_unit_type s =
  let val_lower := Text.strip (Text.lower s) in
  if Text.contains_any UNIT_TYPE_BOLIG val_lower then bolig
  else if Text.contains_any UNIT_TYPE_ERHVERV val_lower then erhverv
  else if Text.contains_any UNIT_TYPE_PARKERING val_lower then parkering
  else andet.
Proof.
  unfold categorize_unit_type. destruct s; [vm_compute; reflexivity|].
  cbv beta iota delta [Text.is_empty]. reflexivity.
Qed.

Lemma vacant_normal_form (s : string) :
  is_unit_vacant s = Text.contains_any VACANCY_KEYWORDS (Text.strip (Text.lower s)).
Proof.
  unfold is_unit_vacant. destruct s; [vm_compute; reflexivity|].
  cbv beta iota delta [Text.is_empty]. reflexivity.
Qed.

(** Letter case and surrounding whitespace never change the category of a
    unit type or the vacancy flag of a status, and a blank value is treated
    like an empty one. *)
Theorem classification_ignores_case_and_padding (s1 s2 : string) :
  Text.strip (Text.lower s1) = Text.strip (Text.lower s2) ->
  categorize_unit_type s1 = categorize_unit_type s2 /\
  is_unit_vacant s1 = is_unit_vacant s2.
Proof.
  intros H. rewrite !categorize_normal_form, !vacant_normal_form. cbv zeta.
  rewrite H. split; reflexivity.
Qed.

Lemma classification_ignores_case_and_padding_witness :
  categorize_unit_type "  ERHVERV (Kontor) " = categorize_unit_type "erhverv (kontor)" /\
  is_unit_vacant " Ledig" = is_unit_vacant "ledig" /\
  categorize_unit_type "   " = categorize_unit_type "".
Proof.
  assert (E1 : Text.strip (Text.lower "  ERHVERV (Kontor) ") =
               Text.strip (Text.lower "erhverv (kontor)")) by (vm_compute; reflexivity).
  assert (E2 : Text.strip (Text.lower " Ledig") = Text.strip (Text.lower "ledig"))
    by (vm_compute; reflexivity).
  assert (E3 : Text.strip (Text.lower "   ") = Text.strip (Text.lower ""))
    by (vm_compute; reflexivity).
  split; [exact (proj1 (classification_ignores_case_and_padding _ _ E1))|].
  split; [exact (proj2 (classification_ignores_case_and_padding _ _ E2))|].
  exact (proj1 (classification_ignores_case_and_padding _ _ E3)).
Defined.

(** ** Spreadsheet pipeline, sheet by sheet *)

Lemma excel_closed_nil (st : excel_state) : excel_closed st [] = st.
Proof.
  destruct st as [f hr cols m rs used ws conf]. unfold excel_closed. simpl.
  rewrite orb_false_r, !app_nil_r. destruct f; reflexivity.
Qed.

(** One sheet: the step of the loop is the sheet's own contribution. *)
Lemma excel_step_closed (st : excel_state) (sh : sheet) :
  excel_sheet_step st sh = excel_closed st [sh].
Proof.
  destruct st as [f hr cols m rs used ws conf].
  unfold excel_sheet_step, excel_closed, first_header, sheet_header, sheet_warnings,
    sheet_used, sheet_rows_out, sheet_header, sheet_failed, xs_warn, excel_extract.
  simpl.
  destruct (sheet_content sh) as [sheet_rows|msg]; simpl.
  - destruct (length sheet_rows <? 3)%nat; simpl.
    + rewrite orb_false_r, !app_nil_r. destruct f; reflexivity.
    + destruct (find_header_row sheet_rows) as [[i hdr]|e]; simpl.
      * rewrite orb_true_r.
        destruct (excel_data_rows (sheet_name sh)
                    (get_rent_type_from_sheet (sheet_name sh)) i 0
                    (drop (i + 1) sheet_rows)) as [|r0 new]; simpl;
          rewrite ?app_nil_r; destruct f; reflexivity.
      * rewrite orb_false_r, !app_nil_r. destruct f; reflexivity.
  - rewrite orb_false_r, !app_nil_r. destruct f; reflexivity.
Qed.

Lemma excel_closed_cons (st : excel_state) (sh : sheet) (sheets : list sheet) :
  excel_closed (excel_closed st [sh]) sheets = excel_closed st (sh :: sheets).
Proof.
  destruct st as [f hr cols m rs used ws conf]. unfold excel_closed. simpl.
  rewrite !app_nil_r, <- !app_assoc.
  destruct (sheet_header sh) as [[i hdr]|]; destruct (first_header sheets) as [[j hdr']|];
    destruct f; destruct (sheet_failed sh); destruct (existsb sheet_failed sheets);
    reflexivity.
Qed.

Lemma excel_fold_closed (sheets : list sheet) (st : excel_state) :
  fold_left excel_sheet_step sheets st = excel_closed st sheets.
Proof.
  revert st. induction sheets as [|sh sheets IH]; intros st; simpl.
  - symmetry. apply excel_closed_nil.
  - rewrite IH, excel_step_closed. apply excel_closed_cons.
Qed.

(** [parse_excel_sheets] in closed form. *)
Lemma parse_excel_sheets_closed (file_path : string) (sheets : list sheet) :
  parse_excel_sheets file_path sheets =
  match first_header sheets with
  | None => raise no_header_found
  | Some (i, hdr) =>
      let out := concat (map sheet_rows_out sheets) in
      if is_nil out then raise no_data_found
      else
        let '(summary, quality) :=
          calculate_summary_stats out (map cell_text hdr) (map_columns hdr) in
        Ok (mkResult (PathLib.name file_path) excel
              (ExcelInfo (map sheet_name sheets) (concat (map sheet_used sheets)))
              (Some (i + 1)) (map cell_text hdr) (map_columns hdr) out (length out)
              (concat (map sheet_warnings sheets))
              (if existsb sheet_failed sheets then medium else high)
              summary quality)
  end.
Proof.
  unfold parse_excel_sheets. rewrite excel_fold_closed.
  unfold excel_closed, initial_excel_state. simpl.
  destruct (first_header sheets) as [[i hdr]|]; reflexivity.
Qed.

Lemma parse_excel_sheets_ok (file_path : string) (sheets : list sheet)
    (res : parse_result) :
  parse_excel_sheets file_path sheets = Ok res ->
  exists i hdr,
    first_header sheets = Some (i, hdr) /\
    concat (map sheet_rows_out sheets) <> [] /\
    res = mkResult (PathLib.name file_path) excel
            (ExcelInfo (map sheet_name sheets) (concat (map sheet_used sheets)))
            (Some (i + 1)) (map cell_text hdr) (map_columns hdr)
            (concat (map sheet_rows_out sheets))
            (length (concat (map sheet_rows_out sheets)))
            (concat (map sheet_warnings sheets))
            (if existsb sheet_failed sheets then medium else high)
            (fst (calculate_summary_stats (concat (map sheet_rows_out sheets))
                    (map cell_text hdr) (map_columns hdr)))
            (snd (calculate_summary_stats (concat (map sheet_rows_out sheets))
                    (map cell_text hdr) (map_columns hdr))).
Proof.
  rewrite parse_excel_sheets_closed.
  destruct (first_header sheets) as [[i hdr]|]; [|discriminate].
  cbv zeta. destruct (concat (map sheet_rows_out sheets)) as [|r0 out] eqn:E;
    [discriminate|].
  simpl is_nil. cbv iota.
  destruct (calculate_summary_stats (r0 :: out) (map cell_text hdr) (map_columns hdr))
    as [sm q] eqn:Ec.
  intros [= <-]. exists i, hdr. split; [reflexivity|]. split; [discriminate|].
  rewrite Ec. reflexivity.
Qed.

(** The output rows are the sheets' own rows, in sheet order: what a sheet
    contributes depends on that sheet alone.  A sheet is listed as used
    exactly when it contributed a row, and there is at least one row. *)
Theorem excel_rows_by_sheet (file_path : string) (sheets : list sheet)
    (res : parse_result) :
  parse_excel_sheets file_path sheets = Ok res ->
  rows res = concat (map sheet_rows_out sheets) /\
  rows res <> [] /\ total_rows res = length (rows res) /\
  res_source_info res =
    ExcelInfo (map sheet_name sheets) (concat (map sheet_used sheets)).
Proof.
  intros H. destruct (parse_excel_sheets_ok _ _ _ H) as (i & hdr & _ & Hne & ->).
  simpl. repeat split; try reflexivity. exact Hne.
Qed.

Lemma excel_rows_by_sheet_witness :
  match parse_excel_sheets "lejeliste.xlsx" [broken_sheet; bolig_sheet; parkering_sheet] with
  | Ok res =>
      map (fun r => (source r, row_num r)) (rows res) =
        [ ("Bolig", 3); ("Bolig", 4);
          ("P-pladser (parkering)", 2); ("P-pladser (parkering)", 3) ]%string /\
      rows res = concat (map sheet_rows_out [broken_sheet; bolig_sheet; parkering_sheet])
  | Err _ => False
  end.
Proof.
  destruct (parse_excel_sheets "lejeliste.xlsx" [broken_sheet; bolig_sheet; parkering_sheet])
    as [res|e] eqn:E.
  - split; [|exact (proj1 (excel_rows_by_sheet _ _ _ E))].
    revert E. vm_compute. intros [= <-]. reflexivity.
  - revert E. vm_compute. discriminate.
Defined.

(** Header, columns and mapping come from the first sheet that offers a
    header, and the statistics are computed over the rows of all sheets with
    that one header. *)
Theorem excel_header_from_first_sheet (file_path : string) (sheets : list sheet)
    (res : parse_result) :
  parse_excel_sheets file_path sheets = Ok res ->
  exists i hdr,
    first_header sheets = Some (i, hdr) /\
    header_row res = Some (i + 1) /\
    columns res = map cell_text hdr /\
    column_mapping res = map_columns hdr /\
    (res_summary res, res_data_quality res) =
      calculate_summary_stats (rows res) (columns res) (column_mapping res).
Proof.
  intros H. destruct (parse_excel_sheets_ok _ _ _ H) as (i & hdr & Hh & _ & ->).
  exists i, hdr. simpl. split; [exact Hh|]. repeat split.
Qed.

(** The second sheet lists rent before area; its rows are still read with
    the columns of the first sheet. *)
Lemma excel_header_from_first_sheet_witness :
  match parse_excel_sheets "lejeliste.xlsx" [bolig_sheet; parkering_sheet] with
  | Ok res =>
      header_row res = Some 2 /\
      columns res = ["Lejnr"; "Areal"; "Leje"]%string /\
      sum_total_sqm (res_summary res) = 12110%Q
  | Err _ => False
  end.
Proof.
  destruct (parse_excel_sheets "lejeliste.xlsx" [bolig_sheet; parkering_sheet])
    as [res|e] eqn:E.
  - destruct (excel_header_from_first_sheet _ _ _ E) as (i & hdr & Hh & Hr & Hc & _).
    assert (Hfirst : first_header [bolig_sheet; parkering_sheet]
                     = Some (1, [CStr "Lejnr"; CStr "Areal"; CStr "Leje"]))
      by (vm_compute; reflexivity).
    rewrite Hfirst in Hh. injection Hh as <- <-.
    split; [exact Hr|]. split; [exact Hc|].
    revert E. vm_compute. intros [= <-]. reflexivity.
  - revert E. vm_compute. discriminate.
Defined.

(** The spreadsheet loop fails in two ways only: with NoHeaderFound exactly
    when no sheet offers a header, and with NoDataFound exactly when some
    sheet does but no sheet contributes a row. *)
Theorem excel_failures (file_path : string) (sheets : list sheet) :
  (failed_with (parse_excel_sheets file_path sheets) no_header_found <->
   first_header sheets = None) /\
  (failed_with (parse_excel_sheets file_path sheets) no_data_found <->
   first_header sheets <> None /\ concat (map sheet_rows_out sheets) = []) /\
  (forall k, failed_with (parse_excel_sheets file_path sheets) k ->
     k = no_header_found \/ k = no_data_found).
Proof.
  rewrite parse_excel_sheets_closed.
  destruct (first_header sheets) as [[i hdr]|]; cbv zeta.
  - destruct (concat (map sheet_rows_out sheets)) as [|r0 out]; simpl is_nil; cbv iota.
    + simpl. split; [|split].
      * split; intros H; discriminate H.
      * split; [intros _; split; [discriminate|reflexivity]|intros _; reflexivity].
      * intros k H. right. symmetry. exact H.
    + destruct (calculate_summary_stats _ _ _) as [sm q]. simpl. split; [|split].
      * split; [intros []|intros H; discriminate H].
      * split; [intros []|intros [_ H]; discriminate H].
      * intros k [].
  - simpl. split; [|split].
    + split; intros _; reflexivity.
    + split; [intros H; discriminate H|intros [H _]; congruence].
    + intros k H. left. symmetry. exact H.
Qed.

Lemma sheet_reported_once (sh : sheet) :
  length (sheet_used sh) + length (sheet_warnings sh) = 1.
Proof.
  unfold sheet_used, sheet_warnings, sheet_rows_out, sheet_header.
  destruct (sheet_content sh) as [sheet_rows|msg]; [|reflexivity].
  destruct (length sheet_rows <? 3)%nat; [reflexivity|].
  destruct (find_header_row sheet_rows) as [[i hdr]|e]; [|reflexivity].
  destruct (excel_data_rows _ _ _ _ _); reflexivity.
Qed.

Lemma sheets_reported_once (sheets : list sheet) :
  length (concat (map sheet_used sheets)) + length (concat (map sheet_warnings sheets))
  = length sheets.
Proof.
  induction sheets as [|sh sheets IH]; [reflexivity|]. simpl.
  rewrite !length_app. pose proof (sheet_reported_once sh). lia.
Qed.

(** Every sheet of the workbook is reported exactly once, as used or by one
    warning; the confidence is medium exactly when reading some sheet
    failed, and high otherwise. *)
Theorem excel_sheet_report (file_path : string) (sheets : list sheet)
    (res : parse_result) :
  parse_excel_sheets file_path sheets = Ok res ->
  (exists used, res_source_info res = ExcelInfo (map sheet_name sheets) used /\
                length used + length (parse_warnings res) = length sheets) /\
  confidence res = (if existsb sheet_failed sheets then medium else high).
Proof.
  intros H. destruct (parse_excel_sheets_ok _ _ _ H) as (i & hdr & _ & _ & ->).
  simpl. split; [|reflexivity].
  eexists. split; [reflexivity|]. apply sheets_reported_once.
Qed.

Lemma excel_sheet_report_witness :
  match parse_excel_sheets "lejeliste.xlsx" [broken_sheet; bolig_sheet; parkering_sheet] with
  | Ok res =>
      confidence res = medium /\
      parse_warnings res = ["Sheet 'Noter' error: bad zip entry"]%string
  | Err _ => False
  end.
Proof.
  destruct (parse_excel_sheets "lejeliste.xlsx" [broken_sheet; bolig_sheet; parkering_sheet])
    as [res|e] eqn:E.
  - split; [exact (proj2 (excel_sheet_report _ _ _ E))|].
    revert E. vm_compute. intros [= <-]. reflexivity.
  - revert E. vm_compute. discriminate.
Defined.

Lemma excel_data_rows_facts (name : string) (rt : option category) (header_idx : nat)
    (data_rows : list row) :
  forall row_offset r,
    In r (excel_data_rows name rt header_idx row_offset data_rows) ->
    source r = name /\ rent_type r = rt /\ 2 <= count_if non_blank (raw r) /\
    exists k cells,
      data_rows !! k = Some cells /\ raw r = map cell_text cells /\
      row_num r = header_idx + (row_offset + k) + 2 /\ is_end_row cells = false.
Proof.
  induction data_rows as [|c data_rows IH]; intros row_offset r; simpl; [tauto|].
  destruct (is_end_row c) eqn:He; [intros []|].
  assert (Hrest : In r (excel_data_rows name rt header_idx (S row_offset) data_rows) ->
    source r = name /\ rent_type r = rt /\ 2 <= count_if non_blank (raw r) /\
    exists k cells,
      (c :: data_rows) !! k = Some cells /\ raw r = map cell_text cells /\
      row_num r = header_idx + (row_offset + k) + 2 /\ is_end_row cells = false).
  { intros Hin. destruct (IH _ _ Hin) as (H1 & H2 & H3 & k & cells & Hk & Hraw & Hn & Hend).
    repeat split; try assumption. exists (S k), cells.
    repeat split; try assumption. lia. }
  destruct (Nat.ltb_spec (count_if non_blank (map cell_text c)) 2) as [Hlt|Hge];
    [exact Hrest|].
  simpl. intros [<-|Hin]; [|exact (Hrest Hin)].
  simpl. repeat split; try assumption. exists 0, c.
  repeat split; try assumption. lia.
Qed.

(** Every output row of a workbook is the text of a row of the sheet it is
    labelled with, found at the 1-based position [row_num] of that sheet; it
    comes after the sheet's header ([row_num] is at least 2), is no end row,
    has at least two non-blank cells and the rent type its sheet name
    implies. *)
Theorem excel_row_origin (file_path : string) (sheets : list sheet)
    (res : parse_result) (r : parsed_row) :
  parse_excel_sheets file_path sheets = Ok res -> In r (rows res) ->
  exists sh sheet_rows cells,
    In sh sheets /\ sheet_content sh = SheetRows sheet_rows /\
    source r = sheet_name sh /\
    2 <= row_num r /\ sheet_rows !! (row_num r - 1) = Some cells /\
    raw r = map cell_text cells /\ is_end_row cells = false /\
    2 <= count_if non_blank (raw r) /\
    rent_type r = get_rent_type_from_sheet (source r).
Proof.
  intros H Hin. destruct (parse_excel_sheets_ok _ _ _ H) as (i & hdr & _ & _ & ->).
  simpl in Hin. apply in_concat in Hin as (out & Hout & Hr).
  apply in_map_iff in Hout as (sh & <- & Hsh).
  unfold sheet_rows_out in Hr.
  destruct (sheet_content sh) as [sheet_rows|msg] eqn:Ec; [|destruct Hr].
  destruct (sheet_header sh) as [[h hd]|]; [|destruct Hr].
  apply excel_data_rows_facts in Hr
    as (Hs & Ht & Hn & k & cells & Hk & Hraw & Hnum & Hend).
  exists sh, sheet_rows, cells. rewrite Hs.
  repeat split; try assumption; try lia.
  rewrite lookup_drop in Hk. rewrite <- Hk. f_equal. lia.
Qed.

Lemma excel_row_origin_witness :
  match parse_excel_sheets "lejeliste.xlsx" [bolig_sheet; parkering_sheet] with
  | Ok res =>
      exists r, rows res !! 2 = Some r /\ row_num r = 2 /\
                rent_type r = Some parkering /\
                exists sh sheet_rows cells,
                  In sh [bolig_sheet; parkering_sheet] /\
                  sheet_content sh = SheetRows sheet_rows /\
                  sheet_rows !! (row_num r - 1) = Some cells /\
                  raw r = map cell_text cells
  | Err _ => False
  end.
Proof.
  destruct (parse_excel_sheets "lejeliste.xlsx" [bolig_sheet; parkering_sheet])
    as [res|e] eqn:E.
  - assert (Hr : exists r, rows res !! 2 = Some r /\ row_num r = 2 /\
                           rent_type r = Some parkering).
    { revert E. vm_compute. intros [= <-]. eexists. repeat split. }
    destruct Hr as (r & Hr & Hn & Ht). exists r. repeat split; try assumption.
    assert (Hin : In r (rows res))
      by (apply list_elem_of_In; eapply list_elem_of_lookup_2, Hr).
    destruct (excel_row_origin _ _ _ r E Hin)
      as (sh & sheet_rows & cells & H1 & H2 & _ & _ & H3 & H4 & _).
    exists sh, sheet_rows, cells. repeat split; assumption.
  - revert E. vm_compute. discriminate.
Defined.

(** ** PDF pipeline, table by table *)

(** Once a header is accepted, a table with rows adds its own rows and
    leaves header and signatures alone. *)
Lemma pdf_step_later (st : pdf_state) (t : table_info) :
  ps_header_found st = true -> nonempty_table t ->
  let st' := pdf_table_step st t in
  ps_all_rows st' = ps_all_rows st ++ later_table_rows (ps_seen_headers st) t /\
  ps_header_found st' = true /\ ps_seen_headers st' = ps_seen_headers st /\
  ps_header_row st' = ps_header_row st /\ ps_columns st' = ps_columns st /\
  ps_column_mapping st' = ps_column_mapping st.
Proof.
  intros Hf Hne. unfold nonempty_table in Hne.
  unfold pdf_table_step, pdf_header_phase, later_table_rows. rewrite Hf. simpl.
  destruct (table_rows t) as [|first_row rest] eqn:E; [congruence|].
  unfold pdf_extract, pdf_table_rows. simpl.
  destruct (bool_decide (header_sig first_row ∈ ps_seen_headers st));
    repeat split; try assumption; reflexivity.
Qed.

Lemma pdf_fold_later (tables : list table_info) (st : pdf_state) :
  ps_header_found st = true -> Forall nonempty_table tables ->
  let st' := fold_left pdf_table_step tables st in
  ps_all_rows st' =
    ps_all_rows st ++ concat (map (later_table_rows (ps_seen_headers st)) tables) /\
  ps_header_found st' = true /\
  ps_header_row st' = ps_header_row st /\ ps_columns st' = ps_columns st /\
  ps_column_mapping st' = ps_column_mapping st.
Proof.
  revert st. induction tables as [|t tables IH]; intros st Hf Hne; simpl.
  - rewrite app_nil_r. repeat split; try reflexivity. exact Hf.
  - inversion Hne as [|? ? Ht Hrest]; subst.
    destruct (pdf_step_later st t Hf Ht) as (Ha & Hf' & Hs & Hr & Hc & Hm).
    cbv zeta in *.
    destruct (IH (pdf_table_step st t) Hf' Hrest) as (Ha' & Hf'' & Hr' & Hc' & Hm').
    cbv zeta in *. rewrite Ha', Ha, Hs, Hr', Hr, Hc', Hc, Hm', Hm, <- app_assoc.
    repeat split; try reflexivity. exact Hf''.
Qed.

(** The whole loop from the initial state. *)
Lemma pdf_fold_closed (tables : list table_info) :
  Forall nonempty_table tables ->
  let st := fold_left pdf_table_step tables initial_pdf_state in
  match pdf_closed tables with
  | None => ps_header_found st = false /\ ps_all_rows st = []
  | Some (i, hdr, out) =>
      ps_header_found st = true /\ ps_all_rows st = out /\
      ps_header_row st = Some (i + 1) /\ ps_columns st = map cell_text hdr /\
      ps_column_mapping st = map_columns hdr
  end.
Proof.
  cbv zeta. induction tables as [|t tables IH]; intros Hne.
  - split; reflexivity.
  - inversion Hne as [|? ? Ht Hrest]; subst.
    simpl pdf_closed. simpl fold_left.
    destruct (find_header_row (table_rows t)) as [[i hdr]|e] eqn:E.
    + assert (Hstep : pdf_table_step initial_pdf_state t =
                mkPdfState true {[ header_sig hdr ]} (drop (i + 1) (table_rows t))
                  (Some (i + 1)) (map cell_text hdr) (map_columns hdr)
                  (header_table_rows t i hdr)).
      { unfold pdf_table_step, pdf_header_phase. simpl. rewrite E.
        unfold pdf_extract, pdf_table_rows, header_table_rows. simpl.
        rewrite (right_id_L ∅ (∪)). reflexivity. }
      rewrite Hstep.
      match goal with
      | |- context [fold_left pdf_table_step tables ?s] =>
          destruct (pdf_fold_later tables s eq_refl Hrest) as (Ha & Hf & Hr & Hc & Hm)
      end.
      cbv zeta in *. rewrite Ha, Hr, Hc, Hm. simpl.
      repeat split; try reflexivity. exact Hf.
    + assert (Hstep : pdf_table_step initial_pdf_state t = initial_pdf_state).
      { unfold pdf_table_step, pdf_header_phase. simpl. rewrite E. reflexivity. }
      rewrite Hstep. apply IH, Hrest.
Qed.

(** [parse_pdf_tables] in closed form, for tables that all have rows. *)
Lemma parse_pdf_tables_closed (file_path : string) (n_pages n_tables : nat)
    (ocr_used : bool) (ws : list string) (conf : confidence_level)
    (tables : list table_info) :
  Forall nonempty_table tables ->
  parse_pdf_tables file_path n_pages n_tables ocr_used ws conf tables =
  match pdf_closed tables with
  | None => raise no_header_found
  | Some (i, hdr, out) =>
      if is_nil out then raise no_data_found
      else
        Ok (mkResult (PathLib.name file_path) pdf (PdfInfo n_pages n_tables ocr_used)
              (Some (i + 1)) (map cell_text hdr) (map_columns hdr) out (length out)
              ws conf
              (fst (calculate_summary_stats out (map cell_text hdr) (map_columns hdr)))
              (snd (calculate_summary_stats out (map cell_text hdr) (map_columns hdr))))
  end.
Proof.
  intros Hne. unfold parse_pdf_tables. cbv zeta.
  pose proof (pdf_fold_closed tables Hne) as H. cbv zeta in H.
  destruct (pdf_closed tables) as [[[i hdr] out]|].
  - destruct H as (-> & -> & -> & -> & ->). simpl.
    destruct (is_nil out); [reflexivity|].
    destruct (calculate_summary_stats out (map cell_text hdr) (map_columns hdr));
      reflexivity.
  - destruct H as (-> & _). reflexivity.
Qed.

(** The tables in front of the one with the header. *)
Lemma pdf_closed_split (tables : list table_info) (i : nat) (hdr : row)
    (out : list parsed_row) :
  pdf_closed tables = Some (i, hdr, out) ->
  exists skipped t rest,
    tables = skipped ++ t :: rest /\
    Forall (fun t' => forall hit, find_header_row (table_rows t') <> Ok hit) skipped /\
    find_header_row (table_rows t) = Ok (i, hdr) /\
    out = header_table_rows t i hdr ++
          concat (map (later_table_rows {[ header_sig hdr ]}) rest).
Proof.
  induction tables as [|t tables IH]; simpl; [discriminate|].
  destruct (find_header_row (table_rows t)) as [[j h]|e] eqn:E.
  - intros [= -> -> <-]. exists [], t, tables. repeat split; [constructor|exact E].
  - intros H. destruct (IH H) as (skipped & t0 & rest & -> & Hsk & Hh & Hout).
    exists (t :: skipped), t0, rest. repeat split; try assumption.
    constructor; [|exact Hsk]. intros hit. rewrite E. discriminate.
Qed.

Lemma pdf_data_rows_facts (seen : gset (list string)) (page_num : nat)
    (data_rows : list row) :
  forall row_offset r,
    In r (pdf_data_rows seen page_num row_offset data_rows) ->
    source r = page_label page_num /\ rent_type r = None /\
    2 <= count_if non_blank (raw r) /\ (row_sig (raw r) ∉ seen) /\
    exists k cells,
      data_rows !! k = Some cells /\ raw r = map cell_text cells /\
      row_num r = row_offset + k + 1 /\ is_end_row cells = false.
Proof.
  induction data_rows as [|c data_rows IH]; intros row_offset r; simpl; [tauto|].
  assert (Hrest : In r (pdf_data_rows seen page_num (S row_offset) data_rows) ->
    source r = page_label page_num /\ rent_type r = None /\
    2 <= count_if non_blank (raw r) /\ (row_sig (raw r) ∉ seen) /\
    exists k cells,
      (c :: data_rows) !! k = Some cells /\ raw r = map cell_text cells /\
      row_num r = row_offset + k + 1 /\ is_end_row cells = false).
  { intros Hin.
    destruct (IH _ _ Hin) as (H1 & H2 & H3 & H4 & k & cells & Hk & Hraw & Hn & Hend).
    repeat split; try assumption. exists (S k), cells.
    repeat split; try assumption. lia. }
  destruct (is_end_row c) eqn:He; [exact Hrest|].
  destruct (Nat.ltb_spec (count_if non_blank (map cell_text c)) 2) as [Hlt|Hge];
    [exact Hrest|].
  destruct (bool_decide_reflect (row_sig (map cell_text c) ∈ seen)) as [Hin|Hnot];
    [exact Hrest|].
  simpl. intros [<-|Hin]; [|exact (Hrest Hin)].
  simpl. repeat split; try assumption. exists 0, c.
  repeat split; try assumption. lia.
Qed.

Lemma parse_pdf_tables_ok (file_path : string) (n_pages n_tables : nat)
    (ocr_used : bool) (ws : list string) (conf : confidence_level)
    (tables : list table_info) (res : parse_result) :
  Forall nonempty_table tables ->
  parse_pdf_tables file_path n_pages n_tables ocr_used ws conf tables = Ok res ->
  exists i hdr out,
    pdf_closed tables = Some (i, hdr, out) /\ out <> [] /\
    res = mkResult (PathLib.name file_path) pdf (PdfInfo n_pages n_tables ocr_used)
            (Some (i + 1)) (map cell_text hdr) (map_columns hdr) out (length out)
            ws conf
            (fst (calculate_summary_stats out (map cell_text hdr) (map_columns hdr)))
            (snd (calculate_summary_stats out (map cell_text hdr) (map_columns hdr))).
Proof.
  intros Hne. rewrite (parse_pdf_tables_closed _ _ _ _ _ _ _ Hne).
  destruct (pdf_closed tables) as [[[i hdr] out]|]; [|discriminate].
  destruct out as [|r0 out]; [discriminate|]. simpl is_nil. cbv iota.
  intros [= <-]. exists i, hdr, (r0 :: out).
  split; [reflexivity|]. split; [discriminate|reflexivity].
Qed.

(** In a PDF the header is that of the first table that has one.  The tables
    in front of it and the rows above it contribute nothing; that table
    contributes the rows below its header, every later table its own rows,
    without its first row when that repeats the header signature. *)
Theorem pdf_rows_by_table (file_path : string) (n_pages n_tables : nat)
    (ocr_used : bool) (ws : list string) (conf : confidence_level)
    (tables : list table_info) (res : parse_result) :
  Forall nonempty_table tables ->
  parse_pdf_tables file_path n_pages n_tables ocr_used ws conf tables = Ok res ->
  exists skipped t rest i hdr,
    tables = skipped ++ t :: rest /\
    Forall (fun t' => forall hit, find_header_row (table_rows t') <> Ok hit) skipped /\
    find_header_row (table_rows t) = Ok (i, hdr) /\
    header_row res = Some (i + 1) /\ columns res = map cell_text hdr /\
    column_mapping res = map_columns hdr /\
    rows res = header_table_rows t i hdr ++
               concat (map (later_table_rows {[ header_sig hdr ]}) rest).
Proof.
  intros Hne H.
  destruct (parse_pdf_tables_ok _ _ _ _ _ _ _ _ Hne H) as (i & hdr & out & Hc & _ & ->).
  destruct (pdf_closed_split _ _ _ _ Hc) as (skipped & t & rest & Ht & Hsk & Hh & Hout).
  exists skipped, t, rest, i, hdr. simpl. repeat split; assumption.
Qed.

(** The second table brings its own header, which differs from the first:
    that header row is extracted as a unit. *)
Lemma pdf_rows_by_table_witness :
  let tables := collect_tables 1 two_headers_pdf in
  Forall nonempty_table tables /\
  match parse_pdf_tables "lejeliste.pdf" 2 2 false [] high tables with
  | Ok res =>
      map raw (rows res) =
        [ ["A1"; "50"; "10.000"]; ["Nr"; "Leje"; "Areal"]; ["P1"; "6.000"; "12"] ]%string /\
      exists skipped t rest i hdr,
        tables = skipped ++ t :: rest /\ header_row res = Some (i + 1) /\
        rows res = header_table_rows t i hdr ++
                   concat (map (later_table_rows {[ header_sig hdr ]}) rest)
  | Err _ => False
  end.
Proof.
  cbv zeta.
  assert (Hne : Forall nonempty_table (collect_tables 1 two_headers_pdf))
    by (repeat constructor; discriminate).
  split; [exact Hne|].
  destruct (parse_pdf_tables "lejeliste.pdf" 2 2 false [] high
              (collect_tables 1 two_headers_pdf)) as [res|e] eqn:E.
  - split.
    + revert E. vm_compute. intros [= <-]. reflexivity.
    + destruct (pdf_rows_by_table _ _ _ _ _ _ _ _ Hne E)
        as (skipped & t & rest & i & hdr & H1 & _ & _ & H2 & _ & _ & H3).
      exists skipped, t, rest, i, hdr. repeat split; assumption.
  - revert E. vm_compute. discriminate.
Defined.

(** Every output row of a PDF is the text of a row of one of the tables and
    carries that table's page label; it is no end row, has at least two
    non-blank cells and no rent type, and its [row_num] counts from 1 and
    never exceeds its position in the table. *)
Theorem pdf_row_origin (file_path : string) (n_pages n_tables : nat)
    (ocr_used : bool) (ws : list string) (conf : confidence_level)
    (tables : list table_info) (res : parse_result) (r : parsed_row) :
  Forall nonempty_table tables ->
  parse_pdf_tables file_path n_pages n_tables ocr_used ws conf tables = Ok res ->
  In r (rows res) ->
  exists t k cells,
    In t tables /\ table_rows t !! k = Some cells /\
    raw r = map cell_text cells /\ source r = page_label (page t) /\
    1 <= row_num r <= k + 1 /\ is_end_row cells = false /\
    2 <= count_if non_blank (raw r) /\ rent_type r = None.
Proof.
  intros Hne H Hin.
  destruct (parse_pdf_tables_ok _ _ _ _ _ _ _ _ Hne H) as (i & hdr & out & Hc & _ & ->).
  destruct (pdf_closed_split _ _ _ _ Hc) as (skipped & t & rest & -> & _ & _ & ->).
  simpl in Hin. apply in_app_or in Hin as [Hin|Hin].
  - unfold header_table_rows in Hin.
    apply pdf_data_rows_facts in Hin
      as (Hs & Ht & Hn & _ & k & cells & Hk & Hraw & Hnum & Hend).
    rewrite lookup_drop in Hk.
    exists t, (i + 1 + k), cells. repeat split; try assumption; try lia.
    apply in_or_app. right. left. reflexivity.
  - apply in_concat in Hin as (seg & Hseg & Hr).
    apply in_map_iff in Hseg as (t' & <- & Ht').
    unfold later_table_rows in Hr.
    apply pdf_data_rows_facts in Hr
      as (Hs & Ht & Hn & _ & k & cells & Hk & Hraw & Hnum & Hend).
    assert (Hin' : In t' (skipped ++ t :: rest))
      by (apply in_or_app; right; right; exact Ht').
    destruct (table_rows t') as [|first_row tl] eqn:Et;
      [rewrite lookup_nil in Hk; discriminate|].
    destruct (bool_decide (header_sig first_row ∈ _)).
    + exists t', (S k), cells. rewrite Et. repeat split; try assumption; lia.
    + exists t', k, cells. rewrite Et. repeat split; try assumption; lia.
Qed.

Lemma pdf_row_origin_witness :
  let tables := collect_tables 1 two_headers_pdf in
  match parse_pdf_tables "lejeliste.pdf" 2 2 false [] high tables with
  | Ok res =>
      exists r, rows res !! 2 = Some r /\ source r = "page_2"%string /\ row_num r = 2 /\
                exists t k cells, In t tables /\ table_rows t !! k = Some cells /\
                                  raw r = map cell_text cells
  | Err _ => False
  end.
Proof.
  cbv zeta.
  assert (Hne : Forall nonempty_table (collect_tables 1 two_headers_pdf))
    by (repeat constructor; discriminate).
  destruct (parse_pdf_tables "lejeliste.pdf" 2 2 false [] high
              (collect_tables 1 two_headers_pdf)) as [res|e] eqn:E.
  - assert (Hr : exists r, rows res !! 2 = Some r /\ source r = "page_2"%string /\
                           row_num r = 2).
    { revert E. vm_compute. intros [= <-]. eexists. repeat split. }
    destruct Hr as (r & Hr & Hs & Hn). exists r. repeat split; try assumption.
    assert (Hin : In r (rows res))
      by (apply list_elem_of_In; eapply list_elem_of_lookup_2, Hr).
    destruct (pdf_row_origin _ _ _ _ _ _ _ _ r Hne E Hin)
      as (t & k & cells & H1 & H2 & H3 & _).
    exists t, k, cells. repeat split; assumption.
  - revert E. vm_compute. discriminate.
Defined.

Lemma pdf_step_seen (all : list table_info) (st : pdf_state) (t : table_info) :
  In t all -> seen_inv all st -> seen_inv all (pdf_table_step st t).
Proof.
  intros Hin. unfold seen_inv, pdf_table_step, pdf_header_phase.
  destruct (ps_header_found st) eqn:Hf; simpl.
  - intros H. destruct (table_rows t); simpl; rewrite ?Hf; exact H.
  - intros [Hs Hr]. destruct (find_header_row (table_rows t)) as [[i hdr]|e] eqn:E; simpl.
    + exists t, i, hdr. rewrite Hs, (right_id_L ∅ (∪)). repeat split; assumption.
    + rewrite Hf. split; assumption.
Qed.

Lemma pdf_fold_seen (all tables : list table_info) (st : pdf_state) :
  (forall t, In t tables -> In t all) -> seen_inv all st ->
  seen_inv all (fold_left pdf_table_step tables st).
Proof.
  revert st. induction tables as [|t tables IH]; intros st Hall H; simpl; [exact H|].
  apply IH; [intros t' Ht'; apply Hall; right; exact Ht'|].
  apply pdf_step_seen; [apply Hall; left; reflexivity|exact H].
Qed.

(** No output row of a PDF has the signature stored for the accepted
    header.  When no header cell is whitespace-only, that signature is the
    one the header row has as a data row, so no output row repeats the
    columns up to letter case, surrounding whitespace and blank cells. *)
Theorem pdf_header_never_repeated (file_path : string) (n_pages n_tables : nat)
    (ocr_used : bool) (ws : list string) (conf : confidence_level)
    (tables : list table_info) (res : parse_result) :
  parse_pdf_tables file_path n_pages n_tables ocr_used ws conf tables = Ok res ->
  exists t i hdr,
    In t tables /\ find_header_row (table_rows t) = Ok (i, hdr) /\
    columns res = map cell_text hdr /\ header_row res = Some (i + 1) /\
    (forall r, In r (rows res) -> row_sig (raw r) <> header_sig hdr) /\
    (Forall clean_cell hdr ->
     forall r, In r (rows res) -> row_sig (raw r) <> row_sig (columns res)).
Proof.
  unfold parse_pdf_tables. cbv zeta.
  pose proof (pdf_fold_seen tables tables initial_pdf_state) as Hseen.
  pose proof (pdf_fold_inv tables initial_pdf_state) as Hinv.
  set (F := fold_left pdf_table_step tables initial_pdf_state) in *.
  destruct (ps_header_found F) eqn:Hf; [|discriminate].
  simpl. destruct (is_nil (ps_all_rows F)); [discriminate|].
  destruct (calculate_summary_stats (ps_all_rows F) (ps_columns F) (ps_column_mapping F))
    as [sm q].
  intros [= <-]. simpl.
  unfold seen_inv in Hseen. rewrite Hf in Hseen.
  destruct Hseen as (t & i & hdr & Ht & Hh & Hs & Hc & Hr); [auto|split; reflexivity|].
  destruct Hinv as [_ Hun]; [split; simpl; [reflexivity|tauto]|].
  exists t, i, hdr. split; [exact Ht|]. split; [exact Hh|]. split; [exact Hc|].
  split; [exact Hr|].
  assert (Hneq : forall r, In r (ps_all_rows F) -> row_sig (raw r) <> header_sig hdr).
  { intros r Hr' Heq. apply (Hun r Hr'). rewrite Hs, Heq. apply elem_of_singleton.
    reflexivity. }
  split; [exact Hneq|].
  intros Hclean r Hr'. rewrite Hc, <- (header_sig_row_sig hdr Hclean). apply Hneq, Hr'.
Qed.

Lemma pdf_header_never_repeated_witness :
  match parse_pdf_tables "lejeliste.pdf" 1 1 false [] high
          (collect_tables 1 shouting_header_pdf) with
  | Ok res =>
      map raw (rows res) = [ ["A1"; "50"; "10.000"]; ["A2"; "60"; "12.000"] ]%string /\
      forall r, In r (rows res) -> row_sig (raw r) <> row_sig (columns res)
  | Err _ => False
  end.
Proof.
  destruct (parse_pdf_tables "lejeliste.pdf" 1 1 false [] high
              (collect_tables 1 shouting_header_pdf)) as [res|e] eqn:E.
  - split; [revert E; vm_compute; intros [= <-]; reflexivity|].
    destruct (pdf_header_never_repeated _ _ _ _ _ _ _ _ E)
      as (t & i & hdr & Ht & Hh & _ & _ & _ & Hclean).
    apply Hclean. destruct Ht as [<-|[]].
    assert (Hfound : find_header_row
              (table_rows (mkTable 1
                 [ [CStr "Lejnr"; CStr "Areal"; CStr "Leje"];
                   [CStr "A1"; CStr "50"; CStr "10.000"];
                   [CStr "LEJNR"; CStr ""; CStr " areal"; CStr "Leje "];
                   [CStr "A2"; CStr "60"; CStr "12.000"] ]))
            = Ok (0, [CStr "Lejnr"; CStr "Areal"; CStr "Leje"]))
      by (vm_compute; reflexivity).
    rewrite Hfound in Hh. injection Hh as <- <-.
    repeat constructor.
  - revert E. vm_compute. discriminate.
Defined.

Lemma pdf_fold_found (tables : list table_info) (st : pdf_state) :
  ps_header_found (fold_left pdf_table_step tables st) =
  ps_header_found st || existsb has_header tables.
Proof.
  revert st. induction tables as [|t tables IH]; intros st; simpl.
  - rewrite orb_false_r. reflexivity.
  - rewrite IH. unfold pdf_table_step, pdf_header_phase, has_header.
    destruct (ps_header_found st) eqn:Hf; simpl.
    + destruct (table_rows t); simpl; rewrite ?Hf; reflexivity.
    + destruct (find_header_row (table_rows t)) as [[i hdr]|e]; simpl;
        [reflexivity|rewrite ?Hf; reflexivity].
Qed.

(** The table loop of the PDF pipeline fails in two ways only: with
    NoHeaderFound exactly when no table has a header, and otherwise with
    NoDataFound when no row survives. *)
Theorem pdf_failures (file_path : string) (n_pages n_tables : nat)
    (ocr_used : bool) (ws : list string) (conf : confidence_level)
    (tables : list table_info) :
  let result := parse_pdf_tables file_path n_pages n_tables ocr_used ws conf tables in
  (failed_with result no_header_found <-> existsb has_header tables = false) /\
  (forall k, failed_with result k -> k = no_header_found \/ k = no_data_found).
Proof.
  cbv zeta. unfold parse_pdf_tables. cbv zeta.
  rewrite pdf_fold_found. simpl.
  set (F := fold_left pdf_table_step tables initial_pdf_state).
  destruct (existsb has_header tables); simpl.
  - destruct (is_nil (ps_all_rows F)); simpl.
    + split; [split; intros H; discriminate H|].
      intros k H. right. symmetry. exact H.
    + destruct (calculate_summary_stats (ps_all_rows F) (ps_columns F)
                  (ps_column_mapping F)) as [sm q]. simpl.
      split; [split; [intros []|intros H; discriminate H]|intros k []].
  - split; [split; intros _; reflexivity|].
    intros k H. left. symmetry. exact H.
Qed.

(** ** PDF pipeline: collecting tables and the OCR fallback *)

Lemma collect_tables_in (pdf_pages : list (list (list row))) :
  forall start t,
    In t (collect_tables start pdf_pages) <->
    exists k tables,
      pdf_pages !! k = Some tables /\ In (table_rows t) tables /\
      2 <= length (table_rows t) /\ page t = start + k.
Proof.
  induction pdf_pages as [|tables pdf_pages IH]; intros start t; simpl.
  - split; [intros []|]. intros (k & tb & Hk & _). rewrite lookup_nil in Hk. discriminate.
  - rewrite in_app_iff, in_map_iff, IH. split.
    + intros [(rows0 & <- & Hin)|(k & tb & Hk & Hin & Hlen & Hp)].
      * apply filter_In in Hin as [Hin Hlen]. apply Nat.ltb_lt in Hlen.
        exists 0, tables. simpl. repeat split; try assumption; lia.
      * exists (S k), tb. simpl. repeat split; try assumption; lia.
    + intros (k & tb & Hk & Hin & Hlen & Hp). destruct k as [|k]; simpl in Hk.
      * injection Hk as <-. left. exists (table_rows t). split.
        -- destruct t as [p rs]. simpl in *. f_equal. lia.
        -- apply filter_In. split; [exact Hin|]. apply Nat.ltb_lt. lia.
      * right. exists k, tb. repeat split; try assumption; lia.
Qed.

Lemma collect_tables_nonempty (start : nat) (pdf_pages : list (list (list row))) :
  Forall nonempty_table (collect_tables start pdf_pages).
Proof.
  apply Forall_forall. intros t Ht. apply list_elem_of_In in Ht.
  apply collect_tables_in in Ht as (k & tb & _ & _ & Hlen & _).
  unfold nonempty_table. destruct (table_rows t); [simpl in Hlen; lia|discriminate].
Qed.

(** [all_tables] holds exactly the extracted tables that have at least two
    rows, each with the 1-based number of its page. *)
Theorem collected_tables (pdf_pages : list (list (list row))) (t : table_info) :
  In t (collect_tables 1 pdf_pages) <->
  exists k tables,
    pdf_pages !! k = Some tables /\ In (table_rows t) tables /\
    2 <= length (table_rows t) /\ page t = k + 1.
Proof.
  rewrite collect_tables_in. split; intros (k & tb & H1 & H2 & H3 & H4);
    exists k, tb; repeat split; try assumption; lia.
Qed.

Lemma parse_pdf_tables_fields (file_path : string) (n_pages n_tables : nat)
    (ocr_used : bool) (ws : list string) (conf : confidence_level)
    (tables : list table_info) (res : parse_result) :
  parse_pdf_tables file_path n_pages n_tables ocr_used ws conf tables = Ok res ->
  res_source_info res = PdfInfo n_pages n_tables ocr_used /\
  confidence res = conf /\ parse_warnings res = ws /\ res_file_type res = pdf.
Proof.
  unfold parse_pdf_tables. cbv zeta.
  set (F := fold_left pdf_table_step tables initial_pdf_state).
  destruct (negb (ps_header_found F)); [discriminate|].
  destruct (is_nil (ps_all_rows F)); [discriminate|].
  destruct (calculate_summary_stats (ps_all_rows F) (ps_columns F) (ps_column_mapping F))
    as [sm q].
  intros [= <-]. repeat split.
Qed.

(** The text recognition is called exactly when the extractor delivers no
    table with at least two rows.  A result obtained without it has
    confidence high and no warning; a result obtained with it is marked
    [ocr_used], has confidence low, counts no table and starts its warnings
    with the notice of the fallback. *)
Theorem ocr_fallback_marks_result (w : world) (file_path : string)
    (pdf_pages : list (list (list row))) (res : parse_result) :
  read_pdf w file_path = Pdf pdf_pages ->
  snd (parse_pdf w file_path) = Ok res ->
  let tables := collect_tables 1 pdf_pages in
  (tables <> [] /\
   fst (parse_pdf w file_path) = [EvOpenPdf file_path] /\
   res_source_info res = PdfInfo (length pdf_pages) (length tables) false /\
   confidence res = high /\ parse_warnings res = []) \/
  (tables = [] /\
   fst (parse_pdf w file_path) = [EvOpenPdf file_path; EvOcr file_path] /\
   res_source_info res = PdfInfo (length pdf_pages) 0 true /\
   confidence res = low /\
   exists ocr_tables ocr_warnings,
     read_ocr w file_path = OcrTables ocr_tables ocr_warnings /\
     parse_warnings res = ocr_notice :: ocr_warnings).
Proof.
  intros Hread. unfold parse_pdf. rewrite Hread. cbv zeta.
  destruct (collect_tables 1 pdf_pages) as [|t tables] eqn:Ec; simpl is_nil; cbv iota.
  - destruct (read_ocr w file_path) as [ocr_tables ocr_warnings|msg] eqn:Eo;
      simpl; [|discriminate].
    destruct (is_nil ocr_tables); [discriminate|].
    intros H. apply parse_pdf_tables_fields in H as (H1 & H2 & H3 & _).
    right. repeat split; try assumption.
    exists ocr_tables, ocr_warnings. split; [reflexivity|exact H3].
  - simpl. intros H. apply parse_pdf_tables_fields in H as (H1 & H2 & H3 & _).
    left. repeat split; try assumption. discriminate.
Qed.

Lemma ocr_fallback_marks_result_witness :
  match snd (parse_pdf scanned_world "scan.pdf") with
  | Ok res =>
      res_source_info res = PdfInfo 2 0 true /\ confidence res = low /\
      fst (parse_pdf scanned_world "scan.pdf") = [EvOpenPdf "scan.pdf"; EvOcr "scan.pdf"]
  | Err _ => False
  end.
Proof.
  destruct (snd (parse_pdf scanned_world "scan.pdf")) as [res|e] eqn:E.
  - destruct (ocr_fallback_marks_result scanned_world "scan.pdf" _ res eq_refl E)
      as [(Hne & _)|(_ & Ht & Hs & Hc & _)].
    + exfalso. apply Hne. reflexivity.
    + repeat split; assumption.
  - revert E. vm_compute. discriminate.
Defined.

(** ** Entry point: which reader is called *)

Lemma parse_excel_trace (w : world) (file_path : string) :
  fst (parse_excel w file_path) = [EvOpenWorkbook file_path].
Proof. reflexivity. Qed.

Lemma parse_pdf_trace (w : world) (file_path : string) :
  fst (parse_pdf w file_path) =
  match read_pdf w file_path with
  | Pdf pdf_pages =>
      if is_nil (collect_tables 1 pdf_pages)
      then [EvOpenPdf file_path; EvOcr file_path] else [EvOpenPdf file_path]
  | PdfFailed _ => [EvOpenPdf file_path]
  end.
Proof.
  unfold parse_pdf. destruct (read_pdf w file_path) as [pdf_pages|msg]; [|reflexivity].
  cbv zeta. destruct (is_nil (collect_tables 1 pdf_pages)); [|reflexivity].
  destruct (read_ocr w file_path); reflexivity.
Qed.

Lemma parse_rent_roll_trace (w : world) (file_path : string) :
  fst (parse_rent_roll w file_path) =
  EvExists file_path ::
  if path_exists w file_path then
    match detect_file_type file_path with
    | Ok excel => fst (parse_excel w file_path)
    | Ok pdf => fst (parse_pdf w file_path)
    | Err _ => []
    end
  else [].
Proof.
  unfold parse_rent_roll. destruct (path_exists w file_path); [|reflexivity].
  simpl. destruct (detect_file_type file_path) as [[|]|e]; [| |reflexivity].
  - destruct (parse_excel w file_path); reflexivity.
  - destruct (parse_pdf w file_path); reflexivity.
Qed.

(** Membership of an event in an explicit trace, in both directions. *)
Ltac event_in_trace :=
  let H := fresh "H" in
  intros H; simpl in H;
  repeat (destruct H as [H|H]); try contradiction; try discriminate H;
  injection H as <-; repeat split; try reflexivity; try assumption;
  eexists; split; first [reflexivity | eassumption].

Ltac trace_has_event :=
  let H := fresh "H" in
  intros H; decompose [and ex] H; subst;
  first [congruence | simpl; auto 6].

(** The entry point first tests that the path exists and then calls one
    opener at most, for that path: the workbook reader only for a
    spreadsheet extension, the PDF reader only for ".pdf", neither for a
    missing file; the text recognition only after the PDF reader found no
    table with at least two rows. *)
Theorem readers_follow_extension (w : world) (file_path : string) :
  let trace := fst (parse_rent_roll w file_path) in
  hd_error trace = Some (EvExists file_path) /\
  (forall p, In (EvOpenWorkbook p) trace <->
     p = file_path /\ path_exists w file_path = true /\
     detect_file_type file_path = Ok excel) /\
  (forall p, In (EvOpenPdf p) trace <->
     p = file_path /\ path_exists w file_path = true /\
     detect_file_type file_path = Ok pdf) /\
  (forall p, In (EvOcr p) trace <->
     p = file_path /\ path_exists w file_path = true /\
     detect_file_type file_path = Ok pdf /\
     exists pdf_pages, read_pdf w file_path = Pdf pdf_pages /\
                       collect_tables 1 pdf_pages = []).
Proof.
  cbv zeta. rewrite parse_rent_roll_trace. split; [reflexivity|].
  assert (Hmem : forall (e : event) (l : list event) (P : Prop),
            (In e l -> P) -> (P -> In e l) -> (In e l <-> P)) by (intros; split; auto).
  destruct (path_exists w file_path) eqn:Hex.
  - destruct (detect_file_type file_path) as [[|]|e] eqn:Hd.
    + rewrite parse_excel_trace.
      (split; [|split]); intros p; apply Hmem;
        first [event_in_trace | trace_has_event].
    + rewrite parse_pdf_trace.
      destruct (read_pdf w file_path) as [pdf_pages|msg] eqn:Er.
      * destruct (collect_tables 1 pdf_pages) as [|t ts] eqn:Ec; simpl is_nil; cbv iota;
          (split; [|split]); intros p; apply Hmem;
          first [event_in_trace | trace_has_event].
      * (split; [|split]); intros p; apply Hmem;
          first [event_in_trace | trace_has_event].
    + (split; [|split]); intros p; apply Hmem;
        first [event_in_trace | trace_has_event].
  - (split; [|split]); intros p; apply Hmem;
      first [event_in_trace | trace_has_event].
Qed.

(** ** Text recognition: cells, rows and pages *)

Lemma re_split_gaps_head (line : string) :
  starts_with_space (hd EmptyString (re_split_gaps false line)) = true ->
  starts_with_space line = true.
Proof.
  destruct line as [|a rest]; simpl; [discriminate|].
  destruct ((Text.is_space a && starts_with_space rest) || Ascii.eqb a tab);
    simpl; [discriminate|].
  destruct (re_split_gaps false rest); simpl; auto.
Qed.

Lemma re_split_gaps_single_spaced (line : string) :
  forall in_run,
    Forall (fun p => single_spaced p = true) (re_split_gaps in_run line).
Proof.
  induction line as [|a rest IH]; intros in_run; simpl.
  - constructor; [reflexivity|constructor].
  - destruct (in_run && Text.is_space a) eqn:E1; [apply IH|].
    destruct ((Text.is_space a && starts_with_space rest) || Ascii.eqb a tab) eqn:E2.
    + constructor; [reflexivity|apply IH].
    + apply orb_false_iff in E2 as [E2 E3].
      pose proof (IH false) as Hf. pose proof (re_split_gaps_head rest) as Hh.
      destruct (re_split_gaps false rest) as [|piece pieces].
      * constructor; [|constructor]. simpl. rewrite E3, andb_false_r. reflexivity.
      * inversion Hf as [|? ? Hp Hps]; subst. constructor; [|exact Hps].
        simpl. rewrite E3, Hp, andb_true_r. simpl.
        destruct (Text.is_space a) eqn:Ea; [|reflexivity]. simpl in E2. simpl.
        destruct (starts_with_space piece) eqn:Ep; [|reflexivity].
        simpl in Hh. rewrite (Hh Ep) in E2. discriminate E2.
Qed.

Lemma single_spaced_tail (a : ascii) (s : string) :
  single_spaced (String a s) = true -> single_spaced s = true.
Proof. simpl. intros H. apply andb_prop in H as [_ H]. exact H. Qed.

Lemma single_spaced_lstrip (s : string) :
  single_spaced s = true -> single_spaced (Text.lstrip s) = true.
Proof.
  induction s as [|a s IH]; [reflexivity|]. intros H. simpl Text.lstrip.
  destruct (Text.is_space a); [|exact H].
  apply IH. exact (single_spaced_tail a s H).
Qed.

Lemma rstrip_head_space (s : string) :
  starts_with_space (Text.rstrip s) = true -> starts_with_space s = true.
Proof.
  destruct s as [|a s]; [auto|]. simpl.
  destruct (Text.rstrip s); [|auto].
  destruct (Text.is_space a) eqn:E; simpl; [discriminate|].
  rewrite E. discriminate.
Qed.

Lemma single_spaced_rstrip (s : string) :
  single_spaced s = true -> single_spaced (Text.rstrip s) = true.
Proof.
  induction s as [|a s IH]; [reflexivity|].
  intros H. simpl in H. apply andb_prop in H as [H H3].
  apply andb_prop in H as [H1 H2].
  pose proof (rstrip_head_space s) as Hh. specialize (IH H3).
  simpl Text.rstrip. destruct (Text.rstrip s) as [|b r] eqn:E.
  - destruct (Text.is_space a); [reflexivity|].
    simpl. rewrite H1, andb_false_r. reflexivity.
  - change (single_spaced (String a (String b r)))
      with (negb (Ascii.eqb a tab) &&
            negb (Text.is_space a && starts_with_space (String b r)) &&
            single_spaced (String b r)).
    rewrite H1, IH, andb_true_r. simpl in Hh |- *.
    destruct (Text.is_space a) eqn:Ea; [|reflexivity].
    destruct (Text.is_space b) eqn:Eb; [|reflexivity].
    rewrite (Hh eq_refl) in H2. discriminate H2.
Qed.

Lemma single_spaced_strip (s : string) :
  single_spaced s = true -> single_spaced (Text.strip s) = true.
Proof.
  intros H. unfold Text.strip. apply single_spaced_rstrip, single_spaced_lstrip, H.
Qed.

Lemma ocr_cells_in (line c : string) :
  In c (ocr_cells line) ->
  c <> EmptyString /\ Text.strip c = c /\ single_spaced c = true.
Proof.
  unfold ocr_cells. intros H. apply in_map_iff in H as (p & <- & Hp).
  apply filter_In in Hp as [Hp Hnb].
  split; [|split].
  - unfold non_blank in Hnb. intros E. rewrite E in Hnb. discriminate Hnb.
  - apply strip_idempotent.
  - apply single_spaced_strip.
    exact (proj1 (List.Forall_forall _ _) (re_split_gaps_single_spaced line false) p Hp).
Qed.

Lemma ocr_rows_in (lines : list string) (r : row) :
  In r (ocr_rows lines) ->
  exists line, In line lines /\ r = map CStr (ocr_cells line) /\ ocr_cells line <> [].
Proof.
  induction lines as [|line lines IH]; simpl; [intros []|].
  assert (Hrest : In r (ocr_rows lines) ->
            exists l, (line = l \/ In l lines) /\ r = map CStr (ocr_cells l) /\
                      ocr_cells l <> []).
  { intros H. destruct (IH H) as (l & Hl & Hr). exists l. split; [right; exact Hl|exact Hr]. }
  destruct (non_blank line); [|exact Hrest].
  destruct (ocr_cells line) as [|c cs] eqn:E; simpl; [exact Hrest|].
  intros [<-|H]; [|exact (Hrest H)].
  exists line. rewrite E. split; [left; reflexivity|]. split; [reflexivity|discriminate].
Qed.

Lemma ocr_pages_in (page_texts : list (string + string)) :
  forall start tables warnings,
    ocr_pages start page_texts = (tables, warnings) ->
    forall t, In t tables <->
      exists k text, page_texts !! k = Some (inl text) /\ page t = start + k /\
                     table_rows t = ocr_page_rows text /\ table_rows t <> [].
Proof.
  induction page_texts as [|[text|msg] rest IH]; intros start tables warnings; simpl.
  - intros [= <- <-] t. split; [intros []|intros (k & text & H & _); discriminate H].
  - destruct (ocr_pages (S start) rest) as [tables' warnings'] eqn:E.
    specialize (IH (S start) tables' warnings' E).
    intros [= <- <-] t.
    assert (Hlater : In t tables' ->
              exists k text0, (inl text :: rest) !! k = Some (inl text0) /\
                page t = start + k /\ table_rows t = ocr_page_rows text0 /\
                table_rows t <> []).
    { intros H. apply IH in H as (k & text0 & Hk & Hp & Hr).
      exists (S k), text0. split; [exact Hk|]. split; [lia|exact Hr]. }
    split.
    + destruct (ocr_page_rows text) as [|r rs] eqn:Er; simpl; [exact Hlater|].
      intros [<-|H]; [|exact (Hlater H)].
      exists 0, text. simpl. rewrite Er.
      split; [reflexivity|]. split; [lia|]. split; [reflexivity|discriminate].
    + intros ([|k] & text0 & Hk & Hp & Hr & Hne).
      * simpl in Hk. injection Hk as <-.
        destruct t as [pg rows]. simpl in Hp, Hr, Hne. subst rows.
        destruct (ocr_page_rows text) as [|r rs]; [contradiction|].
        simpl. left. f_equal. lia.
      * assert (Ht : In t tables').
        { apply IH. exists k, text0. split; [exact Hk|]. split; [lia|]. split; assumption. }
        destruct (is_nil (ocr_page_rows text)); [exact Ht|right; exact Ht].
  - destruct (ocr_pages (S start) rest) as [tables' warnings'] eqn:E.
    specialize (IH (S start) tables' warnings' E).
    intros [= <- <-] t. rewrite IH. split.
    + intros (k & text0 & Hk & Hp & Hr). exists (S k), text0.
      split; [exact Hk|]. split; [lia|exact Hr].
    + intros ([|k] & text0 & Hk & Hp & Hr); [discriminate Hk|].
      exists k, text0. split; [exact Hk|]. split; [lia|exact Hr].
Qed.

Lemma ocr_pages_sorted (page_texts : list (string + string)) :
  forall start tables warnings,
    ocr_pages start page_texts = (tables, warnings) ->
    match map page tables with
    | [] => True
    | n :: l => start <= n /\ increasing_from n l
    end.
Proof.
  induction page_texts as [|[text|msg] rest IH]; intros start tables warnings; simpl.
  - intros [= <- <-]. exact I.
  - destruct (ocr_pages (S start) rest) as [tables' warnings'] eqn:E.
    specialize (IH (S start) tables' warnings' E).
    intros [= <- <-].
    destruct (is_nil (ocr_page_rows text)).
    + destruct (map page tables') as [|n l]; [exact I|].
      destruct IH as [Hn Hl]. split; [lia|exact Hl].
    + simpl. split; [lia|].
      destruct (map page tables') as [|n l]; [exact I|].
      destruct IH as [Hn Hl]. simpl. split; [lia|exact Hl].
  - destruct (ocr_pages (S start) rest) as [tables' warnings'] eqn:E.
    specialize (IH (S start) tables' warnings' E).
    intros [= <- <-].
    destruct (map page tables') as [|n l]; [exact I|].
    destruct IH as [Hn Hl]. split; [lia|exact Hl].
Qed.

Lemma ocr_pages_warnings (page_texts : list (string + string)) :
  forall start tables warnings,
    ocr_pages start page_texts = (tables, warnings) ->
    length warnings = length (List.filter is_failed_page page_texts).
Proof.
  induction page_texts as [|[text|msg] rest IH]; intros start tables warnings; simpl.
  - intros [= <- <-]. reflexivity.
  - destruct (ocr_pages (S start) rest) as [tables' warnings'] eqn:E.
    intros [= <- <-]. exact (IH _ _ _ E).
  - destruct (ocr_pages (S start) rest) as [tables' warnings'] eqn:E.
    intros [= <- <-]. simpl. f_equal. exact (IH _ _ _ E).
Qed.

(** Every cell that the text recognition hands to the table loop is a
    text that is not empty, carries no whitespace at either end, no tab and
    no two whitespace characters in a row; no row and no pseudo-table is
    empty. *)
Theorem recognised_cells_are_clean (images : ocr_images)
    (tables : list table_info) (warnings : list string) :
  extract_tables_with_ocr images = OcrTables tables warnings ->
  forall t, In t tables ->
    table_rows t <> [] /\
    forall r, In r (table_rows t) ->
      r <> [] /\ forall c, In c r -> recognised_cell c.
Proof.
  destruct images as [page_texts|msg]; simpl; [|discriminate].
  destruct (ocr_pages 1 page_texts) as [tables' warnings'] eqn:E.
  intros [= <- <-] t Ht.
  apply (ocr_pages_in page_texts 1 tables' warnings' E) in Ht
    as (k & text & _ & _ & Hrows & Hne).
  split; [exact Hne|]. intros r Hr. rewrite Hrows in Hr.
  apply ocr_rows_in in Hr as (line & _ & -> & Hcells).
  split.
  - destruct (ocr_cells line); [contradiction|discriminate].
  - intros c Hc. apply in_map_iff in Hc as (s & <- & Hs).
    exists s. split; [reflexivity|]. exact (ocr_cells_in line s Hs).
Qed.

Lemma recognised_cells_are_clean_witness :
  extract_tables_with_ocr scanned_pages =
    OcrTables
      [mkTable 1 [ [CStr "Lejnr"; CStr "Areal"; CStr "Leje"];
                   [CStr "A 1"; CStr "50"; CStr "10.000"] ]]
      ["OCR failed for page 2: tesseract timed out"%string] /\
  forall c, In c [CStr "A 1"; CStr "50"; CStr "10.000"] -> recognised_cell c.
Proof.
  assert (E : extract_tables_with_ocr scanned_pages =
    OcrTables
      [mkTable 1 [ [CStr "Lejnr"; CStr "Areal"; CStr "Leje"];
                   [CStr "A 1"; CStr "50"; CStr "10.000"] ]]
      ["OCR failed for page 2: tesseract timed out"%string])
    by (vm_compute; reflexivity).
  split; [exact E|].
  refine (proj2 (proj2 (recognised_cells_are_clean scanned_pages _ _ E _
                          (or_introl eq_refl)) _ _)).
  simpl. right. left. reflexivity.
Defined.

(** A page whose recognition raises never fails the extraction: it returns
    one pseudo-table for every recognised page that has a row, numbered by
    the page's position counted from 1 and in page order, and one warning
    for every failed page. *)
Theorem ocr_tables_follow_pages (page_texts : list (string + string)) :
  exists tables warnings,
    extract_tables_with_ocr (Images page_texts) = OcrTables tables warnings /\
    strictly_increasing (map page tables) /\
    (forall t, In t tables <->
       exists k text, page_texts !! k = Some (inl text) /\ page t = S k /\
                      table_rows t = ocr_page_rows text /\ table_rows t <> []) /\
    length warnings = length (List.filter is_failed_page page_texts).
Proof.
  simpl. destruct (ocr_pages 1 page_texts) as [tables warnings] eqn:E.
  exists tables, warnings. split; [reflexivity|]. split; [|split].
  - pose proof (ocr_pages_sorted page_texts 1 tables warnings E) as H.
    unfold strictly_increasing. destruct (map page tables) as [|n l]; [exact I|].
    exact (proj2 H).
  - intros t. exact (ocr_pages_in page_texts 1 tables warnings E t).
  - exact (ocr_pages_warnings page_texts 1 tables warnings E).
Qed.

(** ** Failures of the entry point *)

Lemma parse_excel_sheets_kinds (file_path : string) (sheets : list sheet)
    (k : error_type) :
  failed_with (parse_excel_sheets file_path sheets) k ->
  k = no_header_found \/ k = no_data_found.
Proof.
  rewrite parse_excel_sheets_closed.
  destruct (first_header sheets) as [[i hdr]|]; cbv zeta.
  - destruct (is_nil (concat (map sheet_rows_out sheets))).
    + simpl. intros <-. right. reflexivity.
    + destruct (calculate_summary_stats _ _ _) as [sm q]. simpl. intros [].
  - simpl. intros <-. left. reflexivity.
Qed.

Lemma parse_pdf_tables_kinds (file_path : string) (n_pages n_tables : nat)
    (ocr_used : bool) (ws : list string) (conf : confidence_level)
    (tables : list table_info) (k : error_type) :
  failed_with (parse_pdf_tables file_path n_pages n_tables ocr_used ws conf tables) k ->
  k = no_header_found \/ k = no_data_found.
Proof.
  unfold parse_pdf_tables. cbv zeta.
  set (F := fold_left pdf_table_step tables initial_pdf_state).
  destruct (ps_header_found F); simpl.
  - destruct (is_nil (ps_all_rows F)); simpl.
    + intros <-. right. reflexivity.
    + destruct (calculate_summary_stats (ps_all_rows F) (ps_columns F)
                  (ps_column_mapping F)) as [sm q]. simpl. intros [].
  - intros <-. left. reflexivity.
Qed.

Lemma detect_file_type_kind (file_path : string) (e : ParseError) :
  detect_file_type file_path = Err e -> pe_type e = invalid_file_type.
Proof.
  unfold detect_file_type.
  destruct (_ || _); [discriminate|].
  destruct (String.eqb _ _); [discriminate|].
  intros [= <-]. reflexivity.
Qed.

Lemma open_failure_kind (A : Type) (what msg : string) (k : error_type) :
  failed_with (@open_failure A what msg) k <->
  k = (if mentions_protection msg then password_protected else corrupted_file).
Proof.
  unfold open_failure, mentions_protection. cbv zeta.
  destruct (_ || _); simpl; split; intros H; congruence.
Qed.

Lemma parse_rent_roll_result (w : world) (file_path : string) :
  snd (parse_rent_roll w file_path) =
  if path_exists w file_path then
    match detect_file_type file_path with
    | Ok excel =>
        match open_workbook w file_path with
        | WorkbookFailed msg => open_failure "Could not open file: " msg
        | Workbook sheets => parse_excel_sheets file_path sheets
        end
    | Ok pdf => snd (parse_pdf w file_path)
    | Err e => Err e
    end
  else raise_msg file_not_found ("File not found: " ++ file_path).
Proof.
  unfold parse_rent_roll. destruct (path_exists w file_path); [|reflexivity].
  simpl. destruct (detect_file_type file_path) as [[|]|e]; [| |reflexivity].
  - reflexivity.
  - destruct (parse_pdf w file_path); reflexivity.
Qed.

(** One direction of a statement about the kind of a failure: from the
    failure to its cause, and back. *)
Ltac kind_to_cause Hk :=
  let H := fresh "H" in
  intros H;
  first [ discriminate H
        | exfalso; destruct (Hk _ H) as [H'|H']; discriminate H'
        | solve [eauto 10] ].

Ltac cause_to_kind :=
  let H := fresh "H" in
  intros H; decompose [and ex] H; congruence.

Ltac kind_iff Hk := split; [kind_to_cause Hk | cause_to_kind].

Ltac kinds Hk := (split; [|split; [|split; [|split]]]); kind_iff Hk.

Lemma open_failure_result (what msg : string) :
  @open_failure parse_result what msg =
  if mentions_protection msg then raise password_protected
  else raise_msg corrupted_file (what ++ msg).
Proof. reflexivity. Qed.

(** The kind of a failure of the entry point names the stage that failed:
    FileNotFound exactly for a missing path, InvalidFileType exactly for an
    existing path with an unsupported extension, PasswordProtected and
    CorruptedFile exactly when the reader chosen by the extension cannot
    open the file (the former when its message mentions a password or
    encryption in any letter case), and OcrFailed exactly when a PDF
    without usable tables cannot be converted to images. *)
Theorem failure_kind_names_the_stage (w : world) (file_path : string) :
  let result := snd (parse_rent_roll w file_path) in
  (failed_with result file_not_found <-> path_exists w file_path = false) /\
  (failed_with result invalid_file_type <->
     path_exists w file_path = true /\
     exists e, detect_file_type file_path = Err e) /\
  (failed_with result password_protected <->
     path_exists w file_path = true /\
     exists msg, reader_failure w file_path = Some msg /\
                 mentions_protection msg = true) /\
  (failed_with result corrupted_file <->
     path_exists w file_path = true /\
     exists msg, reader_failure w file_path = Some msg /\
                 mentions_protection msg = false) /\
  (failed_with result ocr_failed <->
     path_exists w file_path = true /\ detect_file_type file_path = Ok pdf /\
     exists pdf_pages msg,
       read_pdf w file_path = Pdf pdf_pages /\
       collect_tables 1 pdf_pages = [] /\
       read_ocr w file_path = OcrFailed msg).
Proof.
  cbv zeta. rewrite parse_rent_roll_result. unfold reader_failure.
  assert (Hnone : forall k : error_type, False -> k = no_header_found \/ k = no_data_found)
    by (intros k []).
  destruct (path_exists w file_path) eqn:Hex; [|simpl; kinds Hnone].
  destruct (detect_file_type file_path) as [[|]|e] eqn:Hd.
  - destruct (open_workbook w file_path) as [sheets|msg] eqn:Eo.
    + pose proof (parse_excel_sheets_kinds file_path sheets) as Hk. kinds Hk.
    + rewrite open_failure_result.
      destruct (mentions_protection msg) eqn:Em; simpl; kinds Hnone.
  - unfold parse_pdf. destruct (read_pdf w file_path) as [pdf_pages|msg] eqn:Er.
    + cbv zeta.
      destruct (collect_tables 1 pdf_pages) as [|t ts] eqn:Ec; simpl is_nil; cbv iota.
      * destruct (read_ocr w file_path) as [ocr_tables ocr_warnings|msg] eqn:Eocr.
        -- destruct ocr_tables as [|t ts]; simpl.
           ++ kinds Hnone.
           ++ pose proof (parse_pdf_tables_kinds file_path (length pdf_pages) 0 true
                            (ocr_notice :: ocr_warnings) low (t :: ts)) as Hk.
              kinds Hk.
        -- simpl. kinds Hnone.
      * simpl snd.
        pose proof (parse_pdf_tables_kinds file_path (length pdf_pages)
                      (length (t :: ts)) false [] high (t :: ts)) as Hk.
        kinds Hk.
    + simpl snd. rewrite open_failure_result.
      destruct (mentions_protection msg) eqn:Em; simpl; kinds Hnone.
  - pose proof (detect_file_type_kind file_path e Hd) as He.
    simpl. rewrite He. kinds Hnone.
Qed.

(** ** Floats *)

(** On text the function with the floats of the machine rounds what
    [convert_danish_number] computes. *)
Lemma convert_any_of_text (s : string) :
  convert_danish_number_any (PStr s) =
  Returns (option_map Double.round (convert_danish_number (VStr s))).
Proof. reflexivity. Qed.

Lemma round_is_no_nan (q : Q) : Double.round q <> Double.NaN.
Proof.
  unfold Double.round. cbv zeta.
  destruct (Z.abs (Qnum q) =? 0)%Z; [discriminate|].
  destruct (Double.scaled _ _ _) as [sn sd].
  destruct (_ <=? _)%Z; discriminate.
Qed.

Lemma result_eqb_refl (r : option Double.double) :
  r <> Some Double.NaN -> result_eqb r r = true.
Proof.
  destruct r as [[q|b|]|]; simpl; intros H.
  - apply Qeq_bool_iff. reflexivity.
  - destruct b; reflexivity.
  - congruence.
  - reflexivity.
Qed.

Lemma convert_any_no_nan (value : pyobject) (r : option Double.double) :
  convert_danish_number_any value = Returns r ->
  r = Some Double.NaN -> value = PFloat Double.NaN.
Proof.
  destruct value as [|x|z|s|s]; simpl.
  - intros [= <-]. discriminate.
  - intros [= <-] [= ->]. reflexivity.
  - unfold float_of_int. pose proof (round_is_no_nan (inject_Z z)) as Hn.
    destruct (Double.round (inject_Z z)); [| |congruence].
    + intros [= <-]. discriminate.
    + discriminate.
  - destruct (convert_danish_text s) as [q|]; simpl; intros [= <-]; [|discriminate].
    intros [= H]. exfalso. exact (round_is_no_nan q H).
  - destruct (convert_danish_text s) as [q|]; simpl; intros [= <-]; [|discriminate].
    intros [= H]. exfalso. exact (round_is_no_nan q H).
Qed.

Lemma convert_any_of_result (r : option Double.double) :
  convert_danish_number_any (object_of_result r) = Returns r.
Proof. destruct r; reflexivity. Qed.

(** C9.  "normalize(normalize(x)) == normalize(x)" holds for every argument
    but two kinds: the float NaN, which the function returns unchanged and
    which is not equal to itself, and an [int] beyond the range of the
    floats, on which the first call raises [OverflowError].  Whenever the
    first call returns, the second returns the very same result. *)
Theorem convert_danish_number_idempotent_but_nan (value : pyobject) :
  (idempotent_at value <->
   value <> PFloat Double.NaN /\
   forall z, value = PInt z -> float_of_int z <> None) /\
  (forall r, convert_danish_number_any value = Returns r ->
     convert_danish_number_any (object_of_result r) = Returns r).
Proof.
  split; [|intros r _; apply convert_any_of_result].
  split.
  - intros (r & r' & H1 & H2 & H3).
    rewrite convert_any_of_result in H2. injection H2 as <-.
    split.
    + intros ->. simpl in H1. injection H1 as <-. discriminate H3.
    + intros z -> Hz. simpl in H1. rewrite Hz in H1. discriminate H1.
  - intros [Hnan Hint].
    destruct (convert_danish_number_any value) as [r|] eqn:E.
    + exists r, r. split; [exact E|]. split; [apply convert_any_of_result|].
      apply result_eqb_refl. intros Hr. apply Hnan.
      exact (convert_any_no_nan value r E Hr).
    + exfalso. destruct value as [|x|z|s|s]; simpl in E; try discriminate E.
      destruct (float_of_int z) eqn:Ez; [discriminate E|].
      exact (Hint z eq_refl Ez).
Qed.

(** C9, as the claim words it ("for every input x"): NaN comes back as NaN
    and is not equal to itself; the integer 10^400 makes the call raise. *)
Lemma nan_and_huge_int_break_idempotence :
  convert_danish_number_any (PFloat Double.NaN) = Returns (Some Double.NaN) /\
  result_eqb (Some Double.NaN) (Some Double.NaN) = false /\
  ~ idempotent_at (PFloat Double.NaN) /\
  convert_danish_number_any (PInt (10 ^ 400)) = OverflowError /\
  ~ idempotent_at (PInt (10 ^ 400)).
Proof.
  split; [reflexivity|]. split; [reflexivity|]. split; [|split].
  - intros (r & r' & H1 & H2 & H3). simpl in H1. injection H1 as <-.
    simpl in H2. injection H2 as <-. discriminate H3.
  - vm_compute. reflexivity.
  - intros (r & r' & H1 & _).
    assert (E : convert_danish_number_any (PInt (10 ^ 400)) = OverflowError)
      by (vm_compute; reflexivity).
    rewrite E in H1. discriminate H1.
Qed.

(** ** PDF pipeline: a row that repeats the header *)

Lemma header_in_table (rows : list row) (i : nat) (hdr : row) :
  find_header_row rows = Ok (i, hdr) -> In hdr rows.
Proof.
  intros H. apply find_header_row_ok in H as [Hi _].
  apply lookup_take_Some in Hi as [Hi _].
  apply list_elem_of_In. eapply list_elem_of_lookup_2, Hi.
Qed.

(** C5.  The cells are as the table extractor and the text recognition
    deliver them: falsy, or text that is not blank.  Then a row anywhere in
    the tables, leading or embedded, whose signature of non-empty cells
    (lower-cased, stripped) is that of the accepted header never occurs
    among the output rows, and [total_rows] counts the output rows only. *)
Theorem repeated_header_is_dropped (file_path : string) (n_pages n_tables : nat)
    (ocr_used : bool) (ws : list string) (conf : confidence_level)
    (tables : list table_info) (res : parse_result) :
  clean_tables tables ->
  parse_pdf_tables file_path n_pages n_tables ocr_used ws conf tables = Ok res ->
  total_rows res = length (rows res) /\
  forall t cells,
    In t tables -> In cells (table_rows t) ->
    row_sig (map cell_text cells) = row_sig (columns res) ->
    forall r, In r (rows res) -> raw r <> map cell_text cells.
Proof.
  intros Hclean. unfold parse_pdf_tables. cbv zeta.
  pose proof (pdf_fold_seen tables tables initial_pdf_state) as Hseen.
  pose proof (pdf_fold_inv tables initial_pdf_state) as Hinv.
  set (F := fold_left pdf_table_step tables initial_pdf_state) in *.
  destruct (ps_header_found F) eqn:Hf; [|discriminate].
  simpl. destruct (is_nil (ps_all_rows F)); [discriminate|].
  destruct (calculate_summary_stats (ps_all_rows F) (ps_columns F) (ps_column_mapping F))
    as [sm q].
  intros [= <-]. simpl. split; [reflexivity|].
  unfold seen_inv in Hseen. rewrite Hf in Hseen.
  destruct Hseen as (t0 & i & hdr & Ht0 & Hh & Hs & Hc & _); [auto|split; reflexivity|].
  destruct Hinv as [_ Hun]; [split; simpl; [reflexivity|tauto]|].
  assert (Hhdr : Forall clean_cell hdr).
  { unfold clean_tables in Hclean.
    pose proof (proj1 (List.Forall_forall _ _) Hclean t0 Ht0) as Hrows.
    exact (proj1 (List.Forall_forall _ _) Hrows hdr (header_in_table _ _ _ Hh)). }
  intros t cells _ _ Hsig r Hr Hraw.
  apply (Hun r Hr). rewrite Hs, Hraw, Hsig, Hc, <- (header_sig_row_sig hdr Hhdr).
  apply elem_of_singleton. reflexivity.
Qed.

Lemma repeated_header_is_dropped_witness :
  match parse_pdf_tables "lejeliste.pdf" 2 2 false [] high
          (collect_tables 1 repeated_headers_pdf) with
  | Ok res =>
      map raw (rows res) =
        [ ["A1"; "50"; "10.000"]; ["A2"; "60"; "12.000"]; ["B1"; "70"; "14.000"] ]%string /\
      total_rows res = 3 /\
      forall r, In r (rows res) ->
        raw r <> ["LEJNR"; ""; " areal"; "Leje "]%string /\
        raw r <> ["Lejnr"; "Areal"; "Leje"]%string
  | Err _ => False
  end.
Proof.
  assert (Hclean : clean_tables (collect_tables 1 repeated_headers_pdf))
    by (repeat constructor).
  destruct (parse_pdf_tables "lejeliste.pdf" 2 2 false [] high
              (collect_tables 1 repeated_headers_pdf)) as [res|e] eqn:E.
  - assert (Hres : map raw (rows res) =
        [ ["A1"; "50"; "10.000"]; ["A2"; "60"; "12.000"]; ["B1"; "70"; "14.000"] ]%string /\
        columns res = ["Lejnr"; "Areal"; "Leje"]%string)
      by (revert E; vm_compute; intros [= <-]; split; reflexivity).
    destruct Hres as [Hrows Hcols].
    destruct (repeated_header_is_dropped _ _ _ _ _ _ _ _ Hclean E) as [Htotal Hdrop].
    split; [exact Hrows|]. split; [rewrite Htotal, <- (length_map raw), Hrows; reflexivity|].
    intros r Hr. split.
    + apply (Hdrop (mkTable 1
               [ [CStr "Lejnr"; CStr "Areal"; CStr "Leje"];
                 [CStr "A1"; CStr "50"; CStr "10.000"];
                 [CStr "LEJNR"; CStr ""; CStr " areal"; CStr "Leje "];
                 [CStr "A2"; CStr "60"; CStr "12.000"] ])
              [CStr "LEJNR"; CStr ""; CStr " areal"; CStr "Leje "]);
        [left; reflexivity|simpl; tauto|rewrite Hcols; vm_compute; reflexivity|exact Hr].
    + apply (Hdrop (mkTable 2
               [ [CStr "Lejnr"; CStr "Areal"; CStr "Leje"];
                 [CStr "B1"; CStr "70"; CStr "14.000"] ])
              [CStr "Lejnr"; CStr "Areal"; CStr "Leje"]);
        [right; left; reflexivity|simpl; tauto|rewrite Hcols; vm_compute; reflexivity|exact Hr].
  - revert E. vm_compute. discriminate.
Defined.
